(** * nunif/cli/convert_data.py: scale-consistent cropping and tiling

    A shallow embedding of the paired crop/split functions, the key
    indexer and the conversion pipeline of [convert_data.py], and the
    properties of them that the specification states.

    Python values are embedded as follows.
    - [int] is [Z] (unbounded).
    - [float] is IEEE-754 binary64, embedded as the Standard Library's
      [spec_float] with precision 53 and maximal exponent 1024; the
      arithmetic is [SFdiv], [SFmul], [SFsub] of [SpecFloat], which round
      to nearest, ties to even, as Python's does.
    - an exception is a value of [exn]; a computation that can raise is a
      value of [result]. *)

From Stdlib Require Import ZArith List String Ascii Bool Lia SpecFloat DecimalString.
From Stdlib Require Import DecimalPos DecimalN.
From Stdlib Require Import QArith Qabs Qpower Qfield Lqa.
Import ListNotations.

Local Open Scope string_scope.
Local Open Scope list_scope.
Local Open Scope Z_scope.

(** ** Exceptions and the error monad *)

Inductive exn : Type :=
| ZeroDivisionError
| IntOfNaN                                  (* ValueError: cannot convert float NaN to integer *)
| IntOfInfinity                             (* OverflowError: cannot convert float infinity to integer *)
| RangeStepZero                             (* ValueError: range() arg 3 must not be zero *)
| UnpredictableScale (xh xw yh yw : Z)      (* ValueError raised by the pair functions *)
| AssertionError
| AttributeError (type_name attr : string)
| IndexError
| KeyError (key : string)
| UnboundLocalError (name : string)
| ValueError (msg : string)
| RuntimeError (msg : string).

Inductive result (A : Type) : Type :=
| Ok (a : A)
| Raise (e : exn).

Arguments Ok {A} a.
Arguments Raise {A} e.

Definition bind {A B} (c : result A) (k : A -> result B) : result B :=
  match c with
  | Ok a => k a
  | Raise e => Raise e
  end.

Notation "x <- c ;; k" := (bind c (fun x => k))
  (at level 61, c at next level, right associativity).
Notation "' pat <- c ;; k" := (bind c (fun x => match x with pat => k end))
  (at level 61, pat pattern, c at next level, right associativity).

Definition py_assert (b : bool) : result unit :=
  if b then Ok tt else Raise AssertionError.

(** [for_each l body s] is the loop [for a in l: s = body(a, s)], which
    stops at the first exception. *)
Fixpoint for_each {A S} (l : list A) (body : A -> S -> result S) (s : S) : result S :=
  match l with
  | [] => Ok s
  | a :: l' => s' <- body a s ;; for_each l' body s'
  end.

(** ** Python numbers *)

Module Py.

Definition prec : Z := 53.
Definition emax : Z := 1024.

Definition float := spec_float.

(** [float(n)] for an int [n]: the nearest binary64 value. *)
Definition of_int (n : Z) : float := binary_normalize prec emax n 0 false.

Definition fmul (a b : float) : float := SFmul prec emax a b.
Definition fsub (a b : float) : float := SFsub prec emax a b.
Definition fabs (a : float) : float := SFabs a.
(** [a > b] on floats; false when either side is NaN. *)
Definition fgt (a b : float) : bool := SFltb b a.

Definition is_zero (a : float) : bool :=
  match a with S754_zero _ => true | _ => false end.

(** [a / b] on floats raises on a zero divisor. *)
Definition fdiv (a b : float) : result float :=
  if is_zero b then Raise ZeroDivisionError else Ok (SFdiv prec emax a b).

(** [a / b] on ints (true division).  Both operands are exact as floats
    below 2^53, far above any tensor dimension, where Python's correctly
    rounded quotient is the float quotient of the converted operands. *)
Definition truediv (a b : Z) : result float :=
  if b =? 0 then Raise ZeroDivisionError else Ok (SFdiv prec emax (of_int a) (of_int b)).

(** [n * f] and [n / f] with [n] an int and [f] a float. *)
Definition int_mul (n : Z) (f : float) : float := fmul (of_int n) f.
Definition int_div (n : Z) (f : float) : result float := fdiv (of_int n) f.

(** [int(f)]: truncation toward zero. *)
Definition int (f : float) : result Z :=
  match f with
  | S754_nan => Raise IntOfNaN
  | S754_infinity _ => Raise IntOfInfinity
  | S754_zero _ => Ok 0
  | S754_finite s m e => Ok (cond_Zopp s (Z.shiftl (Zpos m) e))
  end.

(** The literal [0.00001]: the binary64 value nearest to 10^-5,
    0x1.4f8b588e368f1p-17. *)
Definition lit_0_00001 : float := S754_finite false 5902958103587057 (-69).

(** The literal [0.5], the default of [--split-step]. *)
Definition lit_0_5 : float := S754_finite false 4503599627370496 (-53).

(** [range(start, stop, step)] as the list it iterates over. *)
Definition range_len (start stop step : Z) : Z :=
  if 0 <? step then (stop - start + step - 1) / step
  else (start - stop - step - 1) / (- step).

Definition range (start stop step : Z) : result (list Z) :=
  if step =? 0 then Raise RangeStepZero
  else Ok (map (fun k => start + Z.of_nat k * step)
               (seq 0 (Z.to_nat (range_len start stop step)))).

End Py.

(** ** Tensors

    Modelled from the spec: the tensor operations [NF.crop], [NF.crop_ref],
    [NF.pad] and [NF.to_grayscale] of [nunif.transforms.functional] are not
    among the sources.  A tensor is the term that built it: a decoded image
    of a given height and width, or the rectangular sub-region
    [{row, col, height, width}] cut from a tensor (the spec's Tile), or a
    padded or grayscale tensor.  [shape_h] and [shape_w] are [x.shape[1]]
    and [x.shape[2]]. *)

Inductive pad_mode : Type := Reflect | Constant.

Inductive tensor : Type :=
| Decoded (filename : string) (h w : Z)
| Crop (is_view : bool) (x : tensor) (row col height width : Z)
| Pad (x : tensor) (margin : Z) (mode : pad_mode)
| Gray (x : tensor).

Fixpoint shape_h (x : tensor) : Z :=
  match x with
  | Decoded _ h _ => h
  | Crop _ _ _ _ h _ => h
  | Pad x p _ => shape_h x + 2 * p
  | Gray x => shape_h x
  end.

Fixpoint shape_w (x : tensor) : Z :=
  match x with
  | Decoded _ _ w => w
  | Crop _ _ _ _ _ w => w
  | Pad x p _ => shape_w x + 2 * p
  | Gray x => shape_w x
  end.

Module NF.
Definition crop (x : tensor) (i j h w : Z) : tensor := Crop false x i j h w.
Definition crop_ref (x : tensor) (i j h w : Z) : tensor := Crop true x i j h w.
Definition pad (x : tensor) (p : Z) (mode : pad_mode) : tensor := Pad x p mode.
Definition to_grayscale (x : tensor) : tensor := Gray x.
End NF.

(** ** The tiler *)

Definition crop_max (x : tensor) (max_size : Z) : tensor :=
  let h := shape_h x in
  let w := shape_w x in
  let lh := Z.min h max_size in
  let lw := Z.min w max_size in
  if negb (lh =? h) || negb (lw =? w) then NF.crop_ref x 0 0 lh lw else x.

(** [int(v / s)]: a low-res length or offset carried to the high-res side. *)
Definition scale_up (v : Z) (s : Py.float) : result Z :=
  q <- Py.int_div v s ;; Py.int q.

(** [int(v * s)]: a high-res length or offset carried to the low-res side. *)
Definition scale_down (v : Z) (s : Py.float) : result Z :=
  Py.int (Py.int_mul v s).

Definition _pair_crop_max (x y : tensor) (max_size : Z) : result (tensor * tensor) :=
  let xh := shape_h x in
  let xw := shape_w x in
  let yh := shape_h y in
  let yw := shape_w y in
  scale_h <- Py.truediv xh yh ;;
  scale_w <- Py.truediv xw yw ;;
  if Py.fgt (Py.fabs (Py.fsub scale_w scale_h)) Py.lit_0_00001
  then Raise (UnpredictableScale xh xw yh yw) else
  _ <- py_assert (xh <=? yh) ;;
  lr_max_size <- Py.int (Py.int_mul max_size scale_h) ;;
  let lxh := Z.min xh lr_max_size in
  let lxw := Z.min xw lr_max_size in
  if negb (lxh =? xh) || negb (lxw =? xw) then
    let x' := NF.crop_ref x 0 0 lxh lxw in
    lyh <- scale_up lxh scale_h ;;
    lyw <- scale_up lxw scale_w ;;
    let y' := NF.crop_ref y 0 0 lyh lyw in
    back_h <- scale_down lyh scale_h ;;
    if lxh =? back_h then
      back_w <- scale_down lyw scale_w ;;
      _ <- py_assert (lxw =? back_w) ;;
      Ok (x', y')
    else Raise AssertionError
  else Ok (x, y).

Definition pair_crop_max (x y : tensor) (max_size : Z) : result (tensor * tensor) :=
  if shape_h x <=? shape_h y then _pair_crop_max x y max_size
  else '(y', x') <- _pair_crop_max y x max_size ;; Ok (x', y').

Definition split_image (x : tensor) (max_size : Z) (step_rate : Py.float)
  : result (list tensor) :=
  let h := shape_h x in
  let w := shape_w x in
  if (max_size <? h) || (max_size <? w) then
    let crop_h := Z.min h max_size in
    let crop_w := Z.min w max_size in
    step_h <- Py.int (Py.int_mul crop_h step_rate) ;;
    step_w <- Py.int (Py.int_mul crop_w step_rate) ;;
    rows <- Py.range 0 (h - crop_h + 1) step_h ;;
    for_each rows (fun i images =>
      cols <- Py.range 0 (w - crop_w + 1) step_w ;;
      for_each cols (fun j images =>
        Ok (images ++ [NF.crop x i j crop_h crop_w])) images) []
  else Ok [x].

(** The assertion in the loop of [_pair_split_image]: each conjunct is
    evaluated only when those before it hold. *)
Definition aligned (v : Z) (s : Py.float) : result bool :=
  up <- scale_up v s ;; back <- scale_down up s ;; Ok (v =? back).

Definition tile_aligned (i j crop_h crop_w : Z) (scale_h scale_w : Py.float)
  : result unit :=
  a <- aligned i scale_h ;;
  if a then
    b <- aligned j scale_w ;;
    if b then
      c <- aligned crop_h scale_h ;;
      if c then
        d <- aligned crop_w scale_w ;; py_assert d
      else Raise AssertionError
    else Raise AssertionError
  else Raise AssertionError.

Definition _pair_split_image (x y : tensor) (max_size : Z) (split_step : Py.float)
  : result (list tensor * list tensor) :=
  let xh := shape_h x in
  let xw := shape_w x in
  let yh := shape_h y in
  let yw := shape_w y in
  scale_h <- Py.truediv xh yh ;;
  scale_w <- Py.truediv xw yw ;;
  if Py.fgt (Py.fabs (Py.fsub scale_w scale_h)) Py.lit_0_00001
  then Raise (UnpredictableScale xh xw yh yw) else
  _ <- py_assert (xh <=? yh) ;;
  lr_max_size <- Py.int (Py.int_mul max_size scale_h) ;;
  let lxh := Z.min xh lr_max_size in
  let lxw := Z.min xw lr_max_size in
  if negb (xh =? lxh) || negb (xw =? lxw) then
    let crop_h := Z.min xh lr_max_size in
    let crop_w := Z.min xw lr_max_size in
    step_h <- Py.int (Py.int_mul crop_h split_step) ;;
    step_w <- Py.int (Py.int_mul crop_w split_step) ;;
    rows <- Py.range 0 (xh - crop_h + 1) step_h ;;
    for_each rows (fun i images =>
      cols <- Py.range 0 (xw - crop_w + 1) step_w ;;
      for_each cols (fun j '(x_images, y_images) =>
        _ <- tile_aligned i j crop_h crop_w scale_h scale_w ;;
        yi <- scale_up i scale_h ;;
        yj <- scale_up j scale_w ;;
        yh' <- scale_up crop_h scale_h ;;
        yw' <- scale_up crop_w scale_w ;;
        Ok (x_images ++ [NF.crop x i j crop_h crop_w],
            y_images ++ [NF.crop y yi yj yh' yw'])) images) ([], [])
  else Ok ([x], [y]).

Definition pair_split_image (x y : tensor) (max_size : Z) (split_step : Py.float)
  : result (list tensor * list tensor) :=
  if shape_h x <=? shape_h y then _pair_split_image x y max_size split_step
  else '(y_images, x_images) <- _pair_split_image y x max_size split_step ;;
       Ok (x_images, y_images).


(** ** Dictionaries and strings

    A [dict] with string keys is the list of its items in insertion order:
    the order in which [keys()] iterates. *)

Definition dict (V : Type) : Type := list (string * V).

Fixpoint dict_get {V} (k : string) (d : dict V) : option V :=
  match d with
  | [] => None
  | (k', v) :: d' => if String.eqb k k' then Some v else dict_get k d'
  end.

Definition dict_mem {V} (k : string) (d : dict V) : bool :=
  match dict_get k d with Some _ => true | None => false end.

(** [d[k] = v]: an existing key keeps its place. *)
Fixpoint dict_set {V} (k : string) (v : V) (d : dict V) : dict V :=
  match d with
  | [] => [(k, v)]
  | (k', v') :: d' =>
      if String.eqb k k' then (k, v) :: d' else (k', v') :: dict_set k v d'
  end.

Definition dict_keys {V} (d : dict V) : list string := map fst d.

(** [d[k]] on a key that may be missing. *)
Definition getitem {V} (d : dict V) (k : string) : result V :=
  match dict_get k d with
  | Some v => Ok v
  | None => Raise (KeyError k)
  end.

Fixpoint insert_sorted (k : string) (l : list string) : list string :=
  match l with
  | [] => [k]
  | k' :: l' => if String.leb k k' then k :: l else k' :: insert_sorted k l'
  end.

(** [sorted(keys)]: ascending in the order of the code points. *)
Definition sorted (l : list string) : list string :=
  fold_right insert_sorted [] l.

Definition newline : string := String "010"%char EmptyString.

Definition starts_with_slash (s : string) : bool :=
  match s with
  | String c _ => Ascii.eqb c "/"%char
  | EmptyString => false
  end.

Fixpoint ends_with_slash (s : string) : bool :=
  match s with
  | EmptyString => false
  | String c EmptyString => Ascii.eqb c "/"%char
  | String _ s' => ends_with_slash s'
  end.

(** [os.path.join(a, b)] of [posixpath]. *)
Definition path_join (a b : string) : string :=
  if starts_with_slash b then b
  else if String.eqb a "" || ends_with_slash a then (a ++ b)%string
  else (a ++ "/" ++ b)%string.

Fixpoint zeros (n : nat) : string :=
  match n with
  | O => EmptyString
  | S n' => String "0"%char (zeros n')
  end.

(** [f"{no:03d}"] for [no >= 0]. *)
Definition format_03d (no : Z) : string :=
  let digits := NilZero.string_of_uint (N.to_uint (Z.to_N no)) in
  (zeros (3 - String.length digits) ++ digits)%string.

(** ** The key indexer and the pipeline *)

Record entry : Type := { src : string; options : list string }.

(** One value of [data]: [{"x": ..., "y": ...}], or [{"y": ...}] alone. *)
Record sample : Type := { sample_x : option entry; sample_y : entry }.

(** A decoded PIL image and the metadata the loader yields with it;
    [alpha] is ["alpha" in meta]. *)
Record pil_image : Type := { im_name : string; im_h : Z; im_w : Z }.
Record meta : Type := { filename : string; alpha : bool }.

Module TF.
Definition to_tensor (im : pil_image) : tensor :=
  Decoded (im_name im) (im_h im) (im_w im).
End TF.

Module Args.
Record t : Type := {
  input : option string;
  target : string;
  data_dir : string;
  max_size : Z;
  split_image : bool;
  split_step : Py.float;
  pad_x : Z;
  pad_y : Z;
  zero_pad_x : bool;
  zero_pad_y : bool;
  grayscale_x : bool;
  grayscale_y : bool
}.
End Args.

(** What a run does to the world, in order: directories made and removed,
    text written to the standard output, and tiles submitted to the pool
    of writers ([pool.submit(save_image_task, im, output_path)]). *)
Inductive event : Type :=
| Makedirs (p : string)
| Rmtree (p : string)
| Stdout (text : string)
| Submit (im : tensor) (output_path : string).

(** A computation with effects: the events up to its end or its
    exception, and its outcome. *)
Definition io (A : Type) : Type := (list event * result A)%type.

Definition io_bind {A B} (c : io A) (k : A -> io B) : io B :=
  match c with
  | (t, Ok a) => let '(t', r) := k a in (t ++ t', r)
  | (t, Raise e) => (t, Raise e)
  end.

Notation "x <~ c ;; k" := (io_bind c (fun x => k))
  (at level 61, c at next level, right associativity).
Notation "' pat <~ c ;; k" := (io_bind c (fun x => match x with pat => k end))
  (at level 61, pat pattern, c at next level, right associativity).

Definition emit (e : event) : io unit := ([e], Ok tt).
Definition lift {A} (r : result A) : io A := ([], r).
Definition skip : io unit := ([], Ok tt).

Fixpoint io_for_each {A} (l : list A) (body : A -> io unit) : io unit :=
  match l with
  | [] => skip
  | a :: l' => _ <~ body a ;; io_for_each l' body
  end.

(** The attributes of a Python [list]; [row.values] and [cols.shift()]
    look up names that are not among them. *)
Definition list_attributes : list string :=
  ["append"; "clear"; "copy"; "count"; "extend"; "index"; "insert"; "pop";
   "remove"; "reverse"; "sort"].

Definition list_getattr (attr : string) : result unit :=
  if existsb (String.eqb attr) list_attributes then Ok tt
  else Raise (AttributeError "list" attr).

Definition USE_SNAPPY_IMAGE : bool := true.
Definition INPUT_DIR : string := "x".
Definition TARGET_DIR : string := "y".

Section Pipeline.

(** The collaborators that are not among the sources: [filename2key]
    of [nunif.utils] with its default for [use_subdir],
    [ImageLoader.listdir], the item [ImageLoader] yields for a file,
    the rows [csv.reader] yields for a file, and the file system as
    [os.path] sees it. *)
Variable filename2key : string -> bool -> string.
Variable use_subdir_default : bool.
Variable listdir : string -> list string.
Variable image_loader : string -> pil_image * meta.
Variable csv_reader : string -> list (list string).
Variable path_isdir : string -> bool.
Variable path_exists : string -> bool.
Variable path_ext : string -> string.      (* path.splitext(p)[-1] *)

(** Past the two attribute lookups a row would be split into its first
    column and the rest. *)
Definition load_files_from_csv (txt : string) : result (dict entry) :=
  for_each (csv_reader txt) (fun row data =>
    _ <- list_getattr "values" ;;
    let cols := row in
    _ <- list_getattr "shift" ;;
    match cols with
    | src :: cols =>
        let key := filename2key src false in
        Ok (dict_set key {| src := src; options := cols |} data)
    | [] => Raise IndexError
    end) [].

Definition load_files_from_dir (directory : string) : dict entry :=
  fold_left (fun data src =>
    let key := filename2key src false in
    dict_set key {| src := src; options := [] |} data) (listdir directory) [].

Definition make_output_name (filename : string) (no : Z) : string :=
  let basename := filename2key filename use_subdir_default in
  let ext := if USE_SNAPPY_IMAGE then "sz" else "png" in
  if 0 <=? no then (basename ++ "." ++ format_03d no ++ "." ++ ext)%string
  else (basename ++ "." ++ ext)%string.

Definition skip_message (name : string) : string :=
  (newline ++ "skip transparent png " ++ name ++ newline)%string.

Definition pad_tensor (x : tensor) (margin : Z) (zero_pad : bool) : tensor :=
  if 0 <? margin then NF.pad x margin (if zero_pad then Constant else Reflect)
  else x.

Definition grayscale_tensor (x : tensor) (on : bool) : tensor :=
  if on then NF.to_grayscale x else x.

(** The numbered submissions of the split branches. *)
Fixpoint submit_pairs (input_dir target_dir x_name y_name : string)
         (tiles : list (tensor * tensor)) (no : Z) : io unit :=
  match tiles with
  | [] => skip
  | (x, y) :: tiles' =>
      _ <~ emit (Submit x (path_join input_dir (make_output_name x_name no))) ;;
      _ <~ emit (Submit y (path_join target_dir (make_output_name y_name no))) ;;
      submit_pairs input_dir target_dir x_name y_name tiles' (no + 1)
  end.

Fixpoint submit_tiles (target_dir y_name : string)
         (tiles : list tensor) (no : Z) : io unit :=
  match tiles with
  | [] => skip
  | y :: tiles' =>
      _ <~ emit (Submit y (path_join target_dir (make_output_name y_name no))) ;;
      submit_tiles target_dir y_name tiles' (no + 1)
  end.

(** The body of the loop of [convert_data] for one pair of the zipped
    loaders; a [continue] ends the body. *)
Definition convert_pair (args : Args.t) (input_dir target_dir : string)
           (x_item : option (pil_image * meta)) (y_item : pil_image * meta)
  : io unit :=
  let '(y_im, y_meta) := y_item in
  let y := TF.to_tensor y_im in
  if alpha y_meta then emit (Stdout (skip_message (filename y_meta)))
  else
    match x_item with
    | Some (x_im, x_meta) =>
        _ <~ lift (py_assert (String.eqb
                     (filename2key (filename x_meta) use_subdir_default)
                     (filename2key (filename y_meta) use_subdir_default))) ;;
        let x := TF.to_tensor x_im in
        if alpha x_meta then emit (Stdout (skip_message (filename x_meta)))
        else
          let x := pad_tensor x (Args.pad_x args) (Args.zero_pad_x args) in
          let y := pad_tensor y (Args.pad_y args) (Args.zero_pad_y args) in
          let x := grayscale_tensor x (Args.grayscale_x args) in
          let y := grayscale_tensor y (Args.grayscale_y args) in
          if 0 <? Args.max_size args then
            if Args.split_image args then
              '(x_images, y_images) <~
                lift (pair_split_image x y (Args.max_size args) (Args.split_step args)) ;;
              submit_pairs input_dir target_dir (filename x_meta) (filename y_meta)
                           (combine x_images y_images) 0
            else
              '(x, y) <~ lift (pair_crop_max x y (Args.max_size args)) ;;
              _ <~ emit (Submit x (path_join input_dir (make_output_name (filename x_meta) (-1)))) ;;
              emit (Submit y (path_join target_dir (make_output_name (filename y_meta) (-1))))
          else
            _ <~ emit (Submit x (path_join input_dir (make_output_name (filename x_meta) (-1)))) ;;
            emit (Submit y (path_join target_dir (make_output_name (filename y_meta) (-1))))
    | None =>
        let y := pad_tensor y (Args.pad_y args) (Args.zero_pad_y args) in
        let y := grayscale_tensor y (Args.grayscale_y args) in
        if 0 <? Args.max_size args then
          if Args.split_image args then
            y_images <~ lift (split_image y (Args.max_size args) (Args.split_step args)) ;;
            submit_tiles target_dir (filename y_meta) y_images 0
          else
            let y := crop_max y (Args.max_size args) in
            emit (Submit y (path_join target_dir (make_output_name (filename y_meta) (-1))))
        else
          emit (Submit y (path_join target_dir (make_output_name (filename y_meta) (-1))))
    end.

(** The loop of [convert_data] over the zipped loaders. *)
Definition convert_loop (args : Args.t) (input_dir target_dir : string)
           (items : list (option (pil_image * meta) * (pil_image * meta)))
  : io unit :=
  io_for_each items (fun '(x_item, y_item) =>
    convert_pair args input_dir target_dir x_item y_item).

Definition convert_data (data : dict sample) (has_x : bool) (args : Args.t)
  : io unit :=
  let input_dir := path_join (Args.data_dir args) INPUT_DIR in
  let target_dir := path_join (Args.data_dir args) TARGET_DIR in
  _ <~ emit (Makedirs (Args.data_dir args)) ;;
  _ <~ (if path_exists input_dir then emit (Rmtree input_dir) else skip) ;;
  _ <~ (if path_exists target_dir then emit (Rmtree target_dir) else skip) ;;
  _ <~ emit (Makedirs target_dir) ;;
  _ <~ (if has_x then emit (Makedirs input_dir) else skip) ;;
  y_files <~ lift (for_each (sorted (dict_keys data)) (fun k files =>
               s <- getitem data k ;; Ok (files ++ [src (sample_y s)])) []) ;;
  let y_loader := map image_loader y_files in
  x_loader <~ lift (
    if has_x then
      x_files <- for_each (sorted (dict_keys data)) (fun k files =>
                   s <- getitem data k ;;
                   match sample_x s with
                   | Some e => Ok (files ++ [src e])
                   | None => Raise (KeyError "x")
                   end) [] ;;
      Ok (map (fun f => Some (image_loader f)) x_files)
    else Ok (repeat None (List.length y_files))) ;;
  convert_loop args input_dir target_dir (combine x_loader y_loader).

(** The [if]/[elif] of [main] that loads one side; [None] when neither
    branch binds the variable. *)
Definition load_side (p : string) : result (option (dict entry)) :=
  if path_isdir p then Ok (Some (load_files_from_dir p))
  else if String.eqb (path_ext p) ".txt" || String.eqb (path_ext p) ".csv"
       then d <- load_files_from_csv p ;; Ok (Some d)
       else Ok None.

Definition bound {A} (name : string) (v : option A) : result A :=
  match v with
  | Some a => Ok a
  | None => Raise (UnboundLocalError name)
  end.

Definition main (args : Args.t) : io Z :=
  _ <~ lift (if Args.split_image args && negb (0 <? Args.max_size args)
             then Raise (ValueError "--max-size is required for --split_image")
             else Ok tt) ;;
  _ <~ lift (if ((0 <? Args.pad_x args) || (0 <? Args.pad_y args))
                && (0 <? Args.max_size args)
             then Raise (ValueError "--pad-(x|y) with --max-size is not supported")
             else Ok tt) ;;
  _ <~ lift (match Args.input args with
             | None =>
                 if (0 <? Args.pad_x args) || Args.zero_pad_x args || Args.grayscale_x args
                 then Raise (ValueError
                   "--input is not specified but --pad-x,--zero-pad-x, --grayscale_x are specified")
                 else Ok tt
             | Some _ => Ok tt
             end) ;;
  y_data <~ lift (load_side (Args.target args)) ;;
  match Args.input args with
  | Some input =>
      x_data <~ lift (load_side input) ;;
      y_data <~ lift (bound "y_data" y_data) ;;
      data <~ lift (for_each (dict_keys y_data) (fun y_key data =>
                x_data <- bound "x_data" x_data ;;
                if dict_mem y_key x_data then
                  x_entry <- getitem x_data y_key ;;
                  y_entry <- getitem y_data y_key ;;
                  Ok (dict_set y_key {| sample_x := Some x_entry; sample_y := y_entry |} data)
                else Raise (RuntimeError (y_key ++ " does not exist on --x side")%string)) []) ;;
      _ <~ convert_data data true args ;;
      ([], Ok 0)
  | None =>
      y_data <~ lift (bound "y_data" y_data) ;;
      let data := fold_left (fun data '(k, v) =>
                    dict_set k {| sample_x := None; sample_y := v |} data) y_data [] in
      _ <~ convert_data data false args ;;
      ([], Ok 0)
  end.

End Pipeline.

(** ** Notions of the specification *)

(** The offsets of a sliding window of size [window] over a dimension
    [dim] with stride [stride]: from 0, in steps of [stride], up to but
    not past [dim - window]. *)
Definition tile_offsets (dim window stride : Z) : list Z :=
  map (fun k => Z.of_nat k * stride)
      (seq 0 (Z.to_nat ((dim - window) / stride + 1))).

(** [math.floor(f)] for a finite float: the floor the specification uses
    for the strides. *)
Definition float_floor (f : Py.float) : option Z :=
  match f with
  | S754_zero _ => Some 0
  | S754_finite s m e => Some (Z.shiftl (cond_Zopp s (Zpos m)) e)
  | _ => None
  end.

(** The side of a pair that the pair functions treat as low-res, and the
    other one: [x] is the low-res side unless it is the taller. *)
Definition low_res (x y : tensor) : tensor :=
  if shape_h x <=? shape_h y then x else y.

Definition high_res (x y : tensor) : tensor :=
  if shape_h x <=? shape_h y then y else x.

(** The part of a result of a pair function that belongs to the low-res
    side, and the part that belongs to the high-res side. *)
Definition low_part {A} (x y : tensor) (r : A * A) : A :=
  if shape_h x <=? shape_h y then fst r else snd r.

Definition high_part {A} (x y : tensor) (r : A * A) : A :=
  if shape_h x <=? shape_h y then snd r else fst r.

(** The specification's ScaleRatio test, [|r_w - r_h| > 1e-5] with
    [r_h = y.h / x.h] and [r_w = y.w / x.w], on binary64 quotients. *)
Definition ratio_gap_exceeds (x y : tensor) : result bool :=
  r_h <- Py.truediv (shape_h y) (shape_h x) ;;
  r_w <- Py.truediv (shape_w y) (shape_w x) ;;
  Ok (Py.fgt (Py.fabs (Py.fsub r_w r_h)) Py.lit_0_00001).

(** No exception, or one that is not the scale mismatch. *)
Definition no_scale_error {A} (r : result A) : Prop :=
  match r with
  | Raise (UnpredictableScale _ _ _ _) => False
  | _ => True
  end.

(** One iteration of the inner loop of [_pair_split_image]: the checks
    and the two tiles at the low-res offset [(i, j)]. *)
Definition pair_tile (x y : tensor) (crop_h crop_w : Z) (scale_h scale_w : Py.float)
           (i j : Z) : result (tensor * tensor) :=
  _ <- tile_aligned i j crop_h crop_w scale_h scale_w ;;
  yi <- scale_up i scale_h ;;
  yj <- scale_up j scale_w ;;
  yh' <- scale_up crop_h scale_h ;;
  yw' <- scale_up crop_w scale_w ;;
  Ok (NF.crop x i j crop_h crop_w, NF.crop y yi yj yh' yw').

(** The body of the inner loop of [_pair_split_image], by name. *)
Definition pair_body (x y : tensor) (crop_h crop_w : Z) (scale_h scale_w : Py.float)
           (i j : Z) (images : list tensor * list tensor)
  : result (list tensor * list tensor) :=
  let '(x_images, y_images) := images in
  _ <- tile_aligned i j crop_h crop_w scale_h scale_w ;;
  yi <- scale_up i scale_h ;;
  yj <- scale_up j scale_w ;;
  yh' <- scale_up crop_h scale_h ;;
  yw' <- scale_up crop_w scale_w ;;
  Ok (x_images ++ [NF.crop x i j crop_h crop_w],
      y_images ++ [NF.crop y yi yj yh' yw']).

(** [ts] lists, rows first, the tile pairs at the low-res offsets
    [rows] by [cols], every one of them past the checks of [pair_tile]. *)
Definition tiles_of (x y : tensor) (crop_h crop_w : Z) (scale_h scale_w : Py.float)
           (rows cols : list Z) (ts : list (tensor * tensor)) : Prop :=
  map fst ts = flat_map (fun i => map (fun j => NF.crop x i j crop_h crop_w) cols) rows /\
  Forall (fun t => exists i j, In i rows /\ In j cols /\
                     pair_tile x y crop_h crop_w scale_h scale_w i j = Ok t) ts.

(** The columns a loop iterates over when its range is defined. *)
Definition columns (r : result (list Z)) : list Z :=
  match r with
  | Ok cols => cols
  | Raise _ => []
  end.

(** The rational value of a finite float, and the powers of two. *)
Definition pow2 (e : Z) : Q := (2 ^ e)%Q.

Definition F2Q (f : Py.float) : Q :=
  match f with
  | S754_finite s m e => (inject_Z (cond_Zopp s (Zpos m)) * pow2 e)%Q
  | _ => 0%Q
  end.

(** A positive normal binary64 number: 53 significant bits, and an
    exponent of magnitude at most [b]. *)
Definition normal (b : Z) (f : Py.float) : Prop :=
  match f with
  | S754_finite false m e => 2 ^ 52 <= Zpos m < 2 ^ 53 /\ - b <= e <= b
  | _ => False
  end.

(** The relative error of a faithful rounding: one unit in the last place. *)
Definition eps : Q := 1 # (2 ^ 52).

(** A float of sign [sx], or a NaN. *)
Definition signed (sx : bool) (f : Py.float) : Prop :=
  match f with
  | S754_zero s | S754_infinity s | S754_finite s _ _ => s = sx
  | S754_nan => True
  end.

(** A low-res tile and a high-res tile of a pair [lo], [hi] in exact
    correspondence: the two images themselves, or two crops whose rows
    and heights are in the ratio [hi.h / lo.h] and whose columns and
    widths are in the ratio [hi.w / lo.w], the low-res coordinates being
    re-derived from the high-res ones by [int(v * s)]. *)
Definition scaled_tiles (lo hi : tensor) (t_lo t_hi : tensor) : Prop :=
  (t_lo = lo /\ t_hi = hi) \/
  exists i j h w i' j' h' w' s_h s_w,
    t_lo = NF.crop lo i j h w /\ t_hi = NF.crop hi i' j' h' w' /\
    i' * shape_h lo = i * shape_h hi /\ h' * shape_h lo = h * shape_h hi /\
    j' * shape_w lo = j * shape_w hi /\ w' * shape_w lo = w * shape_w hi /\
    Py.truediv (shape_h lo) (shape_h hi) = Ok s_h /\
    Py.truediv (shape_w lo) (shape_w hi) = Ok s_w /\
    scale_down i' s_h = Ok i /\ scale_down h' s_h = Ok h /\
    scale_down j' s_w = Ok j /\ scale_down w' s_w = Ok w.


(** ** Notions of the further properties *)

(** A result with its two components exchanged. *)
Definition swap_result {A B} (r : result (A * B)) : result (B * A) :=
  '(a, b) <- r ;; Ok (b, a).



(** A low-res tile and a high-res tile that are the two images of the
    pair, or two crops that each lie inside their image. *)
Definition tiles_inside (lo hi : tensor) (t_lo t_hi : tensor) : Prop :=
  (t_lo = lo /\ t_hi = hi) \/
  exists i j h w i' j' h' w',
    t_lo = NF.crop lo i j h w /\ t_hi = NF.crop hi i' j' h' w' /\
    0 <= i /\ 0 <= h /\ i + h <= shape_h lo /\
    0 <= j /\ 0 <= w /\ j + w <= shape_w lo /\
    0 <= i' /\ 0 <= h' /\ i' + h' <= shape_h hi /\
    0 <= j' /\ 0 <= w' /\ j' + w' <= shape_w hi.


(** The float [1.0]. *)
Definition float_one : Py.float := S754_finite false 4503599627370496 (-52).





(** The options that pass the three checks at the head of [main]. *)
Definition options_accepted (args : Args.t) : Prop :=
  (Args.split_image args = true -> 0 < Args.max_size args) /\
  (0 < Args.pad_x args \/ 0 < Args.pad_y args -> Args.max_size args <= 0) /\
  (Args.input args = None ->
   Args.pad_x args <= 0 /\ Args.zero_pad_x args = false /\ Args.grayscale_x args = false).

(** A path that [main] takes for a list file. *)
Definition list_file (ext : string) : bool :=
  String.eqb ext ".txt" || String.eqb ext ".csv".

(** The run of [main] from [convert_data] on: its events, and 0 returned
    unless it raises. *)
Definition then_return_0 (c : io unit) : io Z :=
  (fst c, _ <- snd c ;; Ok 0).


(** * Properties *)


(** ** Loops *)

(** A loop that only appends one item per iteration builds the mapped list. *)
Lemma for_each_collect {A B} (f : A -> B) (l : list A) (acc : list B) :
  for_each l (fun a acc => Ok (acc ++ [f a])) acc = Ok (acc ++ map f l).
Proof.
  revert acc; induction l as [|a l IH]; intros acc; simpl.
  - now rewrite app_nil_r.
  - rewrite IH, <- app_assoc. reflexivity.
Qed.

(** Two nested collecting loops build the tiles in row-major order. *)
Lemma for_each_collect_nested {A B C} (f : A -> B -> C) (rows : list A) (cols : list B)
      (acc : list C) :
  for_each rows (fun i acc =>
    for_each cols (fun j acc => Ok (acc ++ [f i j])) acc) acc
  = Ok (acc ++ flat_map (fun i => map (f i) cols) rows).
Proof.
  revert acc; induction rows as [|i rows IH]; intros acc; simpl.
  - now rewrite app_nil_r.
  - rewrite for_each_collect. simpl. rewrite IH, <- app_assoc. reflexivity.
Qed.

(** ** Ranges *)

Lemma range_tile_offsets (dim window stride : Z) :
  0 < stride ->
  Py.range 0 (dim - window + 1) stride = Ok (tile_offsets dim window stride).
Proof.
  intros Hs. unfold Py.range, Py.range_len, tile_offsets.
  destruct (Z.eqb_spec stride 0); [lia|].
  destruct (Z.ltb_spec 0 stride); [|lia].
  replace (dim - window + 1 - 0 + stride - 1) with (dim - window + 1 * stride) by lia.
  rewrite Z.div_add by lia. reflexivity.
Qed.

Lemma tile_offsets_spec (dim window stride i : Z) :
  0 < stride ->
  In i (tile_offsets dim window stride) <->
  exists k, 0 <= k /\ i = k * stride /\ i + window <= dim.
Proof.
  intros Hs. unfold tile_offsets. rewrite in_map_iff. split.
  - intros (k & <- & Hk). apply in_seq in Hk. exists (Z.of_nat k).
    split; [lia|]. split; [reflexivity|].
    assert (Hq : Z.of_nat k <= (dim - window) / stride).
    { destruct (Z_le_gt_dec 0 ((dim - window) / stride + 1)); lia. }
    pose proof (Z.mul_div_le (dim - window) stride Hs). nia.
  - intros (k & Hk & -> & Hle). exists (Z.to_nat k). split; [f_equal; lia|].
    apply in_seq. split; [lia|]. simpl.
    assert (k <= (dim - window) / stride) by (apply Z.div_le_lower_bound; lia).
    lia.
Qed.

(** ** Floor and truncation *)

Lemma shiftl_pos_nonneg (m : positive) (e : Z) : 0 <= Z.shiftl (Zpos m) e.
Proof. apply Z.shiftl_nonneg. lia. Qed.

Lemma shiftl_neg_negative (m : positive) (e : Z) : Z.shiftl (Zneg m) e < 0.
Proof.
  destruct (Z.shiftl_nonneg (Zneg m) e) as [H _].
  destruct (Z_lt_le_dec (Z.shiftl (Zneg m) e) 0); [assumption|].
  specialize (H l). lia.
Qed.

(** On a float whose floor is not negative, [int] is the floor. *)
Lemma int_of_floor (f : Py.float) (z : Z) :
  float_floor f = Some z -> 0 <= z -> Py.int f = Ok z.
Proof.
  destruct f as [s|s| |s m e]; simpl; try discriminate.
  - now intros [= <-].
  - intros [= <-] Hz. destruct s; simpl in *.
    + pose proof (shiftl_neg_negative m e). lia.
    + reflexivity.
Qed.

(** ** C6: [split_image] *)

(** C6.  An image with both dimensions at most [max_size] comes back as
    the only tile.  An image with a dimension above [max_size] is tiled
    with the window [min(h, max_size)] by [min(w, max_size)] and, in each
    dimension, the stride [floor(window * step_rate)] (at least 1), at
    the offsets from 0 up to but not past the dimension minus the window,
    rows first; an offset is in the list exactly when it is a multiple of
    the stride at which the window still fits.  A 300 by 300 image with
    [max_size = 100] and [step_rate = 0.5] gives the 25 tiles of 100 by
    100 at the row and column offsets 0, 50, 100, 150, 200. *)
Theorem split_image_tiles (x : tensor) (max_size : Z) (step_rate : Py.float) :
  let h := shape_h x in
  let w := shape_w x in
  let crop_h := Z.min h max_size in
  let crop_w := Z.min w max_size in
  (h <= max_size /\ w <= max_size -> split_image x max_size step_rate = Ok [x]) /\
  (forall step_h step_w,
     max_size < h \/ max_size < w ->
     float_floor (Py.int_mul crop_h step_rate) = Some step_h ->
     float_floor (Py.int_mul crop_w step_rate) = Some step_w ->
     1 <= step_h -> 1 <= step_w ->
     split_image x max_size step_rate
     = Ok (flat_map (fun i => map (fun j => NF.crop x i j crop_h crop_w)
                                  (tile_offsets w crop_w step_w))
                    (tile_offsets h crop_h step_h)) /\
     (forall i, In i (tile_offsets h crop_h step_h) <->
                exists k, 0 <= k /\ i = k * step_h /\ i + crop_h <= h) /\
     (forall j, In j (tile_offsets w crop_w step_w) <->
                exists k, 0 <= k /\ j = k * step_w /\ j + crop_w <= w)) /\
  (forall name,
     split_image (Decoded name 300 300) 100 Py.lit_0_5
     = Ok (flat_map (fun i => map (fun j => NF.crop (Decoded name 300 300) i j 100 100)
                                  [0; 50; 100; 150; 200])
                    [0; 50; 100; 150; 200])).
Proof.
  intros h w crop_h crop_w. split; [|split].
  - intros [Hh Hw]. unfold split_image. fold h w.
    destruct (Z.ltb_spec max_size h); [lia|].
    destruct (Z.ltb_spec max_size w); [lia|]. reflexivity.
  - intros step_h step_w Hbig Fh Fw Hsh Hsw. split; [|split].
    + unfold split_image. fold h w crop_h crop_w.
      assert (Hc : (max_size <? h) || (max_size <? w) = true).
      { apply orb_true_iff. destruct Hbig; [left|right]; now apply Z.ltb_lt. }
      rewrite Hc.
      rewrite (int_of_floor _ _ Fh) by lia. simpl bind.
      rewrite (int_of_floor _ _ Fw) by lia. simpl bind.
      rewrite range_tile_offsets by lia. simpl bind.
      rewrite range_tile_offsets by lia.
      apply (for_each_collect_nested (fun i j => NF.crop x i j crop_h crop_w)).
    + intros i. apply tile_offsets_spec. lia.
    + intros j. apply tile_offsets_spec. lia.
  - intros name. reflexivity.
Qed.

Lemma split_image_tiles_witness :
  split_image (Decoded "y" 300 50) 100 Py.lit_0_5
  = Ok (map (fun i => NF.crop (Decoded "y" 300 50) i 0 100 50) [0; 50; 100; 150; 200]).
Proof.
  destruct (split_image_tiles (Decoded "y" 300 50) 100 Py.lit_0_5) as (_ & H & _).
  destruct (H 50 25) as (E & _).
  - left. simpl. lia.
  - reflexivity.
  - reflexivity.
  - lia.
  - lia.
  - exact E.
Defined.

(** ** Exceptions that are not the scale mismatch *)

Lemma no_scale_bind {A B} (c : result A) (k : A -> result B) :
  no_scale_error c -> (forall a, no_scale_error (k a)) -> no_scale_error (bind c k).
Proof. destruct c as [a|e]; simpl; auto. Qed.

Lemma no_scale_for_each {A S} (l : list A) (body : A -> S -> result S) (s : S) :
  (forall a s, no_scale_error (body a s)) -> no_scale_error (for_each l body s).
Proof.
  intros Hb. revert s. induction l as [|a l IH]; intros s; simpl; [exact I|].
  apply no_scale_bind; auto.
Qed.

Lemma no_scale_int f : no_scale_error (Py.int f).
Proof. destruct f; exact I. Qed.

Lemma no_scale_fdiv a b : no_scale_error (Py.fdiv a b).
Proof. unfold Py.fdiv. destruct (Py.is_zero b); exact I. Qed.

Lemma no_scale_range a b c : no_scale_error (Py.range a b c).
Proof. unfold Py.range. destruct (c =? 0); exact I. Qed.

Lemma no_scale_assert b : no_scale_error (py_assert b).
Proof. destruct b; exact I. Qed.

Lemma no_scale_scale_up v s : no_scale_error (scale_up v s).
Proof.
  unfold scale_up. apply no_scale_bind; [apply no_scale_fdiv|]. intros; apply no_scale_int.
Qed.

Lemma no_scale_scale_down v s : no_scale_error (scale_down v s).
Proof. apply no_scale_int. Qed.

Lemma no_scale_aligned v s : no_scale_error (aligned v s).
Proof.
  unfold aligned. apply no_scale_bind; [apply no_scale_scale_up|]. intros.
  apply no_scale_bind; [apply no_scale_scale_down|]. intros; exact I.
Qed.

Lemma no_scale_tile_aligned i j ch cw sh sw : no_scale_error (tile_aligned i j ch cw sh sw).
Proof.
  unfold tile_aligned.
  do 3 (apply no_scale_bind; [apply no_scale_aligned|]; intros [|]; [|exact I]).
  apply no_scale_bind; [apply no_scale_aligned|]. intros; apply no_scale_assert.
Qed.

Create HintDb no_scale.

#[local] Hint Resolve no_scale_int no_scale_fdiv no_scale_range no_scale_assert
  no_scale_scale_up no_scale_scale_down no_scale_aligned no_scale_tile_aligned : no_scale.

Ltac no_scale :=
  repeat first
    [ exact I
    | solve [auto with no_scale]
    | apply no_scale_for_each; intros
    | apply no_scale_bind; [solve [auto with no_scale] | intros]
    | match goal with
      | |- no_scale_error (match ?p with (_, _) => _ end) => destruct p
      | |- no_scale_error (if ?b then _ else _) => destruct b
      end ].

(** Past its scale check [_pair_crop_max] raises no scale mismatch. *)
Lemma _pair_crop_max_scale (x y : tensor) (max_size : Z) (s_h s_w : Py.float) :
  Py.truediv (shape_h x) (shape_h y) = Ok s_h ->
  Py.truediv (shape_w x) (shape_w y) = Ok s_w ->
  if Py.fgt (Py.fabs (Py.fsub s_w s_h)) Py.lit_0_00001
  then _pair_crop_max x y max_size
       = Raise (UnpredictableScale (shape_h x) (shape_w x) (shape_h y) (shape_w y))
  else no_scale_error (_pair_crop_max x y max_size).
Proof.
  intros Hh Hw. unfold _pair_crop_max. rewrite Hh, Hw. simpl bind.
  destruct (Py.fgt _ _); [reflexivity|]. no_scale.
Qed.

Lemma _pair_split_image_scale (x y : tensor) (max_size : Z) (step : Py.float)
      (s_h s_w : Py.float) :
  Py.truediv (shape_h x) (shape_h y) = Ok s_h ->
  Py.truediv (shape_w x) (shape_w y) = Ok s_w ->
  if Py.fgt (Py.fabs (Py.fsub s_w s_h)) Py.lit_0_00001
  then _pair_split_image x y max_size step
       = Raise (UnpredictableScale (shape_h x) (shape_w x) (shape_h y) (shape_w y))
  else no_scale_error (_pair_split_image x y max_size step).
Proof.
  intros Hh Hw. unfold _pair_split_image. rewrite Hh, Hw. simpl bind.
  destruct (Py.fgt _ _); [reflexivity|]. no_scale.
Qed.

(** ** C3: the scale check *)

(** C3, as the specification states it, fails: the ratios [y.h / x.h = 1000]
    and [y.w / x.w = 1000.1] of a 10 by 10 input and a 10000 by 10001
    target differ by more than [1e-5], in binary64 and exactly, and both
    pair functions return normally. *)
Lemma ratio_gap_not_rejected :
  let x := Decoded "x" 10 10 in
  let y := Decoded "y" 10000 10001 in
  ratio_gap_exceeds x y = Ok true /\
  (1 # 100000 < Qabs ((10001 # 10) - (10000 # 10)))%Q /\
  pair_crop_max x y 20000 = Ok (x, y) /\
  pair_split_image x y 20000 Py.lit_0_5 = Ok ([x], [y]).
Proof. repeat split. Qed.

(** C3, amended.  The test is on the quotients low-res over high-res,
    [s_h = lo.h / hi.h] and [s_w = lo.w / hi.w] in binary64: when they are
    defined and [|s_w - s_h| > 0.00001], both pair functions raise the
    scale mismatch; when [|s_w - s_h| <= 0.00001], neither raises it. *)
Theorem scale_check (x y : tensor) (max_size : Z) (step : Py.float) (s_h s_w : Py.float) :
  let lo := low_res x y in
  let hi := high_res x y in
  Py.truediv (shape_h lo) (shape_h hi) = Ok s_h ->
  Py.truediv (shape_w lo) (shape_w hi) = Ok s_w ->
  if Py.fgt (Py.fabs (Py.fsub s_w s_h)) Py.lit_0_00001
  then pair_crop_max x y max_size
       = Raise (UnpredictableScale (shape_h lo) (shape_w lo) (shape_h hi) (shape_w hi)) /\
       pair_split_image x y max_size step
       = Raise (UnpredictableScale (shape_h lo) (shape_w lo) (shape_h hi) (shape_w hi))
  else no_scale_error (pair_crop_max x y max_size) /\
       no_scale_error (pair_split_image x y max_size step).
Proof.
  unfold low_res, high_res, pair_crop_max, pair_split_image.
  destruct (shape_h x <=? shape_h y); intros Hh Hw.
  - pose proof (_pair_crop_max_scale _ _ max_size _ _ Hh Hw) as Hc.
    pose proof (_pair_split_image_scale _ _ max_size step _ _ Hh Hw) as Hs.
    destruct (Py.fgt _ _); auto.
  - pose proof (_pair_crop_max_scale _ _ max_size _ _ Hh Hw) as Hc.
    pose proof (_pair_split_image_scale _ _ max_size step _ _ Hh Hw) as Hs.
    destruct (Py.fgt _ _).
    + rewrite Hc, Hs. auto.
    + split.
      * destruct (_pair_crop_max y x max_size) as [[? ?]|[]]; simpl; auto.
      * destruct (_pair_split_image y x max_size step) as [[? ?]|[]]; simpl; auto.
Qed.

Lemma scale_check_witness :
  pair_crop_max (Decoded "x" 100 101) (Decoded "y" 100 100) 50
  = Raise (UnpredictableScale 100 101 100 100) /\
  pair_split_image (Decoded "x" 100 101) (Decoded "y" 100 100) 50 Py.lit_0_5
  = Raise (UnpredictableScale 100 101 100 100).
Proof.
  exact (scale_check (Decoded "x" 100 101) (Decoded "y" 100 100) 50 Py.lit_0_5
           _ _ eq_refl eq_refl).
Defined.

(** ** Stepping through a computation that returned *)

Ltac bind_ok H a E :=
  match type of H with
  | bind ?c _ = Ok _ => destruct c as [a|] eqn:E; [simpl bind in H | discriminate H]
  end.

(** ** C1: [pair_crop_max] *)

(** C1, as the specification states it, fails: for a 256 by 256 input and
    a 1024 by 1024 target with [max_size = 128] the tiles are 32 by 32
    and 128 by 128, not 128 by 128 and 512 by 512. *)
Lemma scenario_B_sizes :
  let x := Decoded "x" 256 256 in
  let y := Decoded "y" 1024 1024 in
  pair_crop_max x y 128 = Ok (NF.crop_ref x 0 0 32 32, NF.crop_ref y 0 0 128 128) /\
  ~ (exists x' y', pair_crop_max x y 128 = Ok (x', y') /\
                   shape_h x' = 128 /\ shape_w x' = 128 /\
                   shape_h y' = 512 /\ shape_w y' = 512).
Proof.
  split; [reflexivity|].
  intros (x' & y' & H & Hh & _). vm_compute in H. injection H as <- <-.
  discriminate Hh.
Qed.

(** What [_pair_crop_max] returns when it returns. *)
Lemma _pair_crop_max_ok (x y : tensor) (max_size : Z) (x' y' : tensor) :
  _pair_crop_max x y max_size = Ok (x', y') ->
  exists s_h s_w lr,
    Py.truediv (shape_h x) (shape_h y) = Ok s_h /\
    Py.truediv (shape_w x) (shape_w y) = Ok s_w /\
    Py.int (Py.int_mul max_size s_h) = Ok lr /\
    let lxh := Z.min (shape_h x) lr in
    let lxw := Z.min (shape_w x) lr in
    (shape_h x <= lr /\ shape_w x <= lr /\ x' = x /\ y' = y
     \/
     (lr < shape_h x \/ lr < shape_w x) /\
     exists lyh lyw,
       scale_up lxh s_h = Ok lyh /\ scale_up lxw s_w = Ok lyw /\
       scale_down lyh s_h = Ok lxh /\ scale_down lyw s_w = Ok lxw /\
       x' = NF.crop_ref x 0 0 lxh lxw /\ y' = NF.crop_ref y 0 0 lyh lyw).
Proof.
  unfold _pair_crop_max. intros H.
  bind_ok H s_h Hh. bind_ok H s_w Hw.
  destruct (Py.fgt _ _); [discriminate|].
  bind_ok H u Ha. bind_ok H lr Hlr.
  exists s_h, s_w, lr. do 3 (split; [first [assumption|reflexivity]|]). cbv zeta.
  destruct (Z.eqb_spec (Z.min (shape_h x) lr) (shape_h x)) as [Eh|Eh];
    [destruct (Z.eqb_spec (Z.min (shape_w x) lr) (shape_w x)) as [Ew|Ew]|]; simpl in H.
  1: { injection H as <- <-. left. repeat split; lia. }
  all: right; (split; [lia|]);
    bind_ok H lyh Hyh; bind_ok H lyw Hyw; bind_ok H bh Hbh;
    destruct (Z.eqb_spec (Z.min (shape_h x) lr) bh); [|discriminate];
    bind_ok H bw Hbw;
    destruct (Z.eqb_spec (Z.min (shape_w x) lr) bw); [|discriminate];
    simpl in H; injection H as <- <-; subst; exists lyh, lyw; repeat split; congruence.
Qed.

(** What [pair_crop_max] returns, by sides. *)
Lemma pair_crop_max_sides (x y : tensor) (max_size : Z) (x' y' : tensor) :
  pair_crop_max x y max_size = Ok (x', y') ->
  _pair_crop_max (low_res x y) (high_res x y) max_size
  = Ok (low_part x y (x', y'), high_part x y (x', y')).
Proof.
  unfold pair_crop_max, low_res, high_res, low_part, high_part.
  destruct (shape_h x <=? shape_h y); [trivial|].
  destruct (_pair_crop_max y x max_size) as [[a b]|]; simpl; [|discriminate].
  now intros [= <- <-].
Qed.

(** C1, amended.  [max_size] bounds the high-res side: with the binary64
    quotient [s_h = lo.h / hi.h], the bound on the low-res side is
    [lr = int(max_size * s_h)].  When [pair_crop_max] returns and neither
    low-res dimension exceeds [lr], both images come back as they are;
    otherwise the low-res image is cropped at the origin to
    [min(lo.h, lr)] by [min(lo.w, lr)] and the high-res image is cropped at
    the origin to [int(lxh / s_h)] by [int(lxw / s_w)].  For a 256 by 256
    input and a 1024 by 1024 target with [max_size = 128] the tiles are
    32 by 32 and 128 by 128. *)
Theorem pair_crop_max_sizes (x y : tensor) (max_size : Z) (x' y' : tensor) :
  let lo := low_res x y in
  let hi := high_res x y in
  let lo' := low_part x y (x', y') in
  let hi' := high_part x y (x', y') in
  (pair_crop_max x y max_size = Ok (x', y') ->
   exists s_h s_w lr,
     Py.truediv (shape_h lo) (shape_h hi) = Ok s_h /\
     Py.truediv (shape_w lo) (shape_w hi) = Ok s_w /\
     Py.int (Py.int_mul max_size s_h) = Ok lr /\
     let lxh := Z.min (shape_h lo) lr in
     let lxw := Z.min (shape_w lo) lr in
     (shape_h lo <= lr /\ shape_w lo <= lr /\ lo' = lo /\ hi' = hi
      \/
      (lr < shape_h lo \/ lr < shape_w lo) /\
      exists lyh lyw,
        scale_up lxh s_h = Ok lyh /\ scale_up lxw s_w = Ok lyw /\
        lo' = NF.crop_ref lo 0 0 lxh lxw /\ hi' = NF.crop_ref hi 0 0 lyh lyw)) /\
  (forall xn yn,
     pair_crop_max (Decoded xn 256 256) (Decoded yn 1024 1024) 128
     = Ok (NF.crop_ref (Decoded xn 256 256) 0 0 32 32,
           NF.crop_ref (Decoded yn 1024 1024) 0 0 128 128)).
Proof.
  intros lo hi lo' hi'. split; [|reflexivity].
  intros H. apply pair_crop_max_sides in H. apply _pair_crop_max_ok in H.
  destruct H as (s_h & s_w & lr & Hh & Hw & Hlr & H). exists s_h, s_w, lr.
  repeat split; try assumption.
  destruct H as [H|(Hbig & lyh & lyw & ? & ? & ? & ? & ? & ?)]; [left; exact H|right].
  split; [exact Hbig|]. exists lyh, lyw. auto.
Qed.

Lemma pair_crop_max_sizes_witness :
  exists s_h s_w lr,
    Py.truediv 3 6 = Ok s_h /\ Py.truediv 3 6 = Ok s_w /\
    Py.int (Py.int_mul 4 s_h) = Ok lr /\
    (3 <= lr /\ 3 <= lr /\
       NF.crop_ref (Decoded "x" 3 3) 0 0 2 2 = Decoded "x" 3 3 /\
       NF.crop_ref (Decoded "y" 6 6) 0 0 4 4 = Decoded "y" 6 6
     \/
     (lr < 3 \/ lr < 3) /\
     exists lyh lyw,
       scale_up (Z.min 3 lr) s_h = Ok lyh /\ scale_up (Z.min 3 lr) s_w = Ok lyw /\
       NF.crop_ref (Decoded "x" 3 3) 0 0 2 2
       = NF.crop_ref (Decoded "x" 3 3) 0 0 (Z.min 3 lr) (Z.min 3 lr) /\
       NF.crop_ref (Decoded "y" 6 6) 0 0 4 4 = NF.crop_ref (Decoded "y" 6 6) 0 0 lyh lyw).
Proof.
  exact (proj1 (pair_crop_max_sizes (Decoded "x" 3 3) (Decoded "y" 6 6) 4
                  (NF.crop_ref (Decoded "x" 3 3) 0 0 2 2)
                  (NF.crop_ref (Decoded "y" 6 6) 0 0 4 4)) eq_refl).
Defined.

(** ** The loops of [_pair_split_image] *)

Section PairLoops.

Variables (x y : tensor) (crop_h crop_w : Z) (scale_h scale_w : Py.float).

Local Abbreviation body := (pair_body x y crop_h crop_w scale_h scale_w).
Local Abbreviation tiles_of := (tiles_of x y crop_h crop_w scale_h scale_w).

Lemma body_pair_tile (i j : Z) (xs ys : list tensor) :
  body i j (xs, ys)
  = t <- pair_tile x y crop_h crop_w scale_h scale_w i j ;;
    Ok (xs ++ [fst t], ys ++ [snd t]).
Proof.
  unfold pair_body, pair_tile.
  destruct (tile_aligned _ _ _ _ _ _); simpl; [|reflexivity].
  destruct (scale_up i scale_h); simpl; [|reflexivity].
  destruct (scale_up j scale_w); simpl; [|reflexivity].
  destruct (scale_up crop_h scale_h); simpl; [|reflexivity].
  destruct (scale_up crop_w scale_w); simpl; reflexivity.
Qed.

Lemma inner_loop_ok (i : Z) (cols : list Z) :
  forall xs0 ys0 xs ys,
    for_each cols (body i) (xs0, ys0) = Ok (xs, ys) ->
    exists ts, xs = xs0 ++ map fst ts /\ ys = ys0 ++ map snd ts /\
               tiles_of [i] cols ts.
Proof.
  induction cols as [|j cols IH]; intros xs0 ys0 xs ys H.
  - injection H as <- <-. exists []. unfold tiles_of. simpl.
    rewrite !app_nil_r. auto.
  - cbn [for_each] in H. rewrite body_pair_tile in H.
    destruct (pair_tile x y crop_h crop_w scale_h scale_w i j) as [t|] eqn:Et;
      [simpl bind in H|discriminate].
    apply IH in H. destruct H as (ts & -> & -> & Hm & Hf).
    exists (t :: ts). simpl. rewrite <- !app_assoc. simpl.
    split; [reflexivity|]. split; [reflexivity|]. split.
    + simpl in *. rewrite app_nil_r in *. rewrite Hm. f_equal.
      unfold pair_tile in Et.
      repeat match type of Et with
             | bind ?c _ = Ok _ => destruct c; [simpl bind in Et|discriminate]
             end.
      now injection Et as <-.
    + constructor.
      * exists i, j. simpl. auto.
      * eapply Forall_impl; [|exact Hf]. simpl.
        intros t' (i' & j' & Hi & Hj & Ht). exists i', j'. auto.
Qed.

Lemma outer_loop_ok (cols_range : result (list Z)) (rows : list Z) :
  forall xs0 ys0 xs ys,
    for_each rows (fun i images =>
      cols <- cols_range ;; for_each cols (body i) images) (xs0, ys0) = Ok (xs, ys) ->
    exists ts,
      xs = xs0 ++ map fst ts /\ ys = ys0 ++ map snd ts /\
      tiles_of rows (columns cols_range) ts /\
      for_each rows (fun i images =>
        cols <- cols_range ;;
        for_each cols (fun j images =>
          Ok (images ++ [NF.crop x i j crop_h crop_w])) images) xs0 = Ok xs.
Proof.
  destruct cols_range as [cols|e].
  - simpl bind. induction rows as [|i rows IH]; intros xs0 ys0 xs ys H.
    + injection H as <- <-. exists []. unfold tiles_of. simpl.
      rewrite !app_nil_r. auto.
    + cbn [for_each] in H.
      destruct (for_each cols (body i) (xs0, ys0)) as [[xs1 ys1]|] eqn:E1;
        [simpl bind in H|discriminate].
      apply inner_loop_ok in E1. destruct E1 as (t1 & -> & -> & Hm1 & Hf1).
      apply IH in H. destruct H as (ts & -> & -> & (Hm & Hf) & Hx).
      exists (t1 ++ ts). rewrite !map_app, <- !app_assoc.
      split; [reflexivity|]. split; [reflexivity|]. split; [split|].
      * simpl in *. rewrite app_nil_r in Hm1. now rewrite map_app, Hm1, Hm.
      * apply Forall_app. split.
        -- eapply Forall_impl; [|exact Hf1]. simpl.
           intros t' (i' & j' & [<-|[]] & Hj & Ht). exists i, j'. auto.
        -- eapply Forall_impl; [|exact Hf]. simpl.
           intros t' (i' & j' & Hi & Hj & Ht). exists i', j'. auto.
      * cbn [for_each]. rewrite for_each_collect. simpl bind.
        simpl in Hm1. rewrite app_nil_r in Hm1. rewrite <- Hm1.
        rewrite app_assoc. exact Hx.
  - intros xs0 ys0 xs ys H. destruct rows as [|i rows]; [|discriminate].
    injection H as <- <-. exists []. unfold tiles_of. simpl.
    rewrite !app_nil_r. auto.
Qed.

End PairLoops.

(** What [_pair_split_image] returns when it returns: the images
    themselves, or the tile pairs of the loops; its low-res tiles are
    those of [split_image] under the low-res bound. *)
Lemma _pair_split_image_ok (x y : tensor) (max_size : Z) (step : Py.float)
      (xs ys : list tensor) :
  _pair_split_image x y max_size step = Ok (xs, ys) ->
  exists s_h s_w lr,
    Py.truediv (shape_h x) (shape_h y) = Ok s_h /\
    Py.truediv (shape_w x) (shape_w y) = Ok s_w /\
    Py.int (Py.int_mul max_size s_h) = Ok lr /\
    split_image x lr step = Ok xs /\
    let crop_h := Z.min (shape_h x) lr in
    let crop_w := Z.min (shape_w x) lr in
    (shape_h x <= lr /\ shape_w x <= lr /\ xs = [x] /\ ys = [y]
     \/
     (lr < shape_h x \/ lr < shape_w x) /\
     exists step_h step_w rows ts,
       Py.int (Py.int_mul crop_h step) = Ok step_h /\
       Py.int (Py.int_mul crop_w step) = Ok step_w /\
       Py.range 0 (shape_h x - crop_h + 1) step_h = Ok rows /\
       xs = map fst ts /\ ys = map snd ts /\
       tiles_of x y crop_h crop_w s_h s_w rows
                (columns (Py.range 0 (shape_w x - crop_w + 1) step_w)) ts).
Proof.
  unfold _pair_split_image. intros H.
  bind_ok H s_h Hh. bind_ok H s_w Hw.
  destruct (Py.fgt _ _); [discriminate|].
  bind_ok H u Ha. bind_ok H lr Hlr.
  exists s_h, s_w, lr. do 3 (split; [first [assumption|reflexivity]|]).
  unfold split_image. cbv zeta.
  destruct (Z.eqb_spec (shape_h x) (Z.min (shape_h x) lr)) as [Eh|Eh];
    [destruct (Z.eqb_spec (shape_w x) (Z.min (shape_w x) lr)) as [Ew|Ew]|]; simpl in H.
  1: { injection H as <- <-.
       destruct (Z.ltb_spec lr (shape_h x)); [lia|].
       destruct (Z.ltb_spec lr (shape_w x)); [lia|]. simpl.
       split; [reflexivity|]. left. repeat split; lia. }
  all: assert (Hc : (lr <? shape_h x) || (lr <? shape_w x) = true)
    by (apply orb_true_iff; rewrite !Z.ltb_lt; lia);
    rewrite Hc;
    bind_ok H step_h Hsh; bind_ok H step_w Hsw; bind_ok H rows Hrows; simpl bind;
    rewrite ?Hrows; simpl bind;
    apply (outer_loop_ok x y _ _ s_h s_w) in H;
    destruct H as (ts & -> & -> & Ht & Hx); simpl in *;
    (split; [exact Hx|]); right; (split; [lia|]);
    exists step_h, step_w, rows, ts; auto 10.
Qed.

(** What [pair_split_image] returns, by sides. *)
Lemma pair_split_image_sides (x y : tensor) (max_size : Z) (step : Py.float)
      (xs ys : list tensor) :
  pair_split_image x y max_size step = Ok (xs, ys) ->
  _pair_split_image (low_res x y) (high_res x y) max_size step
  = Ok (low_part x y (xs, ys), high_part x y (xs, ys)).
Proof.
  unfold pair_split_image, low_res, high_res, low_part, high_part.
  destruct (shape_h x <=? shape_h y); [trivial|].
  destruct (_pair_split_image y x max_size step) as [[a b]|]; simpl; [|discriminate].
  now intros [= <- <-].
Qed.

(** ** C2: the low-res tiles *)

(** C2, as the specification states it, fails: for a 4 by 4 input and an
    8 by 8 target with [max_size = 4] and [step_rate = 0.5],
    [pair_split_image] cuts the input into nine 2 by 2 tiles, and
    [split_image] with the same [max_size] and [step_rate] returns the
    input whole. *)
Lemma low_tiles_differ :
  let x := Decoded "x" 4 4 in
  let y := Decoded "y" 8 8 in
  exists xs ys,
    pair_split_image x y 4 Py.lit_0_5 = Ok (xs, ys) /\
    List.length xs = 9%nat /\
    split_image x 4 Py.lit_0_5 = Ok [x] /\
    split_image x 4 Py.lit_0_5 <> Ok xs.
Proof.
  eexists; eexists. split; [vm_compute; reflexivity|].
  split; [reflexivity|]. split; [reflexivity|]. discriminate.
Qed.

(** C2, amended.  When [pair_split_image] returns, its low-res tiles are
    the tiles that [split_image] produces from the low-res image with the
    same [step_rate] and, in place of [max_size], the low-res bound
    [int(max_size * s_h)], where [s_h = lo.h / hi.h] in binary64. *)
Theorem low_tiles_as_split_image (x y : tensor) (max_size : Z) (step : Py.float)
        (xs ys : list tensor) :
  pair_split_image x y max_size step = Ok (xs, ys) ->
  exists s_h lr,
    Py.truediv (shape_h (low_res x y)) (shape_h (high_res x y)) = Ok s_h /\
    Py.int (Py.int_mul max_size s_h) = Ok lr /\
    split_image (low_res x y) lr step = Ok (low_part x y (xs, ys)).
Proof.
  intros H. apply pair_split_image_sides, _pair_split_image_ok in H.
  destruct H as (s_h & s_w & lr & Hh & _ & Hlr & Hs & _).
  exists s_h, lr. auto.
Qed.

Lemma low_tiles_as_split_image_witness :
  exists s_h lr,
    Py.truediv 4 8 = Ok s_h /\
    Py.int (Py.int_mul 4 s_h) = Ok lr /\
    split_image (Decoded "x" 4 4) lr Py.lit_0_5
    = Ok (flat_map (fun i => map (fun j => NF.crop (Decoded "x" 4 4) i j 2 2) [0; 1; 2])
                   [0; 1; 2]).
Proof.
  apply (low_tiles_as_split_image (Decoded "x" 4 4) (Decoded "y" 8 8) 4 Py.lit_0_5
           (flat_map (fun i => map (fun j => NF.crop (Decoded "x" 4 4) i j 2 2) [0; 1; 2])
                     [0; 1; 2])
           (flat_map (fun i => map (fun j => NF.crop (Decoded "y" 8 8) i j 4 4) [0; 2; 4])
                     [0; 2; 4])).
  vm_compute. reflexivity.
Defined.

(** ** The key indexer and the pipeline *)

Lemma dict_get_keys {V} (k : string) (d : dict V) :
  In k (dict_keys d) -> exists v, dict_get k d = Some v.
Proof.
  induction d as [|[k' v'] d IH]; simpl; [intros []|].
  intros [<-|Hin].
  - rewrite String.eqb_refl. eauto.
  - destruct (String.eqb k k'); eauto.
Qed.

Lemma io_bind_lift_ok {A B} (a : A) (k : A -> io B) :
  io_bind (lift (Ok a)) k = k a.
Proof. unfold io_bind, lift. destruct (k a). reflexivity. Qed.

Section PipelineProperties.

Variable filename2key : string -> bool -> string.
Variable use_subdir_default : bool.
Variable listdir : string -> list string.
Variable image_loader : string -> pil_image * meta.
Variable csv_reader : string -> list (list string).
Variable path_isdir : string -> bool.
Variable path_exists : string -> bool.
Variable path_ext : string -> string.

Local Abbreviation load := (load_side filename2key listdir csv_reader path_isdir path_ext).
Local Abbreviation run :=
(main filename2key use_subdir_default listdir image_loader csv_reader
      path_isdir path_exists path_ext).
Local Abbreviation pair_step := (convert_pair filename2key use_subdir_default).
Local Abbreviation loop := (convert_loop filename2key use_subdir_default).

(** The validation loop of [main] stops at the first key of the target
  side that the input side lacks. *)
Lemma validate_missing (x_data y_data : dict entry) (keys : list string) :
forall data : dict sample,
  (forall k, In k keys -> In k (dict_keys y_data)) ->
  (exists k, In k keys /\ dict_mem k x_data = false) ->
  exists k, In k keys /\ dict_mem k x_data = false /\
    for_each keys (fun y_key data =>
      x_data <- bound "x_data" (Some x_data) ;;
      if dict_mem y_key x_data then
        x_entry <- getitem x_data y_key ;;
        y_entry <- getitem y_data y_key ;;
        Ok (dict_set y_key {| sample_x := Some x_entry; sample_y := y_entry |} data)
      else Raise (RuntimeError (y_key ++ " does not exist on --x side")%string)) data
    = Raise (RuntimeError (k ++ " does not exist on --x side")%string).
Proof.
induction keys as [|k0 keys IH]; intros data Hy (k & Hin & Hk); [destruct Hin|].
cbn [for_each]. simpl bind. destruct (dict_mem k0 x_data) eqn:E0.
- destruct Hin as [->|Hin]; [congruence|].
  unfold getitem. unfold dict_mem in E0.
  destruct (dict_get k0 x_data) as [xe|]; [|discriminate].
  destruct (dict_get_keys k0 y_data (Hy k0 (or_introl eq_refl))) as (ye & ->).
  simpl bind.
  destruct (IH (dict_set k0 {| sample_x := Some xe; sample_y := ye |} data))
    as (k' & Hin' & Hk' & Hr).
  + intros; apply Hy; now right.
  + eauto.
  + exists k'. simpl. auto.
- exists k0. simpl. auto.
Qed.

(** ** C7: a missing pair *)

(** C7.  When the options pass the checks of [main], both sides load,
  and some key of the target side is not a key of the input side, the
  run raises the [RuntimeError] that names such a key, and nothing has
  happened before it: no directory made or removed, no tile computed or
  submitted. *)
Theorem missing_pair_fails_first (args : Args.t) (input : string)
      (x_data y_data : dict entry) (key : string) :
Args.input args = Some input ->
Args.split_image args && negb (0 <? Args.max_size args) = false ->
((0 <? Args.pad_x args) || (0 <? Args.pad_y args)) && (0 <? Args.max_size args) = false ->
load (Args.target args) = Ok (Some y_data) ->
load input = Ok (Some x_data) ->
In key (dict_keys y_data) ->
dict_mem key x_data = false ->
exists k,
  In k (dict_keys y_data) /\ dict_mem k x_data = false /\
  run args = ([], Raise (RuntimeError (k ++ " does not exist on --x side")%string)).
Proof.
intros Hin Hc1 Hc2 Hy Hx Hk Hm.
destruct (validate_missing x_data y_data (dict_keys y_data) []) as (k & Hk1 & Hk2 & Hr);
  [auto|eauto|].
exists k. split; [assumption|]. split; [assumption|].
unfold main. rewrite Hc1, Hc2, Hin, Hy. rewrite !io_bind_lift_ok.
rewrite Hx. rewrite !io_bind_lift_ok. unfold bound at 1. rewrite io_bind_lift_ok.
rewrite Hr. reflexivity.
Qed.

(** ** C8: transparent images *)

(** C8.  A pair whose target carries an alpha channel, or whose input
  carries one while the keys of the two file names agree, is skipped:
  the body of the loop writes the diagnostic, submits nothing and ends
  normally, and the loop goes on with the pairs that follow. *)
Theorem alpha_pair_skipped (args : Args.t) (input_dir target_dir : string)
      (x_item : option (pil_image * meta)) (y_im : pil_image) (y_meta : meta)
      (rest : list (option (pil_image * meta) * (pil_image * meta))) :
alpha y_meta = true \/
(exists x_im x_meta,
    x_item = Some (x_im, x_meta) /\ alpha x_meta = true /\
    filename2key (filename x_meta) use_subdir_default
    = filename2key (filename y_meta) use_subdir_default) ->
exists name,
  pair_step args input_dir target_dir x_item (y_im, y_meta)
  = ([Stdout (skip_message name)], Ok tt) /\
  loop args input_dir target_dir ((x_item, (y_im, y_meta)) :: rest)
  = (Stdout (skip_message name) :: fst (loop args input_dir target_dir rest),
     snd (loop args input_dir target_dir rest)).
Proof.
intros H.
assert (Hp : exists name, pair_step args input_dir target_dir x_item (y_im, y_meta)
                          = ([Stdout (skip_message name)], Ok tt)).
{ unfold convert_pair. destruct (alpha y_meta) eqn:Ey.
  - exists (filename y_meta). reflexivity.
  - destruct H as [H|(x_im & x_meta & -> & Ex & Ek)]; [discriminate|].
    exists (filename x_meta). rewrite Ek, String.eqb_refl, Ex. reflexivity. }
destruct Hp as (name & Hp). exists name. split; [exact Hp|].
unfold convert_loop. cbn [io_for_each]. rewrite Hp. simpl.
destruct (io_for_each rest _) as [t r]. reflexivity.
Qed.

(** ** C9: the delimited list file *)

(** C9.  On a list file with at least one row, [load_files_from_csv]
  raises at the first row: a row is a [list], and [row.values] is not
  an attribute of a [list]. *)
Theorem load_files_from_csv_raises (txt : string) (row : list string)
      (rows : list (list string)) :
load_files_from_csv filename2key (fun _ => row :: rows) txt
= Raise (AttributeError "list" "values").
Proof. reflexivity. Qed.

End PipelineProperties.

Lemma missing_pair_fails_first_witness :
  let key := fun (s : string) (_ : bool) => s in
  let listdir := fun d : string => if String.eqb d "in" then ["b.png"] else ["a.png"; "b.png"] in
  let loader := fun f : string =>
    ({| im_name := f; im_h := 1000; im_w := 500 |}, {| filename := f; alpha := false |}) in
  let args := {| Args.input := Some "in"; Args.target := "target"; Args.data_dir := "out";
                 Args.max_size := 0; Args.split_image := false;
                 Args.split_step := Py.lit_0_5; Args.pad_x := 0; Args.pad_y := 0;
                 Args.zero_pad_x := false; Args.zero_pad_y := false;
                 Args.grayscale_x := false; Args.grayscale_y := false |} in
  exists k,
    In k ["a.png"; "b.png"] /\
    dict_mem k [("b.png", {| src := "b.png"; options := [] |})] = false /\
    main key false listdir loader (fun _ => []) (fun _ => true) (fun _ => false)
         (fun _ => "") args
    = ([], Raise (RuntimeError (k ++ " does not exist on --x side")%string)).
Proof.
  intros key listdir loader args.
  exact (missing_pair_fails_first key false listdir loader (fun _ => []) (fun _ => true)
           (fun _ => false) (fun _ => "") args "in" _ _ "a.png"
           eq_refl eq_refl eq_refl eq_refl eq_refl (or_introl eq_refl) eq_refl).
Defined.

Lemma alpha_pair_skipped_witness :
  let key := fun (s : string) (_ : bool) => s in
  let args := {| Args.input := Some "in"; Args.target := "target"; Args.data_dir := "out";
                 Args.max_size := 0; Args.split_image := false;
                 Args.split_step := Py.lit_0_5; Args.pad_x := 0; Args.pad_y := 0;
                 Args.zero_pad_x := false; Args.zero_pad_y := false;
                 Args.grayscale_x := false; Args.grayscale_y := false |} in
  let x_item := ({| im_name := "a.png"; im_h := 2; im_w := 2 |},
                 {| filename := "a.png"; alpha := true |}) in
  let y_item := ({| im_name := "a.png"; im_h := 4; im_w := 4 |},
                 {| filename := "a.png"; alpha := false |}) in
  exists name,
    convert_pair key false args "out/x" "out/y" (Some x_item) y_item
    = ([Stdout (skip_message name)], Ok tt) /\
    convert_loop key false args "out/x" "out/y" [(Some x_item, y_item)]
    = ([Stdout (skip_message name)], Ok tt).
Proof.
  intros key args x_item y_item.
  exact (alpha_pair_skipped key false args "out/x" "out/y" (Some x_item) (fst y_item)
           (snd y_item) []
           (or_intror (ex_intro _ (fst x_item) (ex_intro _ (snd x_item)
              (conj eq_refl (conj eq_refl eq_refl)))))).
Defined.

(** ** Binary64 rounding *)

Module Rounding.

Import Py.

Local Abbreviation fexp := (SpecFloat.fexp prec emax).
Local Abbreviation emin := (SpecFloat.emin prec emax).

Lemma digits2_size (p : positive) : digits2_pos p = Pos.size p.
Proof. induction p; simpl; congruence. Qed.

(** The number of binary digits brackets the number. *)
Lemma digits2_bounds (p : positive) :
  2 ^ (Zpos (digits2_pos p) - 1) <= Zpos p < 2 ^ Zpos (digits2_pos p).
Proof.
  rewrite digits2_size. split.
  - pose proof (Pos.size_le p) as H.
    assert (H' : 2 ^ Zpos (Pos.size p) <= 2 * Zpos p).
    { rewrite <- Pos2Z.inj_pow. change (2 * Zpos p) with (Zpos p~0).
      apply Pos2Z.pos_le_pos. exact H. }
    replace (Zpos (Pos.size p)) with (Zpos (Pos.size p) - 1 + 1) in H' by lia.
    rewrite Z.pow_add_r in H' by lia. lia.
  - pose proof (Pos.size_gt p) as H. rewrite <- Pos2Z.inj_pow.
    apply Pos2Z.pos_lt_pos. exact H.
Qed.

Lemma digits2_unique (p : positive) (d : Z) :
  2 ^ (d - 1) <= Zpos p < 2 ^ d -> Zpos (digits2_pos p) = d.
Proof.
  intros [Hl Hu]. pose proof (digits2_bounds p) as [Bl Bu].
  set (k := Zpos (digits2_pos p)) in *.
  assert (0 < d).
  { destruct (Z_lt_le_dec 0 d); [assumption|].
    assert (2 ^ d <= 2 ^ 0) by (destruct (Z_lt_le_dec d 0);
      [rewrite Z.pow_neg_r by lia; simpl; lia | apply Z.pow_le_mono_r; lia]).
    simpl in *. lia. }
  destruct (Z.lt_trichotomy k d) as [Hlt|[Heq|Hgt]]; [|assumption|].
  - assert (2 ^ k <= 2 ^ (d - 1)) by (apply Z.pow_le_mono_r; lia). lia.
  - assert (2 ^ d <= 2 ^ (k - 1)) by (apply Z.pow_le_mono_r; lia). lia.
Qed.

Lemma pow2_xO (p : positive) : 2 ^ Zpos p~0 = 2 ^ Zpos p * 2 ^ Zpos p.
Proof. rewrite <- Z.pow_add_r by lia. f_equal. lia. Qed.

Lemma pow2_xI (p : positive) : 2 ^ Zpos p~1 = 2 * (2 ^ Zpos p * 2 ^ Zpos p).
Proof. rewrite <- Z.pow_add_r, <- Z.pow_succ_r by lia. f_equal; lia. Qed.

Lemma shr_1_m (mrs : shr_record) :
  0 <= shr_m mrs -> shr_m (shr_1 mrs) = shr_m mrs / 2.
Proof.
  destruct mrs as [m r s]. simpl. intros Hm.
  destruct m as [|[p|p|]|p]; simpl; try reflexivity; try lia.
  - rewrite Pos2Z.inj_xI. rewrite Z.mul_comm, Z.div_add_l by lia.
    change (1 / 2) with 0. lia.
  - rewrite Pos2Z.inj_xO. rewrite Z.mul_comm, Z.div_mul by lia. reflexivity.
Qed.

Lemma iter_shr_1_m (p : positive) :
  forall mrs, 0 <= shr_m mrs ->
    shr_m (SpecFloat.iter_pos shr_1 p mrs) = shr_m mrs / 2 ^ Zpos p.
Proof.
  induction p as [p IH|p IH|]; intros mrs Hm; simpl SpecFloat.iter_pos.
  - assert (H1 : 0 <= shr_m (shr_1 mrs)).
    { rewrite shr_1_m by assumption. apply Z.div_pos; lia. }
    assert (H2 : 0 <= shr_m (SpecFloat.iter_pos shr_1 p (shr_1 mrs))).
    { rewrite IH by assumption. apply Z.div_pos; [assumption|]. apply Z.pow_pos_nonneg; lia. }
    rewrite IH, IH, shr_1_m by assumption.
    rewrite !Z.div_div by (try apply Z.pow_pos_nonneg; lia).
    f_equal. symmetry. apply pow2_xI.
  - assert (H2 : 0 <= shr_m (SpecFloat.iter_pos shr_1 p mrs)).
    { rewrite IH by assumption. apply Z.div_pos; [assumption|]. apply Z.pow_pos_nonneg; lia. }
    rewrite IH, IH by assumption.
    rewrite !Z.div_div by (try apply Z.pow_pos_nonneg; lia).
    f_equal. symmetry. apply pow2_xO.
  - rewrite shr_1_m by assumption. reflexivity.
Qed.

(** [shr] divides the mantissa by a power of two and moves the exponent. *)
Lemma shr_m_e (mrs : shr_record) (e n : Z) :
  0 <= shr_m mrs ->
  shr_m (fst (shr mrs e n)) = shr_m mrs / 2 ^ Z.max 0 n /\
  snd (shr mrs e n) = e + Z.max 0 n.
Proof.
  intros Hm. destruct n as [|p|p]; simpl.
  - rewrite Z.div_1_r. split; [reflexivity|lia].
  - split; [apply iter_shr_1_m; assumption|reflexivity].
  - rewrite Z.div_1_r. split; [reflexivity|lia].
Qed.

Lemma shr_record_of_loc_m (m : Z) (l : location) : shr_m (shr_record_of_loc m l) = m.
Proof. destruct l as [|[| |]]; reflexivity. Qed.

Lemma round_nearest_even_bounds (m : Z) (l : location) :
  m <= round_nearest_even m l <= m + 1.
Proof. destruct l as [|[| |]]; simpl; try destruct (Z.even m); lia. Qed.

(** [binary_round_aux] unfolded: the mantissa is divided by [2 ^ N] to
    fit the precision, rounded to one of its two neighbours, and, when the
    rounding carried into one more digit, divided once more. *)
Lemma binary_round_aux_eq (sx : bool) (mx : positive) (ex : Z) (lx : location) :
  let N := Z.max 0 (fexp (Zpos (digits2_pos mx) + ex) - ex) in
  let e1 := ex + N in
  let m1 := Zpos mx / 2 ^ N in
  exists m2,
    m1 <= m2 <= m1 + 1 /\
    (lx = loc_Exact -> N = 0 -> m2 = Zpos mx) /\
    let n2 := Z.max 0 (fexp (Zdigits2 m2 + e1) - e1) in
    binary_round_aux prec emax sx (Zpos mx) ex lx
    = match m2 / 2 ^ n2 with
      | Z0 => S754_zero sx
      | Zpos m => if e1 + n2 <=? emax - prec then S754_finite sx m (e1 + n2)
                  else S754_infinity sx
      | Zneg _ => S754_nan
      end.
Proof.
  intros N e1 m1. unfold binary_round_aux, shr_fexp.
  change (Zdigits2 (Zpos mx)) with (Zpos (digits2_pos mx)).
  pose proof (shr_m_e (shr_record_of_loc (Zpos mx) lx) ex
                (fexp (Zpos (digits2_pos mx) + ex) - ex)) as H1.
  rewrite shr_record_of_loc_m in H1. specialize (H1 ltac:(lia)).
  destruct (shr (shr_record_of_loc (Zpos mx) lx) ex _) as [mrs' e'] eqn:E1.
  simpl fst in H1; simpl snd in H1. destruct H1 as [Hm1 He1].
  fold N in Hm1, He1. fold e1 in He1. fold m1 in Hm1. subst e'.
  set (m2 := round_nearest_even (shr_m mrs') (loc_of_shr_record mrs')).
  exists m2. split; [|split].
  - rewrite <- Hm1. apply round_nearest_even_bounds.
  - intros -> HN. unfold m2.
    assert (Hn : fexp (Zpos (digits2_pos mx) + ex) - ex <= 0) by (unfold N in HN; lia).
    destruct (fexp (Zpos (digits2_pos mx) + ex) - ex) as [|p|p]; simpl in E1;
      try lia; injection E1 as <-; reflexivity.
  - assert (Hm2 : 0 <= m2).
    { pose proof (round_nearest_even_bounds (shr_m mrs') (loc_of_shr_record mrs')).
      fold m2 in H. rewrite Hm1 in H.
      assert (0 <= m1) by (apply Z.div_pos; [lia|apply Z.pow_pos_nonneg; lia]). lia. }
    cbv zeta.
    pose proof (shr_m_e (shr_record_of_loc m2 loc_Exact) e1
                  (fexp (Zdigits2 m2 + e1) - e1)) as H2.
    rewrite shr_record_of_loc_m in H2. specialize (H2 Hm2).
    destruct (shr (shr_record_of_loc m2 loc_Exact) e1 _) as [mrs'' e''] eqn:E2.
    simpl fst in H2; simpl snd in H2. destruct H2 as [Hm3 He3].
    rewrite Hm3, He3. reflexivity.
Qed.

Lemma pow2_pos (e : Z) : (0 < pow2 e)%Q.
Proof. apply Qpower_0_lt. reflexivity. Qed.

Lemma pow2_add (a b : Z) : (pow2 (a + b) == pow2 a * pow2 b)%Q.
Proof. apply Qpower_plus. discriminate. Qed.

Lemma pow2_Z (e : Z) : 0 <= e -> (pow2 e == inject_Z (2 ^ e))%Q.
Proof. intros He. unfold pow2. rewrite Zpower_Qpower by assumption. reflexivity. Qed.

(** Moving a power of two between mantissa and exponent. *)
Lemma scaled_value (m e0 n : Z) :
  0 <= n -> (inject_Z (m * 2 ^ n) * pow2 e0 == inject_Z m * pow2 (e0 + n))%Q.
Proof.
  intros Hn. rewrite inject_Z_mult, <- pow2_Z by assumption.
  rewrite pow2_add. ring.
Qed.

Lemma fexp_normal (x : Z) : -1021 <= x -> fexp x = x - 53.
Proof. intros Hx. unfold SpecFloat.fexp, SpecFloat.emin, prec, emax. lia. Qed.

Lemma Zdigits2_unique (m d : Z) : 2 ^ (d - 1) <= m < 2 ^ d -> 0 < m -> Zdigits2 m = d.
Proof.
  intros H Hm. destruct m as [|p|p]; try lia. simpl. now apply digits2_unique.
Qed.

(** The mantissa cut down to 53 bits. *)
Lemma cut_mantissa (mx : positive) :
  let d := Zpos (digits2_pos mx) in
  53 <= d ->
  let m1 := Zpos mx / 2 ^ (d - 53) in
  2 ^ 52 <= m1 < 2 ^ 53 /\
  m1 * 2 ^ (d - 53) <= Zpos mx /\ Zpos mx + 1 <= (m1 + 1) * 2 ^ (d - 53).
Proof.
  intros d Hd m1. pose proof (digits2_bounds mx) as [Bl Bu]. fold d in Bl, Bu.
  assert (Hp : 0 < 2 ^ (d - 53)) by (apply Z.pow_pos_nonneg; lia).
  assert (E1 : 2 ^ (d - 1) = 2 ^ 52 * 2 ^ (d - 53))
    by (rewrite <- Z.pow_add_r by lia; f_equal; lia).
  assert (E2 : 2 ^ d = 2 ^ 53 * 2 ^ (d - 53))
    by (rewrite <- Z.pow_add_r by lia; f_equal; lia).
  pose proof (Z.mul_div_le (Zpos mx) (2 ^ (d - 53)) Hp) as Hle.
  pose proof (Z.mul_succ_div_gt (Zpos mx) (2 ^ (d - 53)) Hp) as Hgt.
  fold m1 in Hle, Hgt. unfold Z.succ in Hgt.
  repeat split.
  - apply Z.div_le_lower_bound; lia.
  - apply Z.div_lt_upper_bound; lia.
  - lia.
  - lia.
Qed.

(** Rounding in the normal range is faithful: a mantissa of at least 53
    bits, with any location, rounds to a normal float within one unit in
    the last place of every value of its cell. *)
Lemma round_normal (sx : bool) (mx : positive) (ex : Z) (lx : location) (V : Q) :
  let d := Zpos (digits2_pos mx) in
  53 <= d -> -600 <= ex -> d + ex <= 600 ->
  (inject_Z (Zpos mx) * pow2 ex <= V)%Q ->
  (V <= inject_Z (Zpos mx + 1) * pow2 ex)%Q ->
  exists m e,
    binary_round_aux prec emax sx (Zpos mx) ex lx = S754_finite sx m e /\
    2 ^ 52 <= Zpos m < 2 ^ 53 /\
    d + ex - 53 <= e <= d + ex - 52 /\
    (V * (1 - eps) <= inject_Z (Zpos m) * pow2 e)%Q /\
    (inject_Z (Zpos m) * pow2 e <= V * (1 + eps))%Q.
Proof.
  intros d Hd Hex Hdex Vl Vu.
  destruct (binary_round_aux_eq sx mx ex lx) as (m2 & Hm2 & _ & Hr).
  fold d in Hm2, Hr. cbv zeta in Hm2, Hr.
  rewrite (fexp_normal (d + ex)) in Hm2, Hr by lia.
  replace (Z.max 0 (d + ex - 53 - ex)) with (d - 53) in Hm2, Hr by lia.
  destruct (cut_mantissa mx Hd) as (Hm1 & Hlo & Hhi). fold d in Hm1, Hlo, Hhi.
  cbv zeta in Hm1, Hlo, Hhi.
  set (m1 := Zpos mx / 2 ^ (d - 53)) in *.
  set (e1 := ex + (d - 53)) in *.
  set (u := pow2 e1).
  assert (Hu : (0 < u)%Q) by apply pow2_pos.
  (* the cell of [V] on the grid of [u] *)
  assert (Vl' : (inject_Z m1 * u <= V)%Q).
  { eapply Qle_trans; [|exact Vl]. unfold u, e1.
    rewrite <- scaled_value by lia.
    apply Qmult_le_compat_r; [|apply Qlt_le_weak, pow2_pos].
    rewrite <- Zle_Qle. exact Hlo. }
  assert (Vu' : (V <= inject_Z (m1 + 1) * u)%Q).
  { eapply Qle_trans; [exact Vu|]. unfold u, e1.
    rewrite <- scaled_value by lia.
    apply Qmult_le_compat_r; [|apply Qlt_le_weak, pow2_pos].
    rewrite <- Zle_Qle. exact Hhi. }
  assert (Hue : (u <= V * eps)%Q).
  { assert (H52 : (inject_Z (2 ^ 52) * u <= V)%Q).
    { eapply Qle_trans; [|exact Vl'].
      apply Qmult_le_compat_r; [|apply Qlt_le_weak, Hu].
      rewrite <- Zle_Qle. lia. }
    unfold eps. change (inject_Z (2 ^ 52)) with (4503599627370496 # 1)%Q in H52.
    change (1 # 2 ^ 52)%Q with (1 # 4503599627370496)%Q. lra. }
  (* the rounded value is [m2 * u] *)
  assert (Hval : exists m e,
             binary_round_aux prec emax sx (Zpos mx) ex lx = S754_finite sx m e /\
             2 ^ 52 <= Zpos m < 2 ^ 53 /\ e1 <= e <= e1 + 1 /\
             (inject_Z (Zpos m) * pow2 e == inject_Z m2 * u)%Q).
  { destruct (Z.eq_dec m2 (2 ^ 53)) as [E|E].
    - rewrite E in Hr. rewrite (Zdigits2_unique (2 ^ 53) 54) in Hr by (simpl; lia).
      rewrite (fexp_normal (54 + e1)) in Hr by (unfold e1; lia).
      replace (Z.max 0 (54 + e1 - 53 - e1)) with 1 in Hr by lia.
      change (2 ^ 53 / 2 ^ 1) with (Zpos (Z.to_pos (2 ^ 52))) in Hr.
      destruct (Z.leb_spec (e1 + 1) (emax - prec));
        [|unfold emax, prec, e1 in *; lia].
      eexists; eexists. split; [exact Hr|]. split; [simpl; lia|]. split; [lia|].
      rewrite E. unfold u. change (2 ^ 53) with (2 ^ 52 * 2 ^ 1).
      rewrite <- (scaled_value (2 ^ 52) e1 1) by lia. reflexivity.
    - assert (H2 : 2 ^ 52 <= m2 < 2 ^ 53) by lia.
      rewrite (Zdigits2_unique m2 53) in Hr by (simpl; lia).
      rewrite (fexp_normal (53 + e1)) in Hr by (unfold e1; lia).
      replace (Z.max 0 (53 + e1 - 53 - e1)) with 0 in Hr by lia.
      rewrite Z.pow_0_r, Z.div_1_r, Z.add_0_r in Hr.
      destruct m2 as [|p2|p2]; try (simpl in H2; lia).
      destruct (Z.leb_spec e1 (emax - prec));
        [|unfold emax, prec, e1 in *; lia].
      exists p2, e1. split; [exact Hr|]. split; [exact H2|]. split; [lia|].
      reflexivity. }
  destruct Hval as (m & e & Hr' & Hm & He & Hv).
  exists m, e. split; [exact Hr'|]. split; [exact Hm|]. split; [unfold e1 in He; lia|].
  rewrite Hv.
  assert (Hm2l : (inject_Z m1 * u <= inject_Z m2 * u)%Q).
  { apply Qmult_le_compat_r; [|apply Qlt_le_weak, Hu]. rewrite <- Zle_Qle. lia. }
  assert (Hm2u : (inject_Z m2 * u <= inject_Z (m1 + 1) * u)%Q).
  { apply Qmult_le_compat_r; [|apply Qlt_le_weak, Hu]. rewrite <- Zle_Qle. lia. }
  rewrite inject_Z_plus in Vu', Hm2u.
  change (inject_Z 1) with 1%Q in Vu', Hm2u.
  split; lra.
Qed.

Lemma normal_positive (b : Z) (f : float) : normal b f -> (0 < F2Q f)%Q.
Proof.
  destruct f as [| | |[|] m e]; simpl; try tauto. intros _.
  apply Qmult_lt_0_compat; [reflexivity|apply pow2_pos].
Qed.

Lemma iter_xO_value (p k : positive) : Zpos (Pos.iter xO p k) = Zpos p * 2 ^ Zpos k.
Proof.
  induction k as [|k IH] using Pos.peano_ind.
  - simpl. lia.
  - rewrite Pos.iter_succ, Pos2Z.inj_xO, IH, Pos2Z.inj_succ, Z.pow_succ_r by lia. ring.
Qed.

(** A mantissa of exactly 53 bits with an exact location is kept. *)
Lemma round_exact (sx : bool) (mx : positive) (ex : Z) :
  Zpos (digits2_pos mx) = 53 -> -1000 <= ex <= 900 ->
  binary_round_aux prec emax sx (Zpos mx) ex loc_Exact = S754_finite sx mx ex.
Proof.
  intros Hd Hex.
  destruct (binary_round_aux_eq sx mx ex loc_Exact) as (m2 & _ & Hm2 & Hr).
  rewrite Hd in Hm2, Hr. cbv zeta in Hm2, Hr.
  rewrite (fexp_normal (53 + ex)) in Hm2, Hr by lia.
  replace (Z.max 0 (53 + ex - 53 - ex)) with 0 in Hm2, Hr by lia.
  specialize (Hm2 eq_refl eq_refl). subst m2. simpl Zdigits2 in Hr. rewrite Hd in Hr.
  rewrite Z.add_0_r in Hr. rewrite (fexp_normal (53 + ex)) in Hr by lia.
  replace (Z.max 0 (53 + ex - 53 - ex)) with 0 in Hr by lia.
  rewrite Z.pow_0_r, Z.div_1_r, Z.add_0_r in Hr.
  destruct (Z.leb_spec ex (emax - prec)); [exact Hr|unfold emax, prec in *; lia].
Qed.

(** [float(n)] is exact below 2^53. *)
Lemma of_int_normal (n : Z) :
  1 <= n < 2 ^ 53 ->
  normal 52 (of_int n) /\ (F2Q (of_int n) == inject_Z n)%Q.
Proof.
  intros Hn. destruct n as [|p|p]; try lia.
  unfold of_int, binary_normalize, binary_round.
  pose proof (digits2_bounds p) as [Bl Bu].
  set (d := Zpos (digits2_pos p)) in *.
  assert (Hd : 1 <= d <= 53).
  { split; [unfold d; lia|].
    destruct (Z_le_gt_dec d 53); [assumption|].
    assert (2 ^ 53 <= 2 ^ (d - 1)) by (apply Z.pow_le_mono_r; lia). lia. }
  rewrite Z.add_0_r, (fexp_normal d) by lia.
  unfold shl_align. rewrite Z.sub_0_r.
  destruct (d - 53) as [|k|k] eqn:Ek; try lia.
  - rewrite round_exact by (fold d; lia).
    unfold normal, F2Q, cond_Zopp. split; [split; [|lia]|].
    + assert (d = 53) by lia. replace (d - 1) with 52 in Bl by lia.
      replace d with 53 in Bu by lia. lia.
    + unfold pow2. simpl Qpower. ring.
  - assert (Hv : Zpos (Pos.iter xO p k) = Zpos p * 2 ^ Zpos k) by apply iter_xO_value.
    assert (Hk : Zpos k = 53 - d) by lia.
    assert (Hdig : Zpos (digits2_pos (Pos.iter xO p k)) = 53).
    { apply digits2_unique. rewrite Hv, Hk.
      replace (2 ^ (53 - 1)) with (2 ^ (d - 1) * 2 ^ (53 - d))
        by (rewrite <- Z.pow_add_r by lia; f_equal; lia).
      replace (2 ^ 53) with (2 ^ d * 2 ^ (53 - d))
        by (rewrite <- Z.pow_add_r by lia; f_equal; lia).
      assert (0 < 2 ^ (53 - d)) by (apply Z.pow_pos_nonneg; lia). nia. }
    rewrite round_exact by (rewrite ?Hdig; lia).
    pose proof (digits2_bounds (Pos.iter xO p k)) as Hb. rewrite Hdig in Hb.
    unfold normal, F2Q, cond_Zopp. split; [split; [exact Hb|lia]|].
    rewrite Hv. rewrite scaled_value by lia.
    replace (Zneg k + Zpos k) with 0 by lia. unfold pow2. simpl Qpower. ring.
Qed.

(** [int(f)] of a positive finite float is the integer part of its value. *)
Lemma int_normal (b : Z) (f : float) :
  normal b f ->
  exists z, Py.int f = Ok z /\ 0 <= z /\
            (inject_Z z <= F2Q f)%Q /\ (F2Q f < inject_Z (z + 1))%Q.
Proof.
  destruct f as [| | |[|] m e]; simpl; try tauto. intros _.
  unfold F2Q, cond_Zopp.
  exists (Z.shiftl (Zpos m) e). split; [reflexivity|].
  split; [apply shiftl_pos_nonneg|].
  destruct (Z_le_gt_dec 0 e) as [He|He].
  - rewrite Z.shiftl_mul_pow2 by assumption.
    assert (E : (inject_Z (Zpos m) * pow2 e == inject_Z (Zpos m * 2 ^ e))%Q).
    { rewrite <- (scaled_value (Zpos m) 0 e) by assumption.
      unfold pow2 at 1. simpl Qpower. ring. }
    rewrite E. rewrite <- Zle_Qle, <- Zlt_Qlt. lia.
  - rewrite Z.shiftl_div_pow2 by lia.
    assert (Hp : 0 < 2 ^ (- e)) by (apply Z.pow_pos_nonneg; lia).
    pose proof (Z.mul_div_le (Zpos m) (2 ^ (- e)) Hp) as Hle.
    pose proof (Z.mul_succ_div_gt (Zpos m) (2 ^ (- e)) Hp) as Hgt.
    set (z := Zpos m / 2 ^ (- e)) in *. unfold Z.succ in Hgt.
    assert (E : forall k, (inject_Z k == inject_Z (k * 2 ^ (- e)) * pow2 e)%Q).
    { intros k. rewrite scaled_value by lia. replace (e + - e) with 0 by lia.
      unfold pow2. simpl Qpower. ring. }
    rewrite (E z), (E (z + 1)). split.
    + apply Qmult_le_compat_r; [|apply Qlt_le_weak, pow2_pos].
      rewrite <- Zle_Qle. lia.
    + apply Qmult_lt_compat_r; [apply pow2_pos|].
      rewrite <- Zlt_Qlt. lia.
Qed.

(** The quotient of two normal floats is normal and within one unit in
    the last place of the quotient of their values. *)
Lemma div_normal (b1 b2 : Z) (f1 f2 : float) :
  normal b1 f1 -> normal b2 f2 -> 0 <= b1 -> 0 <= b2 -> b1 + b2 <= 500 ->
  normal (b1 + b2 + 53) (SFdiv prec emax f1 f2) /\
  (F2Q f1 / F2Q f2 * (1 - eps) <= F2Q (SFdiv prec emax f1 f2))%Q /\
  (F2Q (SFdiv prec emax f1 f2) <= F2Q f1 / F2Q f2 * (1 + eps))%Q.
Proof.
  intros H1 H2 Hb1 Hb2 Hb.
  pose proof (normal_positive _ _ H2) as Hpos2.
  destruct f1 as [| | |[|] m1 e1]; simpl in H1; try tauto.
  destruct f2 as [| | |[|] m2 e2]; simpl in H2; try tauto.
  destruct H1 as [Hm1 He1]. destruct H2 as [Hm2 He2].
  unfold SFdiv, SFdiv_core_binary.
  rewrite (Zdigits2_unique (Zpos m1) 53), (Zdigits2_unique (Zpos m2) 53)
    by (simpl; lia).
  replace (53 + e1 - (53 + e2)) with (e1 - e2) by lia.
  rewrite (fexp_normal (e1 - e2)) by lia.
  replace (Z.min (e1 - e2 - 53) (e1 - e2)) with (e1 - e2 - 53) by lia.
  replace (e1 - e2 - (e1 - e2 - 53)) with 53 by lia.
  cbv iota. rewrite (Z.shiftl_mul_pow2 (Zpos m1) 53) by lia.
  set (e' := e1 - e2 - 53).
  pose proof (Z_div_mod (Zpos m1 * 2 ^ 53) (Zpos m2) ltac:(lia)) as Hdm.
  destruct (Z.div_eucl (Zpos m1 * 2 ^ 53) (Zpos m2)) as [q r].
  destruct Hdm as [Hq Hr].
  assert (Hq52 : 2 ^ 52 <= q) by nia.
  assert (Hq54 : q < 2 ^ 54) by nia.
  destruct q as [|q|q]; try (simpl in Hq52; lia).
  assert (Hd : 53 <= Zpos (digits2_pos q) <= 54).
  { pose proof (digits2_bounds q) as [Bl Bu]. split.
    - destruct (Z_le_gt_dec 53 (Zpos (digits2_pos q))); [assumption|].
      assert (2 ^ Zpos (digits2_pos q) <= 2 ^ 52) by (apply Z.pow_le_mono_r; lia). lia.
    - destruct (Z_le_gt_dec (Zpos (digits2_pos q)) 54); [assumption|].
      assert (2 ^ 54 <= 2 ^ (Zpos (digits2_pos q) - 1)) by (apply Z.pow_le_mono_r; lia).
      lia. }
  set (V := (F2Q (S754_finite false m1 e1) / F2Q (S754_finite false m2 e2))%Q) in *.
  set (w := (pow2 e' * pow2 e2)%Q).
  assert (Hw : (0 < w)%Q) by (apply Qmult_lt_0_compat; apply pow2_pos).
  assert (E1 : (F2Q (S754_finite false m1 e1) == inject_Z (Zpos m1 * 2 ^ 53) * w)%Q).
  { unfold F2Q, cond_Zopp, w. rewrite <- pow2_add.
    rewrite (scaled_value (Zpos m1) (e' + e2) 53) by lia.
    replace (e' + e2 + 53) with e1 by (unfold e'; lia). reflexivity. }
  assert (Vl : (inject_Z (Zpos q) * pow2 e' <= V)%Q).
  { unfold V. apply Qle_shift_div_l; [exact Hpos2|]. rewrite E1.
    unfold F2Q at 1, cond_Zopp.
    setoid_replace (inject_Z (Zpos q) * pow2 e' * (inject_Z (Zpos m2) * pow2 e2))%Q
      with (inject_Z (Zpos m2 * Zpos q) * w)%Q
      by (unfold w; rewrite inject_Z_mult; ring).
    apply Qmult_le_compat_r; [|apply Qlt_le_weak, Hw].
    rewrite <- Zle_Qle. lia. }
  assert (Vu : (V <= inject_Z (Zpos q + 1) * pow2 e')%Q).
  { unfold V. apply Qle_shift_div_r; [exact Hpos2|]. rewrite E1.
    unfold F2Q at 1, cond_Zopp.
    setoid_replace (inject_Z (Zpos q + 1) * pow2 e' * (inject_Z (Zpos m2) * pow2 e2))%Q
      with (inject_Z (Zpos m2 * (Zpos q + 1)) * w)%Q
      by (unfold w; rewrite inject_Z_mult; ring).
    apply Qmult_le_compat_r; [|apply Qlt_le_weak, Hw].
    rewrite <- Zle_Qle. lia. }
  destruct (round_normal false q e' (new_location (Zpos m2) r) V)
    as (m & e & Hres & Hm & He & Hl & Hu);
    try assumption; try (unfold e'; lia).
  simpl xorb. rewrite Hres. unfold normal, F2Q, cond_Zopp.
  split; [split; [exact Hm|unfold e' in He; lia]|]. split; assumption.
Qed.

(** The product of two normal floats is normal and within one unit in
    the last place of the product of their values. *)
Lemma mul_normal (b1 b2 : Z) (f1 f2 : float) :
  normal b1 f1 -> normal b2 f2 -> 0 <= b1 -> 0 <= b2 -> b1 + b2 <= 400 ->
  normal (b1 + b2 + 54) (SFmul prec emax f1 f2) /\
  (F2Q f1 * F2Q f2 * (1 - eps) <= F2Q (SFmul prec emax f1 f2))%Q /\
  (F2Q (SFmul prec emax f1 f2) <= F2Q f1 * F2Q f2 * (1 + eps))%Q.
Proof.
  intros H1 H2 Hb1 Hb2 Hb.
  destruct f1 as [| | |[|] m1 e1]; simpl in H1; try tauto.
  destruct f2 as [| | |[|] m2 e2]; simpl in H2; try tauto.
  destruct H1 as [Hm1 He1]. destruct H2 as [Hm2 He2].
  unfold SFmul. simpl xorb.
  assert (Hd : 105 <= Zpos (digits2_pos (m1 * m2)) <= 106).
  { pose proof (digits2_bounds (m1 * m2)) as [Bl Bu]. rewrite Pos2Z.inj_mul in Bl, Bu.
    assert (2 ^ 104 <= Zpos m1 * Zpos m2) by (change (2 ^ 104) with (2 ^ 52 * 2 ^ 52); nia).
    assert (Zpos m1 * Zpos m2 < 2 ^ 106) by (change (2 ^ 106) with (2 ^ 53 * 2 ^ 53); nia).
    split.
    - destruct (Z_le_gt_dec 105 (Zpos (digits2_pos (m1 * m2)))); [assumption|].
      assert (2 ^ Zpos (digits2_pos (m1 * m2)) <= 2 ^ 104) by (apply Z.pow_le_mono_r; lia).
      lia.
    - destruct (Z_le_gt_dec (Zpos (digits2_pos (m1 * m2))) 106); [assumption|].
      assert (2 ^ 106 <= 2 ^ (Zpos (digits2_pos (m1 * m2)) - 1))
        by (apply Z.pow_le_mono_r; lia).
      lia. }
  set (V := (F2Q (S754_finite false m1 e1) * F2Q (S754_finite false m2 e2))%Q).
  assert (EV : (V == inject_Z (Zpos (m1 * m2)) * pow2 (e1 + e2))%Q).
  { unfold V, F2Q, cond_Zopp. rewrite Pos2Z.inj_mul, inject_Z_mult, pow2_add. ring. }
  destruct (round_normal false (m1 * m2) (e1 + e2) loc_Exact V)
    as (m & e & Hres & Hm & He & Hl & Hu); try lia.
  - rewrite EV. apply Qle_refl.
  - rewrite EV. apply Qmult_le_compat_r; [|apply Qlt_le_weak, pow2_pos].
    rewrite <- Zle_Qle. lia.
  - rewrite Hres. unfold normal, F2Q, cond_Zopp.
    split; [split; [exact Hm|lia]|]. split; assumption.
Qed.

(** The arithmetic at the heart of the round trip: two integers that
    agree within a few units in the last place of a binary64 number, and
    are both below 2^50, are equal. *)
Lemma close_integers_equal (P R : Z) :
  0 <= P < 2 ^ 50 -> 0 <= R ->
  (inject_Z R * (1 - eps) <= inject_Z P * (1 + eps))%Q ->
  (inject_Z P <= inject_Z R * ((1 + eps) * (1 + eps)))%Q ->
  R = P.
Proof.
  intros HP HR H1 H2. unfold eps in *.
  change (1 # 2 ^ 52)%Q with (1 # 4503599627370496)%Q in *.
  destruct (Z.lt_trichotomy R P) as [Hlt|[Heq|Hgt]]; [exfalso|assumption|exfalso].
  - assert (Hz : R + 1 <= P) by lia. rewrite Zle_Qle, inject_Z_plus in Hz.
    assert (Hb : P <= 2 ^ 50) by lia. rewrite Zle_Qle in Hb.
    change (inject_Z 1) with 1%Q in Hz.
    change (inject_Z (2 ^ 50)) with (1125899906842624 # 1)%Q in Hb. lra.
  - assert (Hz : P + 1 <= R) by lia. rewrite Zle_Qle, inject_Z_plus in Hz.
    assert (Hb : P <= 2 ^ 50) by lia. rewrite Zle_Qle in Hb.
    change (inject_Z 1) with 1%Q in Hz.
    change (inject_Z (2 ^ 50)) with (1125899906842624 # 1)%Q in Hb. lra.
Qed.

(** The scale of a pair of dimensions below 2^25 is a normal float
    within one unit in the last place of the exact quotient. *)
Lemma truediv_normal (xh yh : Z) (s : float) :
  1 <= xh < 2 ^ 25 -> 1 <= yh < 2 ^ 25 ->
  truediv xh yh = Ok s ->
  normal 157 s /\
  (inject_Z xh / inject_Z yh * (1 - eps) <= F2Q s)%Q /\
  (F2Q s <= inject_Z xh / inject_Z yh * (1 + eps))%Q.
Proof.
  intros Hx Hy. unfold truediv. destruct (Z.eqb_spec yh 0); [lia|].
  intros [= <-].
  destruct (of_int_normal xh) as [Nx Ex]; [simpl; lia|].
  destruct (of_int_normal yh) as [Ny Ey]; [simpl; lia|].
  destruct (div_normal 52 52 _ _ Nx Ny) as (Hn & Hl & Hu); try lia.
  rewrite Ex, Ey in Hl, Hu. split; [exact Hn|]. split; assumption.
Qed.

(** The round trip of [_pair_crop_max] and [_pair_split_image]: when a
    low-res length [a] carried up with [int(a / s)] and back down with
    [int(b * s)] comes back as itself, the length [b] on the high-res side
    is [a] times the exact ratio of the dimensions. *)
Lemma roundtrip_exact (xh yh a b : Z) (s : float) :
  1 <= xh < 2 ^ 25 -> 1 <= yh < 2 ^ 25 -> 0 <= a <= xh ->
  truediv xh yh = Ok s ->
  scale_up a s = Ok b ->
  scale_down b s = Ok a ->
  b * xh = a * yh.
Proof.
  intros Hx Hy Ha Hs Hup Hdown.
  destruct (truediv_normal xh yh s Hx Hy Hs) as (Ns & Sl & Su).
  pose proof (normal_positive _ _ Ns) as Spos.
  assert (Hs' : exists ms es, s = S754_finite false ms es).
  { destruct s as [| | |[|] ms es]; simpl in Ns; try tauto. eauto. }
  destruct Hs' as (ms & es & Es).
  unfold scale_up, int_div, fdiv in Hup. unfold scale_down, int_mul, fmul in Hdown.
  assert (Hz : is_zero s = false) by (rewrite Es; reflexivity).
  rewrite Hz in Hup. simpl bind in Hup.
  destruct (Z.eq_dec a 0) as [->|Ha0].
  { rewrite Es in Hup. simpl in Hup. assert (b = 0) by congruence. lia. }
  destruct (of_int_normal a) as [Na Ea]; [simpl in *; lia|].
  destruct (div_normal 52 157 _ _ Na Ns) as (Nq & _ & Qu); try lia.
  destruct (int_normal _ _ Nq) as (b' & Hb' & Hb0 & Bl & _).
  rewrite Hb' in Hup. assert (b' = b) by congruence. subst b'. clear Hup.
  rewrite Ea in Qu.
  destruct (Z.eq_dec b 0) as [->|Hb1].
  { rewrite Es in Hdown. simpl in Hdown. assert (a = 0) by congruence. lia. }
  set (X := inject_Z xh) in *. set (Y := inject_Z yh) in *.
  set (A := inject_Z a) in *. set (B := inject_Z b) in *. set (S := F2Q s) in *.
  assert (HX : (1 <= X)%Q) by (unfold X; rewrite <- (Zle_Qle 1); lia).
  assert (HY : (1 <= Y)%Q) by (unfold Y; rewrite <- (Zle_Qle 1); lia).
  assert (HA : (1 <= A)%Q) by (unfold A; rewrite <- (Zle_Qle 1); lia).
  assert (HB : (1 <= B)%Q) by (unfold B; rewrite <- (Zle_Qle 1); lia).
  assert (HX' : (X <= 33554432)%Q)
    by (unfold X; change 33554432%Q with (inject_Z (2 ^ 25)); rewrite <- Zle_Qle; lia).
  assert (HY' : (Y <= 33554432)%Q)
    by (unfold Y; change 33554432%Q with (inject_Z (2 ^ 25)); rewrite <- Zle_Qle; lia).
  assert (HAX : (A <= X)%Q) by (unfold A, X; rewrite <- Zle_Qle; lia).
  assert (Heps : (eps == 1 # 4503599627370496)%Q) by reflexivity.
  (* [b * s <= a * (1 + eps)] *)
  assert (BS : (B * S <= A * (1 + eps))%Q).
  { assert (H : (B * S <= A / S * (1 + eps) * S)%Q).
    { apply Qmult_le_compat_r; [|apply Qlt_le_weak, Spos].
      eapply Qle_trans; [exact Bl|exact Qu]. }
    setoid_replace (A / S * (1 + eps) * S)%Q with (A * (1 + eps))%Q in H
      by (field; lra).
    exact H. }
  (* [x / y * (1 - eps) <= s], times [b * y] *)
  assert (R1 : (B * X * (1 - eps) <= A * Y * (1 + eps))%Q).
  { assert (H : (B * (X / Y * (1 - eps)) <= B * S)%Q).
    { rewrite !(Qmult_comm B). apply Qmult_le_compat_r; [exact Sl|lra]. }
    assert (H' : (B * (X / Y * (1 - eps)) * Y <= A * (1 + eps) * Y)%Q).
    { apply Qmult_le_compat_r; [|lra]. eapply Qle_trans; [exact H|exact BS]. }
    setoid_replace (B * (X / Y * (1 - eps)) * Y)%Q with (B * X * (1 - eps))%Q in H'
      by (field; lra).
    lra. }
  (* the way back *)
  assert (Hb53 : b < 2 ^ 53).
  { assert (H : (B * X * (1 - eps) <= 33554432 * 33554432 * (1 + eps))%Q).
    { eapply Qle_trans; [exact R1|].
      apply Qmult_le_compat_r; [|lra].
      eapply Qle_trans; [apply Qmult_le_compat_r; [exact HAX|lra]|].
      eapply Qle_trans; [|apply Qmult_le_compat_r; [exact HX'|lra]].
      rewrite !(Qmult_comm X). apply Qmult_le_compat_r; [exact HY'|lra]. }
    assert (H' : (B * (1 - eps) <= B * X * (1 - eps))%Q).
    { apply Qmult_le_compat_r; [|lra].
      rewrite <- (Qmult_1_r B) at 1. rewrite !(Qmult_comm B).
      apply Qmult_le_compat_r; [exact HX|lra]. }
    assert (Hq : (B < inject_Z (2 ^ 53))%Q).
    { change (inject_Z (2 ^ 53)) with (9007199254740992 # 1)%Q.
      rewrite Heps in H, H'. lra. }
    unfold B in Hq. rewrite <- Zlt_Qlt in Hq. exact Hq. }
  destruct (of_int_normal b) as [Nb Eb]; [simpl in *; lia|].
  destruct (mul_normal 52 157 _ _ Nb Ns) as (Np & _ & Pu); try lia.
  destruct (int_normal _ _ Np) as (a' & Ha' & _ & Al & _).
  rewrite Ha' in Hdown. assert (a' = a) by congruence. subst a'. clear Hdown.
  rewrite Eb in Pu. fold B S in Pu. fold A in Al.
  assert (R2 : (A * Y <= B * X * ((1 + eps) * (1 + eps)))%Q).
  { assert (H : (B * S * (1 + eps) <= B * (X / Y * (1 + eps)) * (1 + eps))%Q).
    { apply Qmult_le_compat_r; [|lra].
      rewrite !(Qmult_comm B). apply Qmult_le_compat_r; [exact Su|lra]. }
    assert (H' : (A * Y <= B * (X / Y * (1 + eps)) * (1 + eps) * Y)%Q).
    { apply Qmult_le_compat_r; [|lra].
      eapply Qle_trans; [exact Al|]. eapply Qle_trans; [exact Pu|exact H]. }
    setoid_replace (B * (X / Y * (1 + eps)) * (1 + eps) * Y)%Q
      with (B * X * ((1 + eps) * (1 + eps)))%Q in H'
      by (field; lra).
    exact H'. }
  apply (close_integers_equal (a * yh) (b * xh)).
  - split; [nia|]. change (2 ^ 50) with (2 ^ 25 * 2 ^ 25). nia.
  - nia.
  - rewrite !inject_Z_mult. exact R1.
  - rewrite !inject_Z_mult. exact R2.
Qed.

Lemma binary_round_aux_signed (sx : bool) (mx : positive) (ex : Z) (lx : location) :
  signed sx (binary_round_aux prec emax sx (Zpos mx) ex lx).
Proof.
  destruct (binary_round_aux_eq sx mx ex lx) as (m2 & _ & _ & Hr). cbv zeta in Hr.
  rewrite Hr. destruct (m2 / 2 ^ _); simpl; auto.
  destruct (_ <=? _); simpl; auto.
Qed.

Lemma of_int_signed (n : Z) : 0 <= n -> signed false (of_int n).
Proof.
  intros Hn. destruct n as [|p|p]; try lia; [reflexivity|].
  unfold of_int, binary_normalize, binary_round.
  destruct (shl_align p 0 _) as [mz ez]. apply binary_round_aux_signed.
Qed.

Lemma mul_signed (b : Z) (f s : float) :
  signed false f -> normal b s -> signed false (SFmul prec emax f s).
Proof.
  intros Hf Hs. destruct s as [| | |[|] ms es]; simpl in Hs; try tauto.
  destruct f as [sf|sf| |sf mf ef]; simpl in *; subst; auto.
  apply binary_round_aux_signed.
Qed.

Lemma int_signed (f : float) (z : Z) : signed false f -> Py.int f = Ok z -> 0 <= z.
Proof.
  destruct f as [sf|sf| |sf mf ef]; simpl; intros Hs H; try discriminate.
  - assert (z = 0) by congruence. lia.
  - subst sf. simpl in H. assert (z = Z.shiftl (Zpos mf) ef) by congruence. subst z.
    apply shiftl_pos_nonneg.
Qed.

(** The low-res bound [int(max_size * s)] of a [max_size] that is not
    negative is not negative. *)
Lemma low_bound_nonneg (b max_size lr : Z) (s : float) :
  0 <= max_size -> normal b s -> Py.int (int_mul max_size s) = Ok lr -> 0 <= lr.
Proof.
  intros Hm Hs. apply int_signed. apply (mul_signed b); [|exact Hs].
  now apply of_int_signed.
Qed.

End Rounding.

(** ** The offsets of a range *)

Lemma range_bounds (stop step : Z) (l : list Z) (i : Z) :
  Py.range 0 stop step = Ok l -> 0 < stop -> In i l -> 0 <= i < stop.
Proof.
  unfold Py.range. destruct (Z.eqb_spec step 0) as [|Hs]; [discriminate|].
  intros E Hstop Hin. assert (l = map (fun k => 0 + Z.of_nat k * step)
    (seq 0 (Z.to_nat (Py.range_len 0 stop step)))) by congruence. subst l. clear E.
  apply in_map_iff in Hin. destruct Hin as (k & <- & Hk). apply in_seq in Hk.
  unfold Py.range_len in Hk. destruct (Z.ltb_spec 0 step) as [Hp|Hp].
  - replace (stop - 0 + step - 1) with (stop - 1 + 1 * step) in Hk by lia.
    rewrite Z.div_add in Hk by lia.
    assert (Hq : 0 <= (stop - 1) / step) by (apply Z.div_pos; lia).
    pose proof (Z.mul_div_le (stop - 1) step Hp). nia.
  - assert (Hneg : (0 - stop - step - 1) / - step <= 0).
    { assert ((0 - stop - step - 1) / - step < 1); [|lia].
      apply Z.div_lt_upper_bound; lia. }
    lia.
Qed.

(** ** C4: the round trip of [pair_crop_max] *)

(** C4.  For a pair whose high-res dimensions (below 2^25) are [r] times
    its low-res dimensions, [r] an integer, and a [max_size] that is not
    negative: when [pair_crop_max] returns, the height and the width of
    its high-res result are exactly [r] times those of its low-res result,
    and divided by [r] they give them back; a crop that was made passed
    the round trip [int(int(v / s) * s) = v] in both dimensions.  So a
    rounding that breaks the round trip makes the operation raise. *)
Theorem pair_crop_max_round_trip (x y : tensor) (max_size r : Z) (x' y' : tensor) :
  let lo := low_res x y in
  let hi := high_res x y in
  let lo' := low_part x y (x', y') in
  let hi' := high_part x y (x', y') in
  1 <= r -> 1 <= shape_h lo -> 1 <= shape_w lo ->
  shape_h hi = r * shape_h lo -> shape_w hi = r * shape_w lo ->
  shape_h hi < 2 ^ 25 -> shape_w hi < 2 ^ 25 ->
  0 <= max_size ->
  pair_crop_max x y max_size = Ok (x', y') ->
  shape_h hi' = r * shape_h lo' /\ shape_w hi' = r * shape_w lo' /\
  shape_h hi' / r = shape_h lo' /\ shape_w hi' / r = shape_w lo' /\
  (lo' = lo /\ hi' = hi \/
   exists s_h s_w,
     Py.truediv (shape_h lo) (shape_h hi) = Ok s_h /\
     Py.truediv (shape_w lo) (shape_w hi) = Ok s_w /\
     scale_up (shape_h lo') s_h = Ok (shape_h hi') /\
     scale_down (shape_h hi') s_h = Ok (shape_h lo') /\
     scale_up (shape_w lo') s_w = Ok (shape_w hi') /\
     scale_down (shape_w hi') s_w = Ok (shape_w lo')).
Proof.
  intros lo hi lo' hi' Hr Hh Hw Ehh Ehw Bh Bw Hmax H.
  apply pair_crop_max_sides, _pair_crop_max_ok in H.
  fold lo hi lo' hi' in H.
  destruct H as (s_h & s_w & lr & Hsh & Hsw & Hlr & H). cbv zeta in H.
  unfold lo', hi' in *. clear lo' hi'. clearbody lo hi.
  assert (Hdiv : forall a b, b = r * a -> b / r = a).
  { intros a b ->. rewrite Z.mul_comm. apply Z.div_mul. lia. }
  destruct H as [(_ & _ & -> & ->)|(_ & lyh & lyw & Uh & Uw & Dh & Dw & -> & ->)].
  - repeat split; auto.
  - assert (Lh : shape_h lo <= shape_h hi).
    { assert (0 <= (r - 1) * shape_h lo) by (apply Z.mul_nonneg_nonneg; lia). lia. }
    assert (Lw : shape_w lo <= shape_w hi).
    { assert (0 <= (r - 1) * shape_w lo) by (apply Z.mul_nonneg_nonneg; lia). lia. }
    assert (Bxh : 1 <= shape_h lo < 2 ^ 25) by lia.
    assert (Bxw : 1 <= shape_w lo < 2 ^ 25) by lia.
    assert (Byh : 1 <= shape_h hi < 2 ^ 25) by lia.
    assert (Byw : 1 <= shape_w hi < 2 ^ 25) by lia.
    destruct (Rounding.truediv_normal _ _ _ Bxh Byh Hsh) as (Ns & _).
    pose proof (Rounding.low_bound_nonneg _ _ _ _ Hmax Ns Hlr) as Hlr0.
    assert (Ch : 0 <= Z.min (shape_h lo) lr <= shape_h lo) by lia.
    assert (Cw : 0 <= Z.min (shape_w lo) lr <= shape_w lo) by lia.
    pose proof (Rounding.roundtrip_exact _ _ _ _ _ Bxh Byh Ch Hsh Uh Dh) as Eh.
    pose proof (Rounding.roundtrip_exact _ _ _ _ _ Bxw Byw Cw Hsw Uw Dw) as Ew.
    simpl shape_h. simpl shape_w.
    assert (Rh : lyh = r * Z.min (shape_h lo) lr) by nia.
    assert (Rw : lyw = r * Z.min (shape_w lo) lr) by nia.
    repeat split; auto.
    right. exists s_h, s_w. repeat split; assumption.
Qed.

Lemma pair_crop_max_round_trip_witness :
  let x := Decoded "x" 256 256 in
  let y := Decoded "y" 1024 1024 in
  shape_h (NF.crop_ref y 0 0 128 128) = 4 * shape_h (NF.crop_ref x 0 0 32 32) /\
  shape_h (NF.crop_ref y 0 0 128 128) / 4 = shape_h (NF.crop_ref x 0 0 32 32).
Proof.
  intros x y.
  destruct (pair_crop_max_round_trip x y 128 4
              (NF.crop_ref x 0 0 32 32) (NF.crop_ref y 0 0 128 128))
    as (H1 & _ & H2 & _); simpl; try lia.
  - vm_compute. reflexivity.
  - split; [exact H1|exact H2].
Defined.

(** ** C5: the tiles of [pair_split_image] *)

Lemma aligned_ok (v : Z) (s : Py.float) :
  aligned v s = Ok true ->
  exists up, scale_up v s = Ok up /\ scale_down up s = Ok v.
Proof.
  unfold aligned. intros H.
  bind_ok H up Hup. bind_ok H back Hback.
  destruct (Z.eqb_spec v back); [|discriminate]. subst back. eauto.
Qed.

Lemma tile_aligned_ok (i j crop_h crop_w : Z) (s_h s_w : Py.float) (u : unit) :
  tile_aligned i j crop_h crop_w s_h s_w = Ok u ->
  aligned i s_h = Ok true /\ aligned j s_w = Ok true /\
  aligned crop_h s_h = Ok true /\ aligned crop_w s_w = Ok true.
Proof.
  unfold tile_aligned. intros H.
  bind_ok H a Ha. destruct a; [|discriminate].
  bind_ok H b Hb. destruct b; [|discriminate].
  bind_ok H c Hc. destruct c; [|discriminate].
  bind_ok H d Hd. destruct d; [|discriminate]. auto.
Qed.

(** A tile pair past the checks: the high-res region is the low-res
    region carried up, and carries back down to it. *)
Lemma pair_tile_ok (x y : tensor) (crop_h crop_w : Z) (s_h s_w : Py.float)
      (i j : Z) (t : tensor * tensor) :
  pair_tile x y crop_h crop_w s_h s_w i j = Ok t ->
  exists yi yj yh yw,
    t = (NF.crop x i j crop_h crop_w, NF.crop y yi yj yh yw) /\
    scale_up i s_h = Ok yi /\ scale_down yi s_h = Ok i /\
    scale_up j s_w = Ok yj /\ scale_down yj s_w = Ok j /\
    scale_up crop_h s_h = Ok yh /\ scale_down yh s_h = Ok crop_h /\
    scale_up crop_w s_w = Ok yw /\ scale_down yw s_w = Ok crop_w.
Proof.
  unfold pair_tile. intros H. bind_ok H u Hu.
  apply tile_aligned_ok in Hu. destruct Hu as (Ai & Aj & Ah & Aw).
  apply aligned_ok in Ai, Aj, Ah, Aw.
  destruct Ai as (yi & Ui & Di). destruct Aj as (yj & Uj & Dj).
  destruct Ah as (yh & Uh & Dh). destruct Aw as (yw & Uw & Dw).
  rewrite Ui, Uj, Uh, Uw in H. simpl in H.
  exists yi, yj, yh, yw. repeat split; try assumption. congruence.
Qed.

Lemma Forall2_fst_snd {A B} (R : A -> B -> Prop) (ts : list (A * B)) :
  Forall (fun t => R (fst t) (snd t)) ts -> Forall2 R (map fst ts) (map snd ts).
Proof. induction 1; simpl; constructor; auto. Qed.

(** C5.  For a pair of images with dimensions from 1 to below 2^25 and a
    [max_size] that is not negative: when [pair_split_image] returns, its
    two lists have the same length, and at every index the two tiles are
    the two images themselves or two crops such that the row and the
    height of the high-res crop are those of the low-res crop times
    [hi.h / lo.h], its column and width those of the low-res crop times
    [hi.w / lo.w], exactly, and each low-res coordinate is re-derived from
    the high-res one by [int(v * s)].  So a coordinate that does not pass
    this check makes the operation raise. *)
Theorem pair_split_image_regions (x y : tensor) (max_size : Z) (step : Py.float)
        (xs ys : list tensor) :
  let lo := low_res x y in
  let hi := high_res x y in
  1 <= shape_h lo < 2 ^ 25 -> 1 <= shape_w lo < 2 ^ 25 ->
  1 <= shape_h hi < 2 ^ 25 -> 1 <= shape_w hi < 2 ^ 25 ->
  0 <= max_size ->
  pair_split_image x y max_size step = Ok (xs, ys) ->
  List.length xs = List.length ys /\
  Forall2 (scaled_tiles lo hi) (low_part x y (xs, ys)) (high_part x y (xs, ys)).
Proof.
  intros lo hi Bxh Bxw Byh Byw Hmax H.
  apply pair_split_image_sides, _pair_split_image_ok in H. fold lo hi in H.
  destruct H as (s_h & s_w & lr & Hsh & Hsw & Hlr & _ & H). cbv zeta in H.
  assert (HF : Forall2 (scaled_tiles lo hi) (low_part x y (xs, ys)) (high_part x y (xs, ys))).
  { clearbody lo hi.
    destruct H as [(_ & _ & -> & ->)
                  |(_ & step_h & step_w & rows & ts & _ & _ & Hrows & -> & -> & _ & Ht)].
    - constructor; [|constructor]. left. auto.
    - destruct (Rounding.truediv_normal _ _ _ Bxh Byh Hsh) as (Ns & _).
      pose proof (Rounding.low_bound_nonneg _ _ _ _ Hmax Ns Hlr) as Hlr0.
      set (crop_h := Z.min (shape_h lo) lr) in *.
      set (crop_w := Z.min (shape_w lo) lr) in *.
      assert (Ch : 0 <= crop_h <= shape_h lo) by (unfold crop_h; lia).
      assert (Cw : 0 <= crop_w <= shape_w lo) by (unfold crop_w; lia).
      apply Forall2_fst_snd. eapply Forall_impl; [|exact Ht].
      intros t (i & j & Hi & Hj & Hp).
      assert (Bi : 0 <= i <= shape_h lo).
      { pose proof (range_bounds _ _ _ i Hrows ltac:(lia) Hi). lia. }
      assert (Bj : 0 <= j <= shape_w lo).
      { destruct (Py.range 0 (shape_w lo - crop_w + 1) step_w) as [cols|e] eqn:Ec;
          simpl in Hj; [|destruct Hj].
        pose proof (range_bounds _ _ _ j Ec ltac:(lia) Hj). lia. }
      apply pair_tile_ok in Hp.
      destruct Hp as (yi & yj & yh & yw & -> & Ui & Di & Uj & Dj & Uh & Dh & Uw & Dw).
      right. exists i, j, crop_h, crop_w, yi, yj, yh, yw, s_h, s_w. simpl.
      pose proof (Rounding.roundtrip_exact _ _ _ _ _ Bxh Byh Bi Hsh Ui Di).
      pose proof (Rounding.roundtrip_exact _ _ _ _ _ Bxh Byh Ch Hsh Uh Dh).
      pose proof (Rounding.roundtrip_exact _ _ _ _ _ Bxw Byw Bj Hsw Uj Dj).
      pose proof (Rounding.roundtrip_exact _ _ _ _ _ Bxw Byw Cw Hsw Uw Dw).
      repeat split; assumption. }
  split; [|exact HF].
  apply Forall2_length in HF. revert HF. unfold low_part, high_part.
  destruct (shape_h x <=? shape_h y); simpl; auto.
Qed.

Lemma pair_split_image_regions_witness :
  let x := Decoded "x" 4 4 in
  let y := Decoded "y" 8 8 in
  Forall2 (scaled_tiles x y)
    (flat_map (fun i => map (fun j => NF.crop x i j 2 2) [0; 1; 2]) [0; 1; 2])
    (flat_map (fun i => map (fun j => NF.crop y i j 4 4) [0; 2; 4]) [0; 2; 4]).
Proof.
  intros x y.
  refine (proj2 (pair_split_image_regions x y 4 Py.lit_0_5 _ _ _ _ _ _ _ _)).
  - simpl. lia.
  - simpl. lia.
  - simpl. lia.
  - simpl. lia.
  - lia.
  - vm_compute. reflexivity.
Defined.

Module Strides.

Import Py.

Local Abbreviation fexp := (SpecFloat.fexp prec emax).
Local Abbreviation emin := (SpecFloat.emin prec emax).

(** Rounding does not underflow to zero a mantissa that keeps a bit
    after the first shift. *)
Lemma binary_round_aux_nonzero (sx : bool) (mx : positive) (ex : Z) (lx : location) :
  2 ^ Z.max 0 (fexp (Zpos (digits2_pos mx) + ex) - ex) <= Zpos mx ->
  forall s, binary_round_aux prec emax sx (Zpos mx) ex lx <> S754_zero s.
Proof.
  intros HN s.
  destruct (Rounding.binary_round_aux_eq sx mx ex lx) as (m2 & Hm2 & _ & Hr).
  cbv zeta in Hm2, Hr.
  set (N := Z.max 0 (fexp (Zpos (digits2_pos mx) + ex) - ex)) in *.
  assert (Hp : 0 < 2 ^ N) by (apply Z.pow_pos_nonneg; lia).
  assert (H1 : 1 <= Zpos mx / 2 ^ N) by (apply Z.div_le_lower_bound; lia).
  destruct m2 as [|p2|p2]; try lia.
  set (n2 := Z.max 0 (fexp (Zdigits2 (Zpos p2) + (ex + N)) - (ex + N))) in *.
  pose proof (Rounding.digits2_bounds p2) as [Bl _].
  assert (Hn2 : n2 <= Zpos (digits2_pos p2) - 1).
  { unfold n2. simpl Zdigits2. unfold SpecFloat.fexp, SpecFloat.emin, prec, emax, N.
    unfold SpecFloat.fexp, SpecFloat.emin, prec, emax. lia. }
  assert (Hp2 : 0 < 2 ^ n2) by (apply Z.pow_pos_nonneg; unfold n2; lia).
  assert (H2 : 1 <= Zpos p2 / 2 ^ n2).
  { apply Z.div_le_lower_bound; [exact Hp2|].
    assert (2 ^ n2 <= 2 ^ (Zpos (digits2_pos p2) - 1))
      by (apply Z.pow_le_mono_r; unfold n2 in *; lia).
    lia. }
  rewrite Hr. destruct (Zpos p2 / 2 ^ n2); try lia.
  destruct (_ <=? _); discriminate.
Qed.

(** The product of an integer from 1 to below 2^53 and a finite binary64
    number is not a zero. *)
Lemma int_mul_nonzero (n : Z) (s : bool) (m : positive) (e : Z) :
  1 <= n < 2 ^ 53 ->
  valid_binary prec emax (S754_finite s m e) = true ->
  forall s', int_mul n (S754_finite s m e) <> S754_zero s'.
Proof.
  intros Hn Hv s'. destruct (Rounding.of_int_normal n Hn) as [Nn _].
  unfold int_mul, fmul. destruct (of_int n) as [| | |[|] mc ec]; simpl in Nn; try tauto.
  destruct Nn as [Hmc Hec]. unfold SFmul.
  apply binary_round_aux_nonzero.
  simpl in Hv. unfold bounded, canonical_mantissa in Hv.
  apply andb_prop in Hv. destruct Hv as [Hc _]. apply Z.eqb_eq in Hc.
  pose proof (Rounding.digits2_bounds m) as [Ml Mu].
  pose proof (Rounding.digits2_bounds (mc * m)) as [Pl Pu].
  rewrite Pos2Z.inj_mul in *.
  set (d := Zpos (digits2_pos (mc * m))) in *.
  set (dm := Zpos (digits2_pos m)) in *.
  assert (Hd : 53 <= d).
  { destruct (Z_le_gt_dec 53 d); [assumption|].
    assert (2 ^ d <= 2 ^ 52) by (apply Z.pow_le_mono_r; unfold d; lia).
    assert (1 <= Zpos m) by lia. nia. }
  assert (HN : Z.max 0 (fexp (d + (ec + e)) - (ec + e)) <= d - 1).
  { revert Hc. unfold SpecFloat.fexp, SpecFloat.emin, prec, emax. lia. }
  eapply Z.le_trans; [|exact Pl].
  apply Z.pow_le_mono_r; lia.
Qed.

Lemma mul_signed_any (f g : float) :
  signed false f -> signed false g -> signed false (SFmul prec emax f g).
Proof.
  destruct f as [sf|sf| |sf mf ef], g as [sg|sg| |sg mg eg]; simpl; intros; subst; auto.
  apply Rounding.binary_round_aux_signed.
Qed.

(** When the floor of one stride is 0 the other stride is not negative. *)
Lemma stride_signs (a b : Z) (step : float) (z : Z) :
  1 <= a < 2 ^ 53 -> 1 <= b ->
  valid_binary prec emax step = true ->
  float_floor (int_mul a step) = Some 0 ->
  Py.int (int_mul b step) = Ok z ->
  0 <= z.
Proof.
  intros Ha Hb Hv Hf Hz.
  destruct step as [s|s| |s m e].
  - (* a zero: the other product is a zero or a NaN *)
    unfold int_mul, fmul in Hz.
    destruct (of_int b) as [sb|sb| |sb mb eb]; simpl in Hz; try discriminate;
      assert (z = 0) by congruence; lia.
  - exfalso. unfold int_mul, fmul in Hf.
    destruct (of_int a) as [sa|sa| |sa ma ea]; simpl in Hf; discriminate.
  - exfalso. unfold int_mul, fmul in Hf.
    destruct (of_int a) as [sa|sa| |sa ma ea]; simpl in Hf; discriminate.
  - destruct s.
    + (* a negative step: the product with [a] is negative, its floor too *)
      exfalso.
      pose proof (int_mul_nonzero a true m e Ha Hv) as Hnz.
      destruct (Rounding.of_int_normal a Ha) as [Na _].
      unfold int_mul, fmul in *.
      destruct (of_int a) as [| | |[|] ma ea]; simpl in Na; try tauto.
      pose proof (Rounding.binary_round_aux_signed true (ma * m) (ea + e) loc_Exact) as Hs.
      unfold SFmul in *. simpl xorb in *.
      destruct (binary_round_aux prec emax true (Zpos (ma * m)) (ea + e) loc_Exact)
        as [s0|s0| |s0 m0 e0]; simpl in Hf, Hs; try discriminate.
      * exact (Hnz s0 eq_refl).
      * subst s0. simpl in Hf. pose proof (shiftl_neg_negative m0 e0).
        assert (Z.shiftl (Zneg m0) e0 = 0) by congruence. lia.
    + apply (Rounding.int_signed (int_mul b (S754_finite false m e))); [|exact Hz].
      apply mul_signed_any; [apply Rounding.of_int_signed; lia|reflexivity].
Qed.

(** The two strides, the range of the rows and the loops, as
    [split_image] and [_pair_split_image] have them: a stride whose
    floor is 0 makes them raise. *)
Lemma strided_loops_raise {S} (h w crop_h crop_w : Z) (step : float)
      (inner : Z -> list Z -> S -> result S) (init : S) :
  1 <= crop_h <= h -> crop_h < 2 ^ 53 -> 1 <= crop_w <= w -> crop_w < 2 ^ 53 ->
  valid_binary prec emax step = true ->
  float_floor (int_mul crop_h step) = Some 0 \/
  float_floor (int_mul crop_w step) = Some 0 ->
  exists e,
    (step_h <- Py.int (int_mul crop_h step) ;;
     step_w <- Py.int (int_mul crop_w step) ;;
     rows <- Py.range 0 (h - crop_h + 1) step_h ;;
     for_each rows (fun i st =>
       cols <- Py.range 0 (w - crop_w + 1) step_w ;; inner i cols st) init)
    = Raise e.
Proof.
  intros Hh Hh' Hw Hw' Hv [Fh|Fw].
  - rewrite (int_of_floor _ _ Fh) by lia. simpl bind.
    destruct (Py.int (int_mul crop_w step)) as [sw|e]; simpl bind; eauto.
  - pose proof (int_of_floor _ _ Fw ltac:(lia)) as Ew.
    destruct (Py.int (int_mul crop_h step)) as [sh|e] eqn:Eh; simpl bind; eauto.
    rewrite Ew. simpl bind.
    assert (Hsh : 0 <= sh) by (apply (stride_signs crop_w crop_h step); auto; lia).
    destruct (Z.eq_dec sh 0) as [->|Hnz]; [simpl; eauto|].
    rewrite range_tile_offsets by lia. simpl bind. unfold tile_offsets.
    assert (Hq : 0 <= (h - crop_h) / sh) by (apply Z.div_pos; lia).
    destruct (Z.to_nat ((h - crop_h) / sh + 1)) as [|n] eqn:En; [lia|].
    simpl. eauto.
Qed.

End Strides.

(** ** C10: a stride of zero *)

(** C10.  [split_image] on an image with a dimension above [max_size],
    and the low-res loop of [pair_split_image] on a pair with a low-res
    dimension above the low-res bound, raise when the floor of
    [window * step_rate] is 0 for the window of either dimension (the
    windows being at least 1 and [step_rate] a binary64 number): the
    range of the rows or of the columns is given the step 0, unless an
    exception came before. *)
Theorem zero_stride_raises (x y : tensor) (max_size : Z) (step_rate : Py.float) :
  valid_binary Py.prec Py.emax step_rate = true ->
  (let h := shape_h x in
   let w := shape_w x in
   1 <= max_size -> 1 <= h < 2 ^ 53 -> 1 <= w < 2 ^ 53 ->
   max_size < h \/ max_size < w ->
   float_floor (Py.int_mul (Z.min h max_size) step_rate) = Some 0 \/
   float_floor (Py.int_mul (Z.min w max_size) step_rate) = Some 0 ->
   exists e, split_image x max_size step_rate = Raise e) /\
  (forall s_h lr,
     let lo := low_res x y in
     let hi := high_res x y in
     Py.truediv (shape_h lo) (shape_h hi) = Ok s_h ->
     Py.int (Py.int_mul max_size s_h) = Ok lr ->
     1 <= lr -> 1 <= shape_h lo < 2 ^ 53 -> 1 <= shape_w lo < 2 ^ 53 ->
     lr < shape_h lo \/ lr < shape_w lo ->
     float_floor (Py.int_mul (Z.min (shape_h lo) lr) step_rate) = Some 0 \/
     float_floor (Py.int_mul (Z.min (shape_w lo) lr) step_rate) = Some 0 ->
     exists e, pair_split_image x y max_size step_rate = Raise e).
Proof.
  intros Hv. split.
  - intros h w Hmax Hh Hw Hbig Hf. unfold split_image. fold h w.
    assert (Hc : (max_size <? h) || (max_size <? w) = true)
      by (apply orb_true_iff; rewrite !Z.ltb_lt; exact Hbig).
    rewrite Hc.
    apply (Strides.strided_loops_raise h w (Z.min h max_size) (Z.min w max_size) step_rate
             (fun i cols images =>
                for_each cols (fun j images =>
                  Ok (images ++ [NF.crop x i j (Z.min h max_size) (Z.min w max_size)]))
                  images));
      auto; lia.
  - intros s_h lr lo hi Hsh Hlr Hlr1 Hh Hw Hbig Hf.
    assert (H : exists e, _pair_split_image lo hi max_size step_rate = Raise e).
    { unfold _pair_split_image. rewrite Hsh. simpl bind.
      destruct (Py.truediv (shape_w lo) (shape_w hi)) as [s_w|e]; simpl bind; eauto.
      destruct (Py.fgt _ _); eauto.
      destruct (py_assert _); simpl bind; eauto.
      rewrite Hlr. simpl bind.
      assert (Hc : negb (shape_h lo =? Z.min (shape_h lo) lr)
                   || negb (shape_w lo =? Z.min (shape_w lo) lr) = true).
      { apply orb_true_iff. rewrite !negb_true_iff, !Z.eqb_neq. lia. }
      rewrite Hc.
      apply (Strides.strided_loops_raise (shape_h lo) (shape_w lo)
               (Z.min (shape_h lo) lr) (Z.min (shape_w lo) lr) step_rate
               (fun i cols images =>
                  for_each cols
                    (pair_body lo hi (Z.min (shape_h lo) lr) (Z.min (shape_w lo) lr)
                               s_h s_w i) images));
        auto; lia. }
    destruct H as (e & He). exists e. revert He.
    unfold lo, hi, low_res, high_res, pair_split_image.
    destruct (shape_h x <=? shape_h y); intros ->; reflexivity.
Qed.

Lemma zero_stride_raises_witness :
  exists e, split_image (Decoded "y" 300 300) 100 (S754_zero false) = Raise e.
Proof.
  refine (proj1 (zero_stride_raises (Decoded "y" 300 300) (Decoded "y" 300 300) 100
                   (S754_zero false) eq_refl) _ _ _ _ _).
  - lia.
  - simpl. lia.
  - simpl. lia.
  - left. simpl. lia.
  - left. reflexivity.
Defined.

(** * Further properties of the code *)

(** ** [crop_max] *)


(** ** [split_image] *)




Lemma length_flat_map_rows {A B C} (f : A -> B -> C) (rows : list A) (cols : list B) :
  List.length (flat_map (fun i => map (f i) cols) rows)
  = (List.length rows * List.length cols)%nat.
Proof.
  induction rows as [|i rows IH]; simpl; [reflexivity|].
  rewrite length_app, length_map, IH. reflexivity.
Qed.

(** X3.  With strides of at least 1, [split_image] on an image with a
    dimension above [max_size] returns
    [((h - crop_h) // step_h + 1) * ((w - crop_w) // step_w + 1)] tiles. *)
Theorem split_image_count (x : tensor) (max_size : Z) (step_rate : Py.float)
        (step_h step_w : Z) :
  let h := shape_h x in
  let w := shape_w x in
  let crop_h := Z.min h max_size in
  let crop_w := Z.min w max_size in
  max_size < h \/ max_size < w ->
  Py.int (Py.int_mul crop_h step_rate) = Ok step_h ->
  Py.int (Py.int_mul crop_w step_rate) = Ok step_w ->
  1 <= step_h -> 1 <= step_w ->
  exists tiles,
    split_image x max_size step_rate = Ok tiles /\
    Z.of_nat (List.length tiles)
    = ((h - crop_h) / step_h + 1) * ((w - crop_w) / step_w + 1).
Proof.
  intros h w crop_h crop_w Hbig Hsh Hsw H1 H2.
  eexists. split.
  - unfold split_image. fold h w crop_h crop_w.
    assert (Hc : (max_size <? h) || (max_size <? w) = true)
      by (apply orb_true_iff; rewrite !Z.ltb_lt; exact Hbig).
    rewrite Hc, Hsh. simpl bind. rewrite Hsw. simpl bind.
    rewrite range_tile_offsets by lia. simpl bind.
    rewrite range_tile_offsets by lia.
    apply (for_each_collect_nested (fun i j => NF.crop x i j crop_h crop_w)).
  - simpl app. rewrite length_flat_map_rows. unfold tile_offsets.
    rewrite !length_map, !length_seq, Nat2Z.inj_mul.
    assert (0 <= (h - crop_h) / step_h) by (apply Z.div_pos; lia).
    assert (0 <= (w - crop_w) / step_w) by (apply Z.div_pos; lia).
    rewrite !Z2Nat.id by lia. reflexivity.
Qed.

Lemma split_image_count_witness :
  exists tiles,
    split_image (Decoded "y" 1000 700) 400 Py.lit_0_5 = Ok tiles /\
    Z.of_nat (List.length tiles) = ((1000 - 400) / 200 + 1) * ((700 - 400) / 200 + 1).
Proof.
  apply (split_image_count (Decoded "y" 1000 700) 400 Py.lit_0_5 200 200).
  - left. simpl. lia.
  - reflexivity.
  - reflexivity.
  - lia.
  - lia.
Defined.

(** ** The pair functions and the order of their arguments *)

(** X4.  When the two images differ in height, exchanging the arguments
    of [pair_crop_max] or of [pair_split_image] exchanges the two
    components of the result and nothing else: the shorter image is
    the low-res side in either order. *)
Theorem pair_functions_swap (x y : tensor) (max_size : Z) (step : Py.float) :
  shape_h x <> shape_h y ->
  pair_crop_max y x max_size = swap_result (pair_crop_max x y max_size) /\
  pair_split_image y x max_size step = swap_result (pair_split_image x y max_size step).
Proof.
  intros Hne. unfold pair_crop_max, pair_split_image, swap_result.
  destruct (Z.leb_spec (shape_h x) (shape_h y));
    destruct (Z.leb_spec (shape_h y) (shape_h x)); try lia.
  - split; reflexivity.
  - split.
    + destruct (_pair_crop_max y x max_size) as [[a b]|e]; reflexivity.
    + destruct (_pair_split_image y x max_size step) as [[a b]|e]; reflexivity.
Qed.

Lemma pair_functions_swap_witness :
  pair_crop_max (Decoded "y" 8 8) (Decoded "x" 4 4) 4
  = Ok (NF.crop_ref (Decoded "y" 8 8) 0 0 4 4, NF.crop_ref (Decoded "x" 4 4) 0 0 2 2).
Proof.
  refine (eq_trans (proj1 (pair_functions_swap (Decoded "x" 4 4) (Decoded "y" 8 8) 4
                             Py.lit_0_5 _)) _).
  - simpl. lia.
  - vm_compute. reflexivity.
Defined.

(** X5.  A high-res image of height 0 or of width 0 makes both pair
    functions raise [ZeroDivisionError]. *)
Theorem pair_functions_zero_division (x y : tensor) (max_size : Z) (step : Py.float) :
  shape_h (high_res x y) = 0 \/ shape_w (high_res x y) = 0 ->
  pair_crop_max x y max_size = Raise ZeroDivisionError /\
  pair_split_image x y max_size step = Raise ZeroDivisionError.
Proof.
  intros H.
  assert (Hs : forall lo hi, shape_h hi = 0 \/ shape_w hi = 0 ->
             _pair_crop_max lo hi max_size = Raise ZeroDivisionError /\
             _pair_split_image lo hi max_size step = Raise ZeroDivisionError).
  { intros lo hi Hz. unfold _pair_crop_max, _pair_split_image, Py.truediv.
    destruct (Z.eqb_spec (shape_h hi) 0) as [Eh|Eh]; [split; reflexivity|].
    destruct Hz as [Hz|Hz]; [contradiction|]. rewrite Hz. split; reflexivity. }
  unfold high_res in H. unfold pair_crop_max, pair_split_image.
  destruct (shape_h x <=? shape_h y).
  - apply Hs. exact H.
  - destruct (Hs y x H) as [-> ->]. split; reflexivity.
Qed.

Lemma pair_functions_zero_division_witness :
  pair_crop_max (Decoded "x" 4 4) (Decoded "y" 8 0) 4 = Raise ZeroDivisionError.
Proof.
  refine (proj1 (pair_functions_zero_division (Decoded "x" 4 4) (Decoded "y" 8 0) 4
                   Py.lit_0_5 _)).
  right. reflexivity.
Defined.

(** ** The sizes the pair functions produce *)

Module Bounds.

Import Py.

Lemma le_of_close (P R : Z) :
  0 <= P < 2 ^ 50 ->
  (inject_Z R <= inject_Z P * ((1 + eps) * (1 + eps)))%Q ->
  R <= P.
Proof.
  intros HP H. unfold eps in H.
  change (1 # 2 ^ 52)%Q with (1 # 4503599627370496)%Q in H.
  destruct (Z_le_gt_dec R P) as [|Hgt]; [assumption|exfalso].
  assert (Hz : P + 1 <= R) by lia. rewrite Zle_Qle, inject_Z_plus in Hz.
  assert (Hb : P <= 2 ^ 50) by lia. rewrite Zle_Qle in Hb.
  assert (H0 : 0 <= P) by lia. rewrite Zle_Qle in H0.
  change (inject_Z 1) with 1%Q in Hz. change (inject_Z 0) with 0%Q in H0.
  change (inject_Z (2 ^ 50)) with (1125899906842624 # 1)%Q in Hb. lra.
Qed.

(** The low-res bound [lr = int(max_size * s)], carried to the high-res
    side with the exact ratio, does not exceed [max_size]. *)
Lemma low_bound_cap (xh yh max_size lr : Z) (s : float) :
  1 <= xh < 2 ^ 25 -> 1 <= yh < 2 ^ 25 -> 0 <= max_size < 2 ^ 25 ->
  truediv xh yh = Ok s ->
  Py.int (int_mul max_size s) = Ok lr ->
  0 <= lr /\ lr * yh <= max_size * xh.
Proof.
  intros Hx Hy Hm Hs Hlr.
  destruct (Rounding.truediv_normal xh yh s Hx Hy Hs) as (Ns & _ & Su).
  pose proof (Rounding.normal_positive _ _ Ns) as Spos.
  split; [apply (Rounding.low_bound_nonneg 157 max_size lr s); auto; lia|].
  destruct (Z.eq_dec max_size 0) as [->|Hm0].
  { destruct s as [| | |[|] ms es]; simpl in Ns; try tauto.
    simpl in Hlr. assert (lr = 0) by congruence. lia. }
  destruct (Rounding.of_int_normal max_size) as [Nm Em]; [simpl in *; lia|].
  unfold int_mul, fmul in Hlr.
  destruct (Rounding.mul_normal 52 157 _ _ Nm Ns) as (Np & _ & Pu); try lia.
  destruct (Rounding.int_normal _ _ Np) as (z & Hz & _ & Zl & _).
  rewrite Hz in Hlr. assert (z = lr) by congruence. subst z. clear Hlr.
  rewrite Em in Pu.
  set (X := inject_Z xh) in *. set (Y := inject_Z yh) in *.
  set (M := inject_Z max_size) in *. set (L := inject_Z lr) in *. set (S := F2Q s) in *.
  assert (HY : (1 <= Y)%Q) by (unfold Y; rewrite <- (Zle_Qle 1); lia).
  assert (HM : (1 <= M)%Q) by (unfold M; rewrite <- (Zle_Qle 1); lia).
  assert (Heps : (eps == 1 # 4503599627370496)%Q) by reflexivity.
  assert (R : (L * Y <= M * X * ((1 + eps) * (1 + eps)))%Q).
  { assert (H : (M * S * (1 + eps) <= M * (X / Y * (1 + eps)) * (1 + eps))%Q).
    { apply Qmult_le_compat_r; [|lra].
      rewrite !(Qmult_comm M). apply Qmult_le_compat_r; [exact Su|lra]. }
    assert (H' : (L * Y <= M * (X / Y * (1 + eps)) * (1 + eps) * Y)%Q).
    { apply Qmult_le_compat_r; [|lra].
      eapply Qle_trans; [exact Zl|]. eapply Qle_trans; [exact Pu|exact H]. }
    setoid_replace (M * (X / Y * (1 + eps)) * (1 + eps) * Y)%Q
      with (M * X * ((1 + eps) * (1 + eps)))%Q in H' by (field; lra).
    exact H'. }
  apply (le_of_close (max_size * xh) (lr * yh)).
  - split; [nia|]. change (2 ^ 50) with (2 ^ 25 * 2 ^ 25). nia.
  - rewrite !inject_Z_mult. exact R.
Qed.

End Bounds.

(** X6.  For a pair with the same aspect ratio on both sides
    ([hi.w * lo.h = hi.h * lo.w]), dimensions from 1 to below 2^25 and
    [0 <= max_size < 2^25]: when [pair_crop_max] returns, the high-res
    result is at most [max_size] in each dimension, and neither result is
    larger than the image it comes from. *)
Theorem pair_crop_max_cap (x y : tensor) (max_size : Z) (x' y' : tensor) :
  let lo := low_res x y in
  let hi := high_res x y in
  let lo' := low_part x y (x', y') in
  let hi' := high_part x y (x', y') in
  1 <= shape_h lo -> 1 <= shape_w lo ->
  shape_h hi < 2 ^ 25 -> shape_w hi < 2 ^ 25 ->
  shape_w hi * shape_h lo = shape_h hi * shape_w lo ->
  0 <= max_size < 2 ^ 25 ->
  pair_crop_max x y max_size = Ok (x', y') ->
  shape_h hi' <= max_size /\ shape_w hi' <= max_size /\
  shape_h lo' <= shape_h lo /\ shape_w lo' <= shape_w lo /\
  shape_h hi' <= shape_h hi /\ shape_w hi' <= shape_w hi.
Proof.
  intros lo hi lo' hi' Hh Hw Bh Bw Hiso Hmax H.
  assert (Lh : shape_h lo <= shape_h hi).
  { unfold lo, hi, low_res, high_res. destruct (Z.leb_spec (shape_h x) (shape_h y)); lia. }
  apply pair_crop_max_sides, _pair_crop_max_ok in H. fold lo hi lo' hi' in H.
  destruct H as (s_h & s_w & lr & Hsh & Hsw & Hlr & H). cbv zeta in H.
  unfold lo', hi' in *. clear lo' hi'. clearbody lo hi.
  assert (Lw : shape_w lo <= shape_w hi) by nia.
  assert (Bxh : 1 <= shape_h lo < 2 ^ 25) by lia.
  assert (Bxw : 1 <= shape_w lo < 2 ^ 25) by lia.
  assert (Byh : 1 <= shape_h hi < 2 ^ 25) by lia.
  assert (Byw : 1 <= shape_w hi < 2 ^ 25) by lia.
  destruct (Bounds.low_bound_cap _ _ _ _ _ Bxh Byh Hmax Hsh Hlr) as [Hlr0 Hcap].
  destruct H as [(Fh & Fw & -> & ->)|(_ & lyh & lyw & Uh & Uw & Dh & Dw & -> & ->)].
  - repeat split; try lia; nia.
  - assert (Ch : 0 <= Z.min (shape_h lo) lr <= shape_h lo) by lia.
    assert (Cw : 0 <= Z.min (shape_w lo) lr <= shape_w lo) by lia.
    pose proof (Rounding.roundtrip_exact _ _ _ _ _ Bxh Byh Ch Hsh Uh Dh) as Eh.
    pose proof (Rounding.roundtrip_exact _ _ _ _ _ Bxw Byw Cw Hsw Uw Dw) as Ew.
    simpl shape_h. simpl shape_w.
    set (lxh := Z.min (shape_h lo) lr) in *. set (lxw := Z.min (shape_w lo) lr) in *.
    assert (Lxh : lxh <= lr) by (unfold lxh; lia).
    assert (Lxw : lxw <= lr) by (unfold lxw; lia).
    assert (Ew' : lyw * shape_h lo = lxw * shape_h hi).
    { assert (lyw * shape_h lo * shape_w lo = lxw * shape_h hi * shape_w lo) by nia.
      nia. }
    repeat split; try lia; nia.
Qed.

Lemma pair_crop_max_cap_witness :
  let x := Decoded "x" 256 256 in
  let y := Decoded "y" 1024 1024 in
  shape_h (NF.crop_ref y 0 0 128 128) <= 128 /\ shape_w (NF.crop_ref y 0 0 128 128) <= 128.
Proof.
  intros x y.
  assert (H : pair_crop_max x y 128
              = Ok (NF.crop_ref x 0 0 32 32, NF.crop_ref y 0 0 128 128))
    by (vm_compute; reflexivity).
  pose proof (pair_crop_max_cap x y 128 _ _ ltac:(simpl; lia) ltac:(simpl; lia)
                ltac:(simpl; lia) ltac:(simpl; lia) ltac:(simpl; lia) ltac:(lia) H) as C.
  exact (conj (proj1 C) (proj1 (proj2 C))).
Defined.

(** X7.  For a pair of images with dimensions from 1 to below 2^25 and a
    [max_size] that is not negative: when [pair_split_image] returns,
    every low-res tile lies inside the low-res image and every high-res
    tile lies inside the high-res image. *)
Theorem pair_split_image_inside (x y : tensor) (max_size : Z) (step : Py.float)
        (xs ys : list tensor) :
  let lo := low_res x y in
  let hi := high_res x y in
  1 <= shape_h lo < 2 ^ 25 -> 1 <= shape_w lo < 2 ^ 25 ->
  1 <= shape_h hi < 2 ^ 25 -> 1 <= shape_w hi < 2 ^ 25 ->
  0 <= max_size ->
  pair_split_image x y max_size step = Ok (xs, ys) ->
  Forall2 (tiles_inside lo hi) (low_part x y (xs, ys)) (high_part x y (xs, ys)).
Proof.
  intros lo hi Bxh Bxw Byh Byw Hmax H.
  apply pair_split_image_sides, _pair_split_image_ok in H. fold lo hi in H.
  destruct H as (s_h & s_w & lr & Hsh & Hsw & Hlr & _ & H). cbv zeta in H.
  clearbody lo hi.
  destruct H as [(_ & _ & -> & ->)
                |(_ & step_h & step_w & rows & ts & _ & _ & Hrows & -> & -> & _ & Ht)].
  - constructor; [|constructor]. left. auto.
  - destruct (Rounding.truediv_normal _ _ _ Bxh Byh Hsh) as (Ns & _).
    pose proof (Rounding.low_bound_nonneg _ _ _ _ Hmax Ns Hlr) as Hlr0.
    set (crop_h := Z.min (shape_h lo) lr) in *.
    set (crop_w := Z.min (shape_w lo) lr) in *.
    assert (Ch : 0 <= crop_h <= shape_h lo) by (unfold crop_h; lia).
    assert (Cw : 0 <= crop_w <= shape_w lo) by (unfold crop_w; lia).
    apply Forall2_fst_snd. eapply Forall_impl; [|exact Ht].
    intros t (i & j & Hi & Hj & Hp).
    assert (Bi : 0 <= i < shape_h lo - crop_h + 1)
      by exact (range_bounds _ _ _ i Hrows ltac:(lia) Hi).
    assert (Bj : 0 <= j < shape_w lo - crop_w + 1).
    { destruct (Py.range 0 (shape_w lo - crop_w + 1) step_w) as [cols|e] eqn:Ec;
        simpl in Hj; [|destruct Hj].
      exact (range_bounds _ _ _ j Ec ltac:(lia) Hj). }
    apply pair_tile_ok in Hp.
    destruct Hp as (yi & yj & yh & yw & -> & Ui & Di & Uj & Dj & Uh & Dh & Uw & Dw).
    right. exists i, j, crop_h, crop_w, yi, yj, yh, yw. simpl.
    assert (Bi' : 0 <= i <= shape_h lo) by lia.
    assert (Bj' : 0 <= j <= shape_w lo) by lia.
    pose proof (Rounding.roundtrip_exact _ _ _ _ _ Bxh Byh Bi' Hsh Ui Di) as Ei.
    pose proof (Rounding.roundtrip_exact _ _ _ _ _ Bxh Byh Ch Hsh Uh Dh) as Eh.
    pose proof (Rounding.roundtrip_exact _ _ _ _ _ Bxw Byw Bj' Hsw Uj Dj) as Ej.
    pose proof (Rounding.roundtrip_exact _ _ _ _ _ Bxw Byw Cw Hsw Uw Dw) as Ew.
    assert (Si : (yi + yh) * shape_h lo = (i + crop_h) * shape_h hi) by lia.
    assert (Sj : (yj + yw) * shape_w lo = (j + crop_w) * shape_w hi) by lia.
    repeat split; try lia; nia.
Qed.

Lemma pair_split_image_inside_witness :
  let x := Decoded "x" 4 4 in
  let y := Decoded "y" 8 8 in
  Forall2 (tiles_inside x y)
    (flat_map (fun i => map (fun j => NF.crop x i j 2 2) [0; 1; 2]) [0; 1; 2])
    (flat_map (fun i => map (fun j => NF.crop y i j 4 4) [0; 2; 4]) [0; 2; 4]).
Proof.
  intros x y.
  refine (pair_split_image_inside x y 4 Py.lit_0_5 _ _ _ _ _ _ _ _).
  - simpl. lia.
  - simpl. lia.
  - simpl. lia.
  - simpl. lia.
  - lia.
  - vm_compute. reflexivity.
Defined.

(** ** Pairs of images of the same size *)

Module Exact.

Import Py.

Lemma shr_1_even (m : Z) :
  0 <= m ->
  shr_1 {| shr_m := 2 * m; shr_r := false; shr_s := false |}
  = {| shr_m := m; shr_r := false; shr_s := false |}.
Proof. intros Hm. destruct m as [|p|p]; try lia; reflexivity. Qed.

Lemma iter_pos_xI {A} (f : A -> A) (p : positive) (x : A) :
  SpecFloat.iter_pos f p~1 x = SpecFloat.iter_pos f p (SpecFloat.iter_pos f p (f x)).
Proof. reflexivity. Qed.

Lemma iter_pos_xO {A} (f : A -> A) (p : positive) (x : A) :
  SpecFloat.iter_pos f p~0 x = SpecFloat.iter_pos f p (SpecFloat.iter_pos f p x).
Proof. reflexivity. Qed.

Lemma iter_shr_exact (p : positive) :
  forall m, 0 <= m ->
    SpecFloat.iter_pos shr_1 p {| shr_m := m * 2 ^ Zpos p; shr_r := false; shr_s := false |}
    = {| shr_m := m; shr_r := false; shr_s := false |}.
Proof.
  induction p as [p IH|p IH|]; intros m Hm.
  - rewrite Rounding.pow2_xI, iter_pos_xI.
    assert (Hp : 0 < 2 ^ Zpos p) by (apply Z.pow_pos_nonneg; lia).
    replace (m * (2 * (2 ^ Zpos p * 2 ^ Zpos p)))
      with (2 * (m * 2 ^ Zpos p * 2 ^ Zpos p)) by ring.
    rewrite shr_1_even by nia. rewrite IH by nia. apply IH. assumption.
  - rewrite Rounding.pow2_xO, iter_pos_xO.
    assert (Hp : 0 < 2 ^ Zpos p) by (apply Z.pow_pos_nonneg; lia).
    replace (m * (2 ^ Zpos p * 2 ^ Zpos p)) with (m * 2 ^ Zpos p * 2 ^ Zpos p) by ring.
    rewrite IH by nia. apply IH. assumption.
  - change (2 ^ 1) with 2. rewrite Z.mul_comm.
    change (SpecFloat.iter_pos shr_1 1 ?x) with (shr_1 x).
    apply shr_1_even. assumption.
Qed.

(** A mantissa of 53 bits followed by [n] zero bits rounds to itself. *)
Lemma round_exact_shift (sx : bool) (mx m : positive) (ex n : Z) :
  Zpos (digits2_pos m) = 53 -> 0 <= n -> Zpos mx = Zpos m * 2 ^ n ->
  -900 <= ex -> ex + n <= 900 ->
  binary_round_aux prec emax sx (Zpos mx) ex loc_Exact = S754_finite sx m (ex + n).
Proof.
  intros Hd Hn Hmx Hex Hexn.
  pose proof (Rounding.digits2_bounds m) as [Bl Bu]. rewrite Hd in Bl, Bu.
  assert (Hp : 0 < 2 ^ n) by (apply Z.pow_pos_nonneg; lia).
  assert (Hdx : Zpos (digits2_pos mx) = 53 + n).
  { apply Rounding.digits2_unique. rewrite Hmx.
    replace (53 + n - 1) with (52 + n) by lia. rewrite !Z.pow_add_r by lia.
    simpl in Bl, Bu. nia. }
  unfold binary_round_aux, shr_fexp. simpl Zdigits2. rewrite Hdx.
  rewrite (Rounding.fexp_normal (53 + n + ex)) by lia.
  replace (53 + n + ex - 53 - ex) with n by lia.
  assert (Hshr : shr (shr_record_of_loc (Zpos mx) loc_Exact) ex n
                 = ({| shr_m := Zpos m; shr_r := false; shr_s := false |}, ex + n)).
  { destruct n as [|p|p]; try lia.
    - simpl. rewrite Z.add_0_r. f_equal. f_equal. simpl in Hmx. lia.
    - simpl shr. simpl shr_record_of_loc. rewrite Hmx.
      rewrite iter_shr_exact by lia. reflexivity. }
  rewrite Hshr. simpl loc_of_shr_record. simpl round_nearest_even. simpl shr_m.
  simpl Zdigits2. rewrite Hd.
  rewrite (Rounding.fexp_normal (53 + (ex + n))) by lia.
  replace (53 + (ex + n) - 53 - (ex + n)) with 0 by lia.
  simpl shr. cbn [shr_m fst snd].
  assert (Hle : (ex + n <=? emax - prec) = true)
    by (apply Z.leb_le; unfold emax, prec; lia).
  rewrite Hle. reflexivity.
Qed.

Lemma of_int_finite (n : Z) :
  1 <= n < 2 ^ 53 ->
  exists m e, of_int n = S754_finite false m e /\
              Zpos (digits2_pos m) = 53 /\ -52 <= e <= 52.
Proof.
  intros Hn. destruct (Rounding.of_int_normal n Hn) as [Nn _].
  destruct (of_int n) as [| | |[|] m e]; simpl in Nn; try tauto.
  exists m, e. split; [reflexivity|]. split; [|lia].
  apply Rounding.digits2_unique. simpl. lia.
Qed.

(** [int(float(k)) = k] below 2^53. *)
Lemma int_of_int (k : Z) : 0 <= k < 2 ^ 53 -> Py.int (of_int k) = Ok k.
Proof.
  intros Hk. destruct (Z.eq_dec k 0) as [->|Hk0]; [reflexivity|].
  destruct (Rounding.of_int_normal k) as [Nk Ek]; [lia|].
  destruct (Rounding.int_normal _ _ Nk) as (z & Hz & _ & Zl & Zu).
  rewrite Hz. f_equal. rewrite Ek in Zl, Zu.
  rewrite <- Zle_Qle in Zl. rewrite <- Zlt_Qlt in Zu. lia.
Qed.

(** [n / n] is [1.0]. *)
Lemma truediv_same (n : Z) : 1 <= n < 2 ^ 53 -> truediv n n = Ok float_one.
Proof.
  intros Hn. unfold truediv. destruct (Z.eqb_spec n 0); [lia|]. f_equal.
  destruct (of_int_finite n Hn) as (m & e & -> & Hd & He).
  pose proof (Rounding.digits2_bounds m) as [Bl Bu]. rewrite Hd in Bl, Bu.
  unfold SFdiv, SFdiv_core_binary. simpl Zdigits2. rewrite Hd.
  replace (53 + e - (53 + e)) with 0 by lia.
  replace (e - e) with 0 by lia.
  change (Z.min (SpecFloat.fexp prec emax 0) 0) with (-53).
  change (0 - -53) with 53. cbv iota.
  rewrite (Z.shiftl_mul_pow2 (Zpos m) 53) by lia.
  pose proof (Z_div_mod (Zpos m * 2 ^ 53) (Zpos m) ltac:(lia)) as Hdm.
  destruct (Z.div_eucl (Zpos m * 2 ^ 53) (Zpos m)) as [q r].
  destruct Hdm as [Hq Hr].
  assert (q = 2 ^ 53 /\ r = 0) as [-> ->].
  { apply (Z.div_mod_unique (Zpos m)); [left; lia|left; lia|lia]. }
  assert (Hloc : new_location (Zpos m) 0 = loc_Exact).
  { unfold new_location, new_location_even, new_location_odd.
    destruct (Z.even (Zpos m)); reflexivity. }
  rewrite Hloc. reflexivity.
Qed.

(** [k * 1.0] and [k / 1.0] are [float(k)]. *)
Lemma int_mul_one (k : Z) : 0 <= k < 2 ^ 53 -> int_mul k float_one = of_int k.
Proof.
  intros Hk. destruct (Z.eq_dec k 0) as [->|Hk0]; [reflexivity|].
  destruct (of_int_finite k) as (m & e & E & Hd & He); [lia|].
  unfold int_mul, fmul. rewrite E. unfold float_one, SFmul. simpl xorb.
  rewrite (round_exact_shift false _ m (e + -52) 52)
    by (try lia; rewrite Pos2Z.inj_mul; reflexivity).
  f_equal. lia.
Qed.

Lemma int_div_one (k : Z) : 0 <= k < 2 ^ 53 -> int_div k float_one = Ok (of_int k).
Proof.
  intros Hk. unfold int_div, fdiv. simpl is_zero. f_equal.
  destruct (Z.eq_dec k 0) as [->|Hk0]; [reflexivity|].
  destruct (of_int_finite k) as (m & e & E & Hd & He); [lia|].
  pose proof (Rounding.digits2_bounds m) as [Bl Bu]. rewrite Hd in Bl, Bu.
  rewrite E. unfold float_one, SFdiv, SFdiv_core_binary. simpl Zdigits2. rewrite Hd.
  change (Zpos (digits2_pos 4503599627370496)) with 53.
  replace (53 + e - (53 + -52)) with (e + 52) by lia.
  rewrite (Rounding.fexp_normal (e + 52)) by lia.
  replace (Z.min (e + 52 - 53) (e - -52)) with (e - 1) by lia.
  replace (e - -52 - (e - 1)) with 53 by lia. cbv iota.
  rewrite (Z.shiftl_mul_pow2 (Zpos m) 53) by lia.
  pose proof (Z_div_mod (Zpos m * 2 ^ 53) 4503599627370496 ltac:(lia)) as Hdm.
  destruct (Z.div_eucl (Zpos m * 2 ^ 53) 4503599627370496) as [q r].
  destruct Hdm as [Hq Hr].
  assert (q = Zpos m * 2 /\ r = 0) as [-> ->].
  { apply (Z.div_mod_unique 4503599627370496); [left; lia|left; lia|].
    change (2 ^ 53) with (4503599627370496 * 2) in Hq. lia. }
  change (new_location 4503599627370496 0) with loc_Exact.
  simpl xorb. change (Zpos m * 2) with (Zpos (m * 2)).
  rewrite (round_exact_shift false _ m (e - 1) 1)
    by (try lia; rewrite Pos2Z.inj_mul; reflexivity).
  replace (e - 1 + 1) with e by lia. reflexivity.
Qed.

(** With the scale [1.0] a length is carried up and down unchanged. *)
Lemma scale_one (k : Z) :
  0 <= k < 2 ^ 53 ->
  scale_up k float_one = Ok k /\ scale_down k float_one = Ok k /\
  aligned k float_one = Ok true.
Proof.
  intros Hk.
  assert (Hu : scale_up k float_one = Ok k).
  { unfold scale_up. rewrite int_div_one by assumption. simpl bind.
    apply int_of_int. assumption. }
  assert (Hd : scale_down k float_one = Ok k).
  { unfold scale_down. rewrite int_mul_one by assumption. apply int_of_int. assumption. }
  repeat split; try assumption.
  unfold aligned. rewrite Hu. simpl bind. rewrite Hd. simpl bind.
  rewrite Z.eqb_refl. reflexivity.
Qed.

End Exact.

(** X8.  On two images of the same size (dimensions from 1 to below
    2^53, [0 <= max_size < 2^53]) [pair_crop_max] crops each image as
    [crop_max] does. *)
Theorem pair_crop_max_same_size (x y : tensor) (max_size : Z) :
  shape_h y = shape_h x -> shape_w y = shape_w x ->
  1 <= shape_h x < 2 ^ 53 -> 1 <= shape_w x < 2 ^ 53 ->
  0 <= max_size < 2 ^ 53 ->
  pair_crop_max x y max_size = Ok (crop_max x max_size, crop_max y max_size).
Proof.
  intros Eh Ew Hh Hw Hm. unfold pair_crop_max. rewrite Eh, Z.leb_refl.
  unfold _pair_crop_max, crop_max. rewrite Eh, Ew.
  rewrite !Exact.truediv_same by assumption. simpl bind.
  rewrite Z.leb_refl. simpl bind.
  rewrite Exact.int_mul_one, Exact.int_of_int by assumption. simpl bind.
  destruct (negb (Z.min (shape_h x) max_size =? shape_h x)
            || negb (Z.min (shape_w x) max_size =? shape_w x)); [|reflexivity].
  destruct (Exact.scale_one (Z.min (shape_h x) max_size)) as (Uh & Dh & _); [lia|].
  destruct (Exact.scale_one (Z.min (shape_w x) max_size)) as (Uw & Dw & _); [lia|].
  rewrite Uh, Uw. simpl bind. rewrite Dh. simpl bind. rewrite Z.eqb_refl, Dw. simpl bind.
  rewrite Z.eqb_refl. reflexivity.
Qed.

Lemma pair_crop_max_same_size_witness :
  pair_crop_max (Decoded "x" 1000 500) (Decoded "y" 1000 500) 400
  = Ok (NF.crop_ref (Decoded "x" 1000 500) 0 0 400 400,
        NF.crop_ref (Decoded "y" 1000 500) 0 0 400 400).
Proof.
  apply (pair_crop_max_same_size (Decoded "x" 1000 500) (Decoded "y" 1000 500) 400).
  - reflexivity.
  - reflexivity.
  - simpl. lia.
  - simpl. lia.
  - lia.
Defined.

(** With the scale [1.0] the body of the loop of [_pair_split_image]
    appends the tiles at the same offset on both sides. *)
Lemma pair_body_one (x y : tensor) (crop_h crop_w i j : Z) (xs ys : list tensor) :
  0 <= crop_h < 2 ^ 53 -> 0 <= crop_w < 2 ^ 53 -> 0 <= i < 2 ^ 53 -> 0 <= j < 2 ^ 53 ->
  pair_body x y crop_h crop_w float_one float_one i j (xs, ys)
  = Ok (xs ++ [NF.crop x i j crop_h crop_w], ys ++ [NF.crop y i j crop_h crop_w]).
Proof.
  intros Hh Hw Hi Hj.
  destruct (Exact.scale_one crop_h Hh) as (Uh & _ & Ah).
  destruct (Exact.scale_one crop_w Hw) as (Uw & _ & Aw).
  destruct (Exact.scale_one i Hi) as (Ui & _ & Ai).
  destruct (Exact.scale_one j Hj) as (Uj & _ & Aj).
  unfold pair_body, tile_aligned. rewrite Ai. simpl bind. rewrite Aj. simpl bind.
  rewrite Ah. simpl bind. rewrite Aw. simpl bind.
  rewrite Ui. simpl bind. rewrite Uj. simpl bind. rewrite Uh. simpl bind.
  rewrite Uw. reflexivity.
Qed.

Lemma pair_loops_one (x y : tensor) (crop_h crop_w : Z) (rows cols : list Z) :
  0 <= crop_h < 2 ^ 53 -> 0 <= crop_w < 2 ^ 53 ->
  (forall i, In i rows -> 0 <= i < 2 ^ 53) ->
  (forall j, In j cols -> 0 <= j < 2 ^ 53) ->
  forall xs ys,
    for_each rows (fun i images =>
      for_each cols (pair_body x y crop_h crop_w float_one float_one i) images) (xs, ys)
    = Ok (xs ++ flat_map (fun i => map (fun j => NF.crop x i j crop_h crop_w) cols) rows,
          ys ++ flat_map (fun i => map (fun j => NF.crop y i j crop_h crop_w) cols) rows).
Proof.
  intros Hh Hw Hrows Hcols.
  assert (Hinner : forall i, 0 <= i < 2 ^ 53 -> forall cs,
             (forall j, In j cs -> 0 <= j < 2 ^ 53) -> forall xs ys,
             for_each cs (pair_body x y crop_h crop_w float_one float_one i) (xs, ys)
             = Ok (xs ++ map (fun j => NF.crop x i j crop_h crop_w) cs,
                   ys ++ map (fun j => NF.crop y i j crop_h crop_w) cs)).
  { intros i Hi cs. induction cs as [|j cs IH]; intros Hcs xs ys; cbn [for_each map].
    - now rewrite !app_nil_r.
    - rewrite pair_body_one by (auto; apply Hcs; now left). simpl bind.
      rewrite IH by (intros; apply Hcs; now right). rewrite <- !app_assoc. reflexivity. }
  induction rows as [|i rows IH]; intros xs ys; cbn [for_each flat_map].
  - now rewrite !app_nil_r.
  - rewrite Hinner by (auto; apply Hrows; now left). simpl bind.
    rewrite IH by (intros; apply Hrows; now right). rewrite <- !app_assoc. reflexivity.
Qed.

(** X9.  On two images of the same size (dimensions from 1 to below
    2^53, [0 <= max_size < 2^53]) [pair_split_image] returns the tiles of
    [split_image] for each image, and raises what [split_image] raises. *)
Theorem pair_split_image_same_size (x y : tensor) (max_size : Z) (step : Py.float) :
  shape_h y = shape_h x -> shape_w y = shape_w x ->
  1 <= shape_h x < 2 ^ 53 -> 1 <= shape_w x < 2 ^ 53 ->
  0 <= max_size < 2 ^ 53 ->
  pair_split_image x y max_size step
  = xs <- split_image x max_size step ;; ys <- split_image y max_size step ;; Ok (xs, ys).
Proof.
  intros Eh Ew Hh Hw Hm. unfold pair_split_image. rewrite Eh, Z.leb_refl.
  unfold _pair_split_image, split_image. rewrite Eh, Ew.
  rewrite !Exact.truediv_same by assumption. simpl bind.
  rewrite Z.leb_refl. simpl bind.
  rewrite Exact.int_mul_one, Exact.int_of_int by assumption. simpl bind.
  set (crop_h := Z.min (shape_h x) max_size).
  set (crop_w := Z.min (shape_w x) max_size).
  assert (Hc : negb (shape_h x =? crop_h) || negb (shape_w x =? crop_w)
               = (max_size <? shape_h x) || (max_size <? shape_w x)).
  { unfold crop_h, crop_w.
    destruct (Z.eqb_spec (shape_h x) (Z.min (shape_h x) max_size));
      destruct (Z.eqb_spec (shape_w x) (Z.min (shape_w x) max_size));
      destruct (Z.ltb_spec max_size (shape_h x));
      destruct (Z.ltb_spec max_size (shape_w x)); simpl; lia. }
  rewrite Hc. destruct ((max_size <? shape_h x) || (max_size <? shape_w x)); [|reflexivity].
  destruct (Py.int (Py.int_mul crop_h step)) as [step_h|e]; [simpl bind|reflexivity].
  destruct (Py.int (Py.int_mul crop_w step)) as [step_w|e]; [simpl bind|reflexivity].
  destruct (Py.range 0 (shape_h x - crop_h + 1) step_h) as [rows|e] eqn:Hrows;
    [simpl bind|reflexivity].
  assert (Bh : 0 <= crop_h < 2 ^ 53) by (unfold crop_h; lia).
  assert (Bw : 0 <= crop_w < 2 ^ 53) by (unfold crop_w; lia).
  destruct (Py.range 0 (shape_w x - crop_w + 1) step_w) as [cols|e] eqn:Hcols.
  - simpl bind.
    rewrite !(for_each_collect_nested (fun i j => NF.crop _ i j crop_h crop_w)).
    simpl bind. simpl app.
    apply (pair_loops_one x y crop_h crop_w rows cols Bh Bw).
    + intros i Hi. pose proof (range_bounds _ _ _ i Hrows ltac:(lia) Hi). lia.
    + intros j Hj. pose proof (range_bounds _ _ _ j Hcols ltac:(lia) Hj). lia.
  - destruct rows as [|i rows]; reflexivity.
Qed.

Lemma pair_split_image_same_size_witness :
  pair_split_image (Decoded "x" 4 4) (Decoded "y" 4 4) 2 (S754_finite false 4503599627370496 (-52))
  = Ok (flat_map (fun i => map (fun j => NF.crop (Decoded "x" 4 4) i j 2 2) [0; 2]) [0; 2],
        flat_map (fun i => map (fun j => NF.crop (Decoded "y" 4 4) i j 2 2) [0; 2]) [0; 2]).
Proof.
  refine (eq_trans (pair_split_image_same_size (Decoded "x" 4 4) (Decoded "y" 4 4) 2
                      (S754_finite false 4503599627370496 (-52)) _ _ _ _ _) _).
  - reflexivity.
  - reflexivity.
  - simpl. lia.
  - simpl. lia.
  - lia.
  - vm_compute. reflexivity.
Defined.

(** ** Dictionaries *)

Lemma dict_get_set_eq {V} (k : string) (v : V) (d : dict V) :
  dict_get k (dict_set k v d) = Some v.
Proof.
  induction d as [|[k' v'] d IH]; simpl.
  - now rewrite String.eqb_refl.
  - destruct (String.eqb k k') eqn:E; simpl.
    + now rewrite String.eqb_refl.
    + now rewrite E.
Qed.

Lemma dict_get_set_neq {V} (k k' : string) (v : V) (d : dict V) :
  k <> k' -> dict_get k' (dict_set k v d) = dict_get k' d.
Proof.
  intros Hne. induction d as [|[k0 v0] d IH]; simpl.
  - destruct (String.eqb_spec k' k); congruence.
  - destruct (String.eqb_spec k k0) as [->|]; simpl.
    + destruct (String.eqb_spec k' k0); congruence.
    + now rewrite IH.
Qed.

Lemma dict_keys_set {V} (k : string) (v : V) (d : dict V) :
  dict_keys (dict_set k v d)
  = if dict_mem k d then dict_keys d else dict_keys d ++ [k].
Proof.
  unfold dict_mem. induction d as [|[k0 v0] d IH]; simpl; [reflexivity|].
  destruct (String.eqb_spec k k0) as [->|]; simpl; [reflexivity|].
  rewrite IH. destruct (dict_get k d); reflexivity.
Qed.

Lemma dict_mem_keys {V} (k : string) (d : dict V) :
  dict_mem k d = true <-> In k (dict_keys d).
Proof.
  unfold dict_mem. split.
  - induction d as [|[k0 v0] d IH]; simpl; [discriminate|].
    destruct (String.eqb_spec k k0); auto.
  - intros H. destruct (dict_get_keys k d H) as (v & ->). reflexivity.
Qed.

Lemma dict_set_NoDup {V} (k : string) (v : V) (d : dict V) :
  NoDup (dict_keys d) -> NoDup (dict_keys (dict_set k v d)).
Proof.
  intros H. rewrite dict_keys_set. destruct (dict_mem k d) eqn:E; [assumption|].
  apply NoDup_app; [assumption|repeat constructor; simpl; tauto|].
  intros a Ha [<-|[]]. apply dict_mem_keys in Ha. congruence.
Qed.

(** ** The directory listing *)

Section DirectoryProperties.

Variable filename2key : string -> bool -> string.
Variable listdir : string -> list string.

Local Abbreviation add_file := (fun (data : dict entry) (src : string) =>
  dict_set (filename2key src false) {| src := src; options := [] |} data).

Lemma add_files_NoDup (files : list string) :
  forall data, NoDup (dict_keys data) -> NoDup (dict_keys (fold_left add_file files data)).
Proof.
  induction files as [|s files IH]; intros data H; simpl; [assumption|].
  apply IH, dict_set_NoDup, H.
Qed.

Lemma add_files_keep (files : list string) (k : string) :
  forall data, (forall s, In s files -> filename2key s false <> k) ->
    dict_get k (fold_left add_file files data) = dict_get k data.
Proof.
  induction files as [|s files IH]; intros data H; simpl; [reflexivity|].
  rewrite IH by (intros; apply H; now right).
  apply dict_get_set_neq, H. now left.
Qed.

Lemma add_files_mem (files : list string) :
  forall data k, In k (dict_keys data) \/ In k (map (fun s => filename2key s false) files) ->
    In k (dict_keys (fold_left add_file files data)).
Proof.
  induction files as [|s files IH]; intros data k H; simpl in *; [tauto|].
  apply IH. rewrite dict_keys_set.
  destruct (dict_mem (filename2key s false) data) eqn:E.
  - destruct H as [H|[<-|H]]; auto. left. now apply dict_mem_keys.
  - rewrite in_app_iff. simpl. tauto.
Qed.

Lemma add_files_get (files : list string) :
  forall data k e, dict_get k (fold_left add_file files data) = Some e ->
    dict_get k data = Some e \/
    (In (src e) files /\ filename2key (src e) false = k /\ options e = []).
Proof.
  induction files as [|s files IH]; intros data k e H; simpl in *; [auto|].
  destruct (IH _ _ _ H) as [H'|(Hin & Hk & Ho)]; [|auto].
  destruct (String.eqb_spec (filename2key s false) k) as [<-|Hne].
  - rewrite dict_get_set_eq in H'. injection H' as <-. simpl. auto.
  - rewrite dict_get_set_neq in H' by assumption. auto.
Qed.

(** X10.  [load_files_from_dir] returns one entry per key: every listed
    file has its key in the result, every entry is a listed file stored
    under its own key with no options, and of several files with one key
    the last one listed is kept. *)
Theorem load_files_from_dir_entries (directory : string) :
  let data := load_files_from_dir filename2key listdir directory in
  NoDup (dict_keys data) /\
  (forall s, In s (listdir directory) -> dict_mem (filename2key s false) data = true) /\
  (forall k e, dict_get k data = Some e ->
     In (src e) (listdir directory) /\ filename2key (src e) false = k /\ options e = []) /\
  (forall before s after,
     listdir directory = before ++ s :: after ->
     (forall s', In s' after -> filename2key s' false <> filename2key s false) ->
     dict_get (filename2key s false) data = Some {| src := s; options := [] |}).
Proof.
  unfold load_files_from_dir. repeat split.
  - apply add_files_NoDup. constructor.
  - intros s Hs. apply dict_mem_keys, add_files_mem. right.
    apply in_map_iff. eauto.
  - destruct (add_files_get _ _ _ _ H) as [H'|(Hin & _)]; [discriminate|assumption].
  - destruct (add_files_get _ _ _ _ H) as [H'|(_ & Hk & _)]; [discriminate|assumption].
  - destruct (add_files_get _ _ _ _ H) as [H'|(_ & _ & Ho)]; [discriminate|assumption].
  - intros before s after -> Hafter. rewrite fold_left_app. simpl.
    rewrite add_files_keep by assumption. apply dict_get_set_eq.
Qed.

End DirectoryProperties.

(** ** Output names *)

Lemma string_length_append (s t : string) :
  String.length (s ++ t) = (String.length s + String.length t)%nat.
Proof. induction s as [|c s IH]; simpl; congruence. Qed.

Lemma string_append_cancel_l (s t1 t2 : string) :
  (s ++ t1 = s ++ t2)%string -> t1 = t2.
Proof. induction s as [|c s IH]; simpl; [auto|]. intros H. injection H as H. auto. Qed.

Lemma string_append_cancel_r (t s1 s2 : string) :
  (s1 ++ t = s2 ++ t)%string -> s1 = s2.
Proof.
  revert s2. induction s1 as [|c s1 IH]; intros [|c2 s2] H; simpl in H.
  - reflexivity.
  - apply (f_equal String.length) in H. simpl in H.
    rewrite string_length_append in H. lia.
  - apply (f_equal String.length) in H. simpl in H.
    rewrite string_length_append in H. lia.
  - injection H as -> H. f_equal. auto.
Qed.

(** Reading the digits of [format_03d] gives the number back: the padding
    zeros do not count. *)
Lemma zeros_decode (k : nat) (s : string) (d : Decimal.uint) :
  NilEmpty.uint_of_string s = Some d ->
  exists d', NilEmpty.uint_of_string (zeros k ++ s) = Some d' /\ N.of_uint d' = N.of_uint d.
Proof.
  intros H. induction k as [|k (d' & E & V)]; simpl.
  - eauto.
  - rewrite E. exists (Decimal.D0 d'). split; [reflexivity|exact V].
Qed.

Lemma format_03d_decode (no : Z) :
  exists d, NilEmpty.uint_of_string (format_03d no) = Some d /\ N.of_uint d = Z.to_N no.
Proof.
  unfold format_03d.
  set (u := N.to_uint (Z.to_N no)).
  assert (Hu : u <> Decimal.Nil).
  { unfold u. destruct (Z.to_N no); simpl; [discriminate|].
    apply DecimalPos.Unsigned.to_uint_nonnil. }
  assert (E : NilEmpty.uint_of_string (NilZero.string_of_uint u) = Some u).
  { pose proof (NilZero.usu u Hu) as H. unfold NilZero.uint_of_string in H.
    destruct (NilZero.string_of_uint u); [discriminate|exact H]. }
  destruct (zeros_decode (3 - String.length (NilZero.string_of_uint u)) _ _ E) as (d & Ed & V).
  exists d. split; [exact Ed|]. rewrite V. apply DecimalN.Unsigned.of_to.
Qed.

Lemma format_03d_inj (n m : Z) :
  0 <= n -> 0 <= m -> format_03d n = format_03d m -> n = m.
Proof.
  intros Hn Hm H.
  destruct (format_03d_decode n) as (d & E & V).
  destruct (format_03d_decode m) as (d' & E' & V').
  rewrite H in E. assert (d = d') by congruence. subst d'. lia.
Qed.

Section OutputNames.

Variable filename2key : string -> bool -> string.
Variable use_subdir_default : bool.

Local Abbreviation output_name := (make_output_name filename2key use_subdir_default).

(** X11.  The output names of one file tell the tile numbers apart: two
    names are equal only for the same number, or when neither is
    numbered ([no < 0]). *)
Theorem make_output_name_distinct (filename : string) (n m : Z) :
  make_output_name filename2key use_subdir_default filename n
  = make_output_name filename2key use_subdir_default filename m ->
  n = m \/ (n < 0 /\ m < 0).
Proof.
  unfold make_output_name. simpl.
  destruct (Z.leb_spec 0 n) as [Hn|Hn]; destruct (Z.leb_spec 0 m) as [Hm|Hm]; intros H.
  - left. apply string_append_cancel_l in H.
    change (String "." (format_03d n ++ ".sz") = String "." (format_03d m ++ ".sz"))%string in H.
    injection H as H. apply string_append_cancel_r in H. now apply format_03d_inj.
  - exfalso. apply (f_equal String.length) in H.
    rewrite !string_length_append in H. simpl in H.
    rewrite !string_length_append in H. simpl in H. lia.
  - exfalso. apply (f_equal String.length) in H.
    rewrite !string_length_append in H. simpl in H.
    rewrite !string_length_append in H. simpl in H. lia.
  - right. lia.
Qed.

End OutputNames.

Lemma make_output_name_distinct_witness :
  make_output_name (fun s _ => s) false "a.png" 7 = "a.png.007.sz" /\
  make_output_name (fun s _ => s) false "a.png" 7
  = make_output_name (fun s _ => s) false "a.png" (3 + 4) /\
  (7 = 3 + 4 \/ (7 < 0 /\ 3 + 4 < 0)).
Proof.
  split; [reflexivity|]. split; [reflexivity|].
  apply (make_output_name_distinct (fun s _ => s) false "a.png" 7 (3 + 4)). reflexivity.
Defined.

(** ** [main] *)

Lemma io_bind_return_0 (c : io unit) :
  io_bind c (fun _ => ([], Ok 0)) = then_return_0 c.
Proof.
  destruct c as [t [[]|e]]; unfold then_return_0; simpl; [rewrite app_nil_r|]; reflexivity.
Qed.

Lemma io_bind_lift_raise {A B} (e : exn) (k : A -> io B) :
  io_bind (lift (Raise e)) k = ([], Raise e).
Proof. reflexivity. Qed.

Section MainProperties.

Variable filename2key : string -> bool -> string.
Variable use_subdir_default : bool.
Variable listdir : string -> list string.
Variable image_loader : string -> pil_image * meta.
Variable csv_reader : string -> list (list string).
Variable path_isdir : string -> bool.
Variable path_exists : string -> bool.
Variable path_ext : string -> string.

Local Abbreviation load := (load_side filename2key listdir csv_reader path_isdir path_ext).
Local Abbreviation run :=
(main filename2key use_subdir_default listdir image_loader csv_reader
      path_isdir path_exists path_ext).
Local Abbreviation convert :=
(convert_data filename2key use_subdir_default image_loader path_exists).

(** X12.  Options that fail one of the three checks of [main] end the run
    with a [ValueError] before anything is loaded or written. *)
Theorem main_rejects_options (args : Args.t) :
  (Args.split_image args = true /\ Args.max_size args <= 0) \/
  ((0 < Args.pad_x args \/ 0 < Args.pad_y args) /\ 0 < Args.max_size args) \/
  (Args.input args = None /\
   (0 < Args.pad_x args \/ Args.zero_pad_x args = true \/ Args.grayscale_x args = true)) ->
  exists msg, run args = ([], Raise (ValueError msg)).
Proof.
  intros H. unfold main.
  destruct (Args.split_image args && negb (0 <? Args.max_size args)) eqn:E1;
    [eexists; reflexivity|].
  destruct (((0 <? Args.pad_x args) || (0 <? Args.pad_y args)) && (0 <? Args.max_size args))
    eqn:E2; [eexists; reflexivity|].
  rewrite !io_bind_lift_ok.
  destruct H as [[Hs Hm]|[[Hp Hm]|[Hi Hx]]].
  - rewrite Hs in E1. destruct (Z.ltb_spec 0 (Args.max_size args)); [lia|discriminate].
  - destruct (Z.ltb_spec 0 (Args.max_size args)); [|lia].
    destruct (Z.ltb_spec 0 (Args.pad_x args)); [discriminate|].
    destruct (Z.ltb_spec 0 (Args.pad_y args)); [discriminate|]. lia.
  - rewrite Hi.
    destruct ((0 <? Args.pad_x args) || Args.zero_pad_x args || Args.grayscale_x args) eqn:E3;
      [eexists; reflexivity|].
    destruct (Z.ltb_spec 0 (Args.pad_x args)); [discriminate|].
    destruct Hx as [?|[Hx|Hx]]; [lia| |]; rewrite Hx in E3; simpl in E3;
      [discriminate|rewrite orb_true_r in E3; discriminate].
Qed.

(** Accepted options pass the three checks. *)
Lemma accepted_checks (args : Args.t) :
  options_accepted args ->
  Args.split_image args && negb (0 <? Args.max_size args) = false /\
  ((0 <? Args.pad_x args) || (0 <? Args.pad_y args)) && (0 <? Args.max_size args) = false /\
  (Args.input args = None ->
   (0 <? Args.pad_x args) || Args.zero_pad_x args || Args.grayscale_x args = false).
Proof.
  intros (H1 & H2 & H3). repeat split.
  - destruct (Args.split_image args); [|reflexivity].
    destruct (Z.ltb_spec 0 (Args.max_size args)); [reflexivity|]. specialize (H1 eq_refl). lia.
  - destruct (Z.ltb_spec 0 (Args.max_size args)); [|apply andb_false_r].
    destruct (Z.ltb_spec 0 (Args.pad_x args)); [lia|].
    destruct (Z.ltb_spec 0 (Args.pad_y args)); [lia|]. reflexivity.
  - intros Hi. destruct (H3 Hi) as (Hp & -> & ->).
    destruct (Z.ltb_spec 0 (Args.pad_x args)); [lia|]. reflexivity.
Qed.

(** A path that is neither a directory nor a list file binds nothing. *)
Lemma load_side_unrecognised (p : string) :
  path_isdir p = false -> list_file (path_ext p) = false -> load p = Ok None.
Proof. unfold load_side, list_file. intros -> ->. reflexivity. Qed.

(** X13.  When the target is neither a directory nor a [.txt] or [.csv]
    file, and the input is absent or loads, [main] ends with the
    [UnboundLocalError] of [y_data], before anything is written. *)
Theorem main_unrecognised_target (args : Args.t) :
  options_accepted args ->
  path_isdir (Args.target args) = false ->
  list_file (path_ext (Args.target args)) = false ->
  (forall input, Args.input args = Some input -> exists x_data, load input = Ok x_data) ->
  run args = ([], Raise (UnboundLocalError "y_data")).
Proof.
  intros Ha Hd He Hx. destruct (accepted_checks args Ha) as (C1 & C2 & C3).
  unfold main. rewrite C1, C2, (load_side_unrecognised _ Hd He).
  destruct (Args.input args) as [input|].
  - destruct (Hx input eq_refl) as (x_data & ->). reflexivity.
  - rewrite (C3 eq_refl). reflexivity.
Qed.

(** X14.  When the target loads and the input is neither a directory nor
    a [.txt] or [.csv] file, [main] ends with the [UnboundLocalError] of
    [x_data] at the first key of the target, before anything is written;
    with no key at all it goes on and converts an empty set of pairs. *)
Theorem main_unrecognised_input (args : Args.t) (input : string) (y_data : dict entry) :
  options_accepted args ->
  Args.input args = Some input ->
  path_isdir input = false ->
  list_file (path_ext input) = false ->
  load (Args.target args) = Ok (Some y_data) ->
  run args = match y_data with
             | [] => then_return_0 (convert [] true args)
             | _ :: _ => ([], Raise (UnboundLocalError "x_data"))
             end.
Proof.
  intros Ha Hi Hd He Hy. destruct (accepted_checks args Ha) as (C1 & C2 & _).
  unfold main. rewrite C1, C2, Hi, Hy, (load_side_unrecognised _ Hd He).
  rewrite !io_bind_lift_ok. unfold bound at 1. rewrite io_bind_lift_ok.
  destruct y_data as [|[k v] y_data].
  - cbn [dict_keys map for_each]. rewrite io_bind_lift_ok. apply io_bind_return_0.
  - reflexivity.
Qed.

(** The validation loop of [main] pairs every key of the target side
    that the input side has. *)
Lemma validate_ok (x_data y_data : dict entry) (keys : list string) :
  (forall k, In k keys -> In k (dict_keys y_data)) ->
  (forall k, In k keys -> dict_mem k x_data = true) ->
  forall data : dict sample,
  exists data',
    for_each keys (fun y_key data =>
      x_data <- bound "x_data" (Some x_data) ;;
      if dict_mem y_key x_data then
        x_entry <- getitem x_data y_key ;;
        y_entry <- getitem y_data y_key ;;
        Ok (dict_set y_key {| sample_x := Some x_entry; sample_y := y_entry |} data)
      else Raise (RuntimeError (y_key ++ " does not exist on --x side")%string)) data
    = Ok data' /\
    (NoDup keys -> (forall k, In k keys -> ~ In k (dict_keys data)) ->
     dict_keys data' = dict_keys data ++ keys) /\
    (forall k, ~ In k keys -> dict_get k data' = dict_get k data) /\
    (forall k, In k keys ->
       exists xe ye, dict_get k x_data = Some xe /\ dict_get k y_data = Some ye /\
                     dict_get k data' = Some {| sample_x := Some xe; sample_y := ye |}).
Proof.
  induction keys as [|k0 keys IH]; intros Hy Hx data.
  - exists data. simpl. repeat split; [now rewrite app_nil_r | tauto].
  - cbn [for_each]. simpl bind. rewrite (Hx k0 (or_introl eq_refl)).
    pose proof (Hx k0 (or_introl eq_refl)) as Hm. unfold dict_mem in Hm. unfold getitem.
    destruct (dict_get k0 x_data) as [xe|] eqn:Exe; [|discriminate].
    destruct (dict_get_keys k0 y_data (Hy k0 (or_introl eq_refl))) as (ye & Eye).
    rewrite Eye. simpl bind.
    set (data1 := dict_set k0 {| sample_x := Some xe; sample_y := ye |} data).
    destruct (IH (fun k H => Hy k (or_intror H)) (fun k H => Hx k (or_intror H)) data1)
      as (data' & Hr & Hkeys & Hout & Hin).
    exists data'. split; [exact Hr|]. split; [|split].
    + intros Hnd Hfresh. inversion Hnd as [|? ? Hk0 Hnd']; subst.
      rewrite Hkeys; [|assumption|].
      * unfold data1. rewrite dict_keys_set.
        destruct (dict_mem k0 data) eqn:Em.
        -- apply dict_mem_keys in Em. destruct (Hfresh k0 (or_introl eq_refl) Em).
        -- rewrite <- app_assoc. reflexivity.
      * intros k Hk Hin1. unfold data1 in Hin1. rewrite dict_keys_set in Hin1.
        destruct (dict_mem k0 data).
        -- exact (Hfresh k (or_intror Hk) Hin1).
        -- apply in_app_iff in Hin1. destruct Hin1 as [Hin1|[<-|[]]].
           ++ exact (Hfresh k (or_intror Hk) Hin1).
           ++ exact (Hk0 Hk).
    + intros k Hk. rewrite Hout by (intros H; apply Hk; now right).
      unfold data1. apply dict_get_set_neq. intros <-. apply Hk. now left.
    + intros k Hk. destruct (in_dec string_dec k keys) as [Hin'|Hnin].
      * exact (Hin k Hin').
      * destruct Hk as [<-|Hk]; [|contradiction].
        exists xe, ye. split; [assumption|]. split; [assumption|].
        rewrite Hout by assumption. unfold data1. apply dict_get_set_eq.
Qed.

(** X15.  When the options are accepted, both sides load and every key
    of the target side is a key of the input side, [main] converts the
    pairs made of the two entries of each key of the target side, in the
    order of the target side; keys that only the input side has are left
    out. *)
Theorem main_pairs_by_key (args : Args.t) (input : string) (x_data y_data : dict entry) :
  options_accepted args ->
  Args.input args = Some input ->
  load (Args.target args) = Ok (Some y_data) ->
  load input = Ok (Some x_data) ->
  NoDup (dict_keys y_data) ->
  (forall k, In k (dict_keys y_data) -> dict_mem k x_data = true) ->
  exists data,
    run args = then_return_0 (convert data true args) /\
    dict_keys data = dict_keys y_data /\
    (forall k, In k (dict_keys y_data) ->
       exists xe ye, dict_get k x_data = Some xe /\ dict_get k y_data = Some ye /\
                     dict_get k data = Some {| sample_x := Some xe; sample_y := ye |}).
Proof.
  intros Ha Hi Hy Hx Hnd Hall. destruct (accepted_checks args Ha) as (C1 & C2 & _).
  destruct (validate_ok x_data y_data (dict_keys y_data) (fun k H => H) Hall [])
    as (data & Hr & Hkeys & _ & Hin).
  exists data. split; [|split].
  - unfold main. rewrite C1, C2, Hi, Hy, Hx. rewrite !io_bind_lift_ok.
    unfold bound at 1. rewrite io_bind_lift_ok. rewrite Hr, io_bind_lift_ok.
    apply io_bind_return_0.
  - apply Hkeys; [assumption|]. intros k _ [].
  - exact Hin.
Qed.

(** The target-only data of [main]: one sample per entry, in order. *)
Lemma target_only_data (y_data : dict entry) :
  forall data : dict sample,
    NoDup (dict_keys y_data) ->
    (forall k, In k (dict_keys y_data) -> ~ In k (dict_keys data)) ->
    fold_left (fun data '(k, v) =>
                 dict_set k {| sample_x := None; sample_y := v |} data) y_data data
    = data ++ map (fun '(k, v) => (k, {| sample_x := None; sample_y := v |})) y_data.
Proof.
  induction y_data as [|[k v] y_data IH]; intros data Hnd Hfresh; simpl.
  - now rewrite app_nil_r.
  - simpl in Hnd. inversion Hnd as [|? ? Hk Hnd']; subst.
    assert (Es : dict_set k {| sample_x := None; sample_y := v |} data
                 = data ++ [(k, {| sample_x := None; sample_y := v |})]).
    { assert (Hf : ~ In k (dict_keys data)) by (apply Hfresh; now left).
      clear - Hf. induction data as [|[k' v'] data IHd]; simpl; [reflexivity|].
      destruct (String.eqb_spec k k') as [->|]; [simpl in Hf; tauto|].
      rewrite IHd; [reflexivity|]. simpl in Hf. tauto. }
    rewrite Es, IH; [now rewrite <- app_assoc|assumption|].
    intros k' Hk' Hin. unfold dict_keys in Hin. rewrite map_app, in_app_iff in Hin.
    destruct Hin as [Hin|[<-|[]]].
    + apply (Hfresh k'); [now right|exact Hin].
    + exact (Hk Hk').
Qed.

(** X16.  Without an input, when the options are accepted and the target
    loads, [main] converts one sample per entry of the target, in order,
    each with the target entry alone. *)
Theorem main_target_only (args : Args.t) (y_data : dict entry) :
  options_accepted args ->
  Args.input args = None ->
  load (Args.target args) = Ok (Some y_data) ->
  NoDup (dict_keys y_data) ->
  run args
  = then_return_0
      (convert (map (fun '(k, v) => (k, {| sample_x := None; sample_y := v |})) y_data)
               false args).
Proof.
  intros Ha Hi Hy Hnd. destruct (accepted_checks args Ha) as (C1 & C2 & C3).
  unfold main. rewrite C1, C2, Hi, Hy, (C3 Hi). rewrite !io_bind_lift_ok.
  unfold bound. rewrite io_bind_lift_ok.
  rewrite (target_only_data y_data [] Hnd) by (intros k _ []).
  apply io_bind_return_0.
Qed.

End MainProperties.

Lemma main_rejects_options_witness :
  let args := {| Args.input := None; Args.target := "target"; Args.data_dir := "out";
                 Args.max_size := 0; Args.split_image := true;
                 Args.split_step := Py.lit_0_5; Args.pad_x := 0; Args.pad_y := 0;
                 Args.zero_pad_x := false; Args.zero_pad_y := false;
                 Args.grayscale_x := false; Args.grayscale_y := false |} in
  exists msg,
    main (fun s _ => s) false (fun _ => ["a.png"])
         (fun f => ({| im_name := f; im_h := 4; im_w := 4 |}, {| filename := f; alpha := false |}))
         (fun _ => []) (fun _ => true) (fun _ => false) (fun _ => "") args
    = ([], Raise (ValueError msg)).
Proof.
  intros args.
  apply (main_rejects_options (fun s _ => s) false (fun _ => ["a.png"])
           (fun f => ({| im_name := f; im_h := 4; im_w := 4 |},
                      {| filename := f; alpha := false |}))
           (fun _ => []) (fun _ => true) (fun _ => false) (fun _ => "") args).
  left. simpl. split; [reflexivity|lia].
Defined.

Lemma main_unrecognised_target_witness :
  let args := {| Args.input := None; Args.target := "target.bin"; Args.data_dir := "out";
                 Args.max_size := 0; Args.split_image := false;
                 Args.split_step := Py.lit_0_5; Args.pad_x := 0; Args.pad_y := 0;
                 Args.zero_pad_x := false; Args.zero_pad_y := false;
                 Args.grayscale_x := false; Args.grayscale_y := false |} in
  main (fun s _ => s) false (fun _ => ["a.png"])
       (fun f => ({| im_name := f; im_h := 4; im_w := 4 |}, {| filename := f; alpha := false |}))
       (fun _ => []) (fun _ => false) (fun _ => false) (fun _ => ".bin") args
  = ([], Raise (UnboundLocalError "y_data")).
Proof.
  intros args.
  apply (main_unrecognised_target (fun s _ => s) false (fun _ => ["a.png"])
           (fun f => ({| im_name := f; im_h := 4; im_w := 4 |},
                      {| filename := f; alpha := false |}))
           (fun _ => []) (fun _ => false) (fun _ => false) (fun _ => ".bin") args).
  - unfold options_accepted. simpl. repeat split; intros; try discriminate; lia.
  - reflexivity.
  - reflexivity.
  - simpl. intros input H. discriminate H.
Defined.

Lemma main_unrecognised_input_witness :
  let args := {| Args.input := Some "in.bin"; Args.target := "target"; Args.data_dir := "out";
                 Args.max_size := 0; Args.split_image := false;
                 Args.split_step := Py.lit_0_5; Args.pad_x := 0; Args.pad_y := 0;
                 Args.zero_pad_x := false; Args.zero_pad_y := false;
                 Args.grayscale_x := false; Args.grayscale_y := false |} in
  main (fun s _ => s) false (fun _ => ["a.png"])
       (fun f => ({| im_name := f; im_h := 4; im_w := 4 |}, {| filename := f; alpha := false |}))
       (fun _ => []) (fun p => String.eqb p "target") (fun _ => false)
       (fun p => if String.eqb p "target" then "" else ".bin") args
  = ([], Raise (UnboundLocalError "x_data")).
Proof.
  intros args.
  apply (main_unrecognised_input (fun s _ => s) false (fun _ => ["a.png"])
           (fun f => ({| im_name := f; im_h := 4; im_w := 4 |},
                      {| filename := f; alpha := false |}))
           (fun _ => []) (fun p => String.eqb p "target") (fun _ => false)
           (fun p => if String.eqb p "target" then "" else ".bin") args "in.bin"
           [("a.png", {| src := "a.png"; options := [] |})]).
  - unfold options_accepted. simpl. repeat split; intros; try discriminate; lia.
  - reflexivity.
  - reflexivity.
  - reflexivity.
  - reflexivity.
Defined.

Lemma main_pairs_by_key_witness :
  let args := {| Args.input := Some "in"; Args.target := "target"; Args.data_dir := "out";
                 Args.max_size := 0; Args.split_image := false;
                 Args.split_step := Py.lit_0_5; Args.pad_x := 0; Args.pad_y := 0;
                 Args.zero_pad_x := false; Args.zero_pad_y := false;
                 Args.grayscale_x := false; Args.grayscale_y := false |} in
  let listdir := fun d : string =>
    if String.eqb d "in" then ["b.png"; "c.png"; "a.png"] else ["a.png"; "b.png"] in
  let loader := fun f : string =>
    ({| im_name := f; im_h := 4; im_w := 4 |}, {| filename := f; alpha := false |}) in
  exists data,
    main (fun s _ => s) false listdir loader (fun _ => []) (fun _ => true) (fun _ => false)
         (fun _ => "") args
    = then_return_0 (convert_data (fun s _ => s) false loader (fun _ => false) data true args) /\
    dict_keys data = ["a.png"; "b.png"].
Proof.
  intros args listdir loader.
  destruct (main_pairs_by_key (fun s _ => s) false listdir loader (fun _ => [])
              (fun _ => true) (fun _ => false) (fun _ => "") args "in"
              (load_files_from_dir (fun s _ => s) listdir "in")
              (load_files_from_dir (fun s _ => s) listdir "target"))
    as (data & Hrun & Hkeys & _).
  - unfold options_accepted. simpl. repeat split; intros; try discriminate; lia.
  - reflexivity.
  - reflexivity.
  - reflexivity.
  - vm_compute. repeat constructor; simpl; intros H; repeat destruct H as [H|H];
      try discriminate H; exact H.
  - vm_compute. intros k H. repeat destruct H as [H|H]; try rewrite <- H; try reflexivity.
    destruct H.
  - exists data. split; [exact Hrun|exact Hkeys].
Defined.

Lemma main_target_only_witness :
  let args := {| Args.input := None; Args.target := "target"; Args.data_dir := "out";
                 Args.max_size := 0; Args.split_image := false;
                 Args.split_step := Py.lit_0_5; Args.pad_x := 0; Args.pad_y := 0;
                 Args.zero_pad_x := false; Args.zero_pad_y := false;
                 Args.grayscale_x := false; Args.grayscale_y := false |} in
  let loader := fun f : string =>
    ({| im_name := f; im_h := 4; im_w := 4 |}, {| filename := f; alpha := false |}) in
  main (fun s _ => s) false (fun _ => ["a.png"; "b.png"]) loader (fun _ => [])
       (fun _ => true) (fun _ => false) (fun _ => "") args
  = then_return_0
      (convert_data (fun s _ => s) false loader (fun _ => false)
         [("a.png", {| sample_x := None; sample_y := {| src := "a.png"; options := [] |} |});
          ("b.png", {| sample_x := None; sample_y := {| src := "b.png"; options := [] |} |})]
         false args).
Proof.
  intros args loader.
  apply (main_target_only (fun s _ => s) false (fun _ => ["a.png"; "b.png"]) loader
           (fun _ => []) (fun _ => true) (fun _ => false) (fun _ => "") args
           [("a.png", {| src := "a.png"; options := [] |});
            ("b.png", {| src := "b.png"; options := [] |})]).
  - unfold options_accepted. simpl. repeat split; intros; try discriminate; lia.
  - reflexivity.
  - reflexivity.
  - repeat constructor; simpl; intros H; repeat destruct H as [H|H];
      try discriminate H; exact H.
Defined.

(** ** [convert_data] *)

Lemma insert_sorted_In (k a : string) (l : list string) :
  In a (insert_sorted k l) <-> a = k \/ In a l.
Proof.
  induction l as [|k' l IH]; simpl; [intuition|].
  destruct (String.leb k k'); simpl; [intuition|]. rewrite IH. intuition.
Qed.

Lemma sorted_In (a : string) (l : list string) : In a (sorted l) <-> In a l.
Proof.
  induction l as [|k l IH]; simpl; [tauto|].
  rewrite insert_sorted_In, IH. intuition.
Qed.

(** A loop that appends to a list one item per key, each related to its
    key, builds a list related to the keys item by item. *)
Lemma for_each_collect_rel {A B} (R : A -> B -> Prop)
      (body : A -> list B -> result (list B)) (keys : list A) :
  (forall k, In k keys -> exists b, R k b /\ forall files, body k files = Ok (files ++ [b])) ->
  forall acc, exists out, for_each keys body acc = Ok (acc ++ out) /\ Forall2 R keys out.
Proof.
  induction keys as [|k keys IH]; intros H acc.
  - exists []. simpl. rewrite app_nil_r. auto.
  - destruct (H k (or_introl eq_refl)) as (b & Hb & Eb).
    destruct (IH (fun k' Hk' => H k' (or_intror Hk')) (acc ++ [b])) as (out & Eo & Ho).
    exists (b :: out). cbn [for_each]. rewrite Eb. simpl bind. rewrite Eo, <- app_assoc.
    split; [reflexivity|]. constructor; assumption.
Qed.

Lemma Forall2_combine_map {K A B A' B'} (R1 : K -> A -> Prop) (R2 : K -> B -> Prop)
      (f : A -> A') (g : B -> B') (keys : list K) (xs : list A) (ys : list B) :
  Forall2 R1 keys xs -> Forall2 R2 keys ys ->
  Forall2 (fun k item => exists a b, R1 k a /\ R2 k b /\ item = (f a, g b))
          keys (combine (map f xs) (map g ys)).
Proof.
  intros H1. revert ys. induction H1 as [|k a keys xs Hk H1 IH]; intros ys H2;
    inversion H2; subst; simpl; constructor; eauto.
Qed.

Lemma combine_repeat_map {A B C} (c : C) (g : A -> B) (l : list A) :
  combine (repeat c (List.length l)) (map g l) = map (fun a => (c, g a)) l.
Proof. induction l as [|a l IH]; simpl; congruence. Qed.

Lemma io_bind_emit {B} (e : event) (k : unit -> io B) :
  io_bind (emit e) k = (e :: fst (k tt), snd (k tt)).
Proof. unfold io_bind, emit. destruct (k tt). reflexivity. Qed.

Lemma io_bind_skip {B} (k : unit -> io B) : io_bind skip k = k tt.
Proof. unfold io_bind, skip. destruct (k tt). reflexivity. Qed.


Lemma io_bind_outcome {A B} (c : io A) (k : A -> io B) :
  snd (io_bind c k) = match snd c with Ok a => snd (k a) | Raise e => Raise e end.
Proof. destruct c as [t [a|e]]; simpl; [destruct (k a); reflexivity|reflexivity]. Qed.

Lemma io_for_each_app {A} (body : A -> io unit) (l1 l2 : list A) :
  io_for_each (l1 ++ l2) body
  = io_bind (io_for_each l1 body) (fun _ => io_for_each l2 body).
Proof.
  induction l1 as [|a l1 IH]; simpl.
  - destruct (io_for_each l2 body). reflexivity.
  - rewrite IH. destruct (body a) as [t [[]|e]]; simpl; [|reflexivity].
    destruct (io_for_each l1 body) as [t1 [[]|e1]]; simpl; [|reflexivity].
    destruct (io_for_each l2 body) as [t2 r2]. now rewrite app_assoc.
Qed.





Section ConvertProperties.

Variable filename2key : string -> bool -> string.
Variable use_subdir_default : bool.
Variable image_loader : string -> pil_image * meta.
Variable path_exists : string -> bool.

Local Abbreviation convert :=
(convert_data filename2key use_subdir_default image_loader path_exists).
Local Abbreviation pair_step := (convert_pair filename2key use_subdir_default).
Local Abbreviation loop := (convert_loop filename2key use_subdir_default).
Local Abbreviation output_name := (make_output_name filename2key use_subdir_default).

(** X17.  [convert_data] makes and clears the directories, then runs the
    loop on one item per key of [data] in sorted order: the decoded
    target of the key, with the decoded input of the same key when there
    is an input side. *)
Theorem convert_data_items (data : dict sample) (has_x : bool) (args : Args.t) :
  (has_x = true -> forall k s, dict_get k data = Some s -> sample_x s <> None) ->
  let input_dir := path_join (Args.data_dir args) INPUT_DIR in
  let target_dir := path_join (Args.data_dir args) TARGET_DIR in
  exists items,
    Forall2 (fun k item => exists s,
               dict_get k data = Some s /\
               item = (if has_x then option_map (fun e => image_loader (src e)) (sample_x s)
                       else None,
                       image_loader (src (sample_y s))))
            (sorted (dict_keys data)) items /\
    convert data has_x args
    = ([Makedirs (Args.data_dir args)]
       ++ (if path_exists input_dir then [Rmtree input_dir] else [])
       ++ (if path_exists target_dir then [Rmtree target_dir] else [])
       ++ [Makedirs target_dir]
       ++ (if has_x then [Makedirs input_dir] else [])
       ++ fst (loop args input_dir target_dir items),
       snd (loop args input_dir target_dir items)).
Proof.
  intros Hx input_dir target_dir.
  set (Ry := fun (k : string) (f : string) =>
               exists s, dict_get k data = Some s /\ f = src (sample_y s)).
  set (Rx := fun (k : string) (f : string) =>
               exists s e, dict_get k data = Some s /\ sample_x s = Some e /\ f = src e).
  destruct (for_each_collect_rel Ry
              (fun k files => s <- getitem data k ;; Ok (files ++ [src (sample_y s)]))
              (sorted (dict_keys data))) with (acc := @nil string) as (y_files & Ey & Hy).
  { intros k Hk. apply (proj1 (sorted_In _ _)) in Hk. destruct (dict_get_keys k data Hk) as (s & Es).
    exists (src (sample_y s)). split; [exists s; auto|].
    intros files. unfold getitem. rewrite Es. reflexivity. }
  assert (Hhead : forall items,
    convert_loop filename2key use_subdir_default args input_dir target_dir items
    = loop args input_dir target_dir items) by reflexivity.
  destruct has_x.
  - destruct (for_each_collect_rel Rx
                (fun k files => s <- getitem data k ;;
                   match sample_x s with
                   | Some e => Ok (files ++ [src e])
                   | None => Raise (KeyError "x")
                   end)
                (sorted (dict_keys data))) with (acc := @nil string) as (x_files & Ex & Hxs).
    { intros k Hk. apply (proj1 (sorted_In _ _)) in Hk. destruct (dict_get_keys k data Hk) as (s & Es).
      destruct (sample_x s) as [e|] eqn:Ee; [|destruct (Hx eq_refl k s Es Ee)].
      exists (src e). split; [exists s, e; auto|].
      intros files. unfold getitem. rewrite Es. simpl bind. rewrite Ee. reflexivity. }
    exists (combine (map (fun f => Some (image_loader f)) x_files) (map image_loader y_files)).
    split.
    + eapply Forall2_impl; [|exact (Forall2_combine_map Rx Ry _ _ _ _ _ Hxs Hy)].
      intros k item (a & b & (s & e & Es & Ee & ->) & (s' & Es' & ->) & ->).
      assert (s' = s) by congruence. subst s'.
      exists s. split; [assumption|]. rewrite Ee. reflexivity.
    + unfold convert_data. fold input_dir target_dir. rewrite Ey, Ex. simpl bind.
      rewrite !io_bind_emit.
      destruct (path_exists input_dir); destruct (path_exists target_dir);
        rewrite ?io_bind_emit, ?io_bind_skip, ?io_bind_lift_ok; reflexivity.
  - exists (map (fun f => (None, image_loader f)) y_files). split.
    + clear Ey. induction Hy as [|k f keys fs (s & Es & ->) Hy IH]; simpl; constructor; eauto.
    + unfold convert_data. fold input_dir target_dir. rewrite Ey. simpl app.
      rewrite !io_bind_emit.
      destruct (path_exists input_dir); destruct (path_exists target_dir);
        rewrite ?io_bind_emit, ?io_bind_skip, ?io_bind_lift_ok;
        rewrite combine_repeat_map; reflexivity.
Qed.

(** The numbered submissions never raise. *)
Lemma submit_pairs_ok (input_dir target_dir x_name y_name : string)
      (tiles : list (tensor * tensor)) :
  forall no,
    snd (submit_pairs filename2key use_subdir_default input_dir target_dir
                      x_name y_name tiles no) = Ok tt.
Proof.
  induction tiles as [|[x y] tiles IH]; intros no; cbn [submit_pairs]; [reflexivity|].
  rewrite !io_bind_emit. cbn [snd]. apply IH.
Qed.

Lemma submit_tiles_ok (target_dir y_name : string) (tiles : list tensor) :
  forall no,
    snd (submit_tiles filename2key use_subdir_default target_dir y_name tiles no) = Ok tt.
Proof.
  induction tiles as [|y tiles IH]; intros no; cbn [submit_tiles]; [reflexivity|].
  rewrite !io_bind_emit. cbn [snd]. apply IH.
Qed.

(** A pair at which the body of the loop raises has had no effect. *)
Lemma convert_pair_raises_clean (args : Args.t) (input_dir target_dir : string)
      (x_item : option (pil_image * meta)) (y_item : pil_image * meta) (e : exn) :
  snd (pair_step args input_dir target_dir x_item y_item) = Raise e ->
  pair_step args input_dir target_dir x_item y_item = ([], Raise e).
Proof.
  unfold convert_pair. destruct y_item as [y_im y_meta].
  destruct (alpha y_meta); [discriminate|].
  destruct x_item as [[x_im x_meta]|].
  - destruct (String.eqb _ _); cbn [py_assert];
      [rewrite io_bind_lift_ok|cbn; intros H; congruence].
    destruct (alpha x_meta); [discriminate|].
    destruct (0 <? Args.max_size args); [|discriminate].
    destruct (Args.split_image args).
    + destruct (pair_split_image _ _ _ _) as [[xs ys]|e'].
      * rewrite io_bind_lift_ok, submit_pairs_ok. discriminate.
      * cbn. intros H; congruence.
    + destruct (pair_crop_max _ _ _) as [[x' y']|e'].
      * discriminate.
      * cbn. intros H; congruence.
  - destruct (0 <? Args.max_size args); [|discriminate].
    destruct (Args.split_image args); [|discriminate].
    destruct (split_image _ _ _) as [ys|e'].
    + rewrite io_bind_lift_ok, submit_tiles_ok. discriminate.
    + cbn. intros H; congruence.
Qed.

(** X18.  The loop of [convert_data] stops at the first pair at which
    its body raises: the events are those of the pairs before it, the
    pair itself has submitted nothing, and the pairs after it are not
    looked at. *)
Theorem convert_loop_stops (args : Args.t) (input_dir target_dir : string)
        (before after : list (option (pil_image * meta) * (pil_image * meta)))
        (x_item : option (pil_image * meta)) (y_item : pil_image * meta) (e : exn) :
  snd (loop args input_dir target_dir before) = Ok tt ->
  snd (pair_step args input_dir target_dir x_item y_item) = Raise e ->
  loop args input_dir target_dir (before ++ (x_item, y_item) :: after)
  = (fst (loop args input_dir target_dir before), Raise e).
Proof.
  intros Hb He. unfold convert_loop in *. rewrite io_for_each_app.
  destruct (io_for_each before _) as [t [[]|e0]]; [|discriminate].
  cbn [io_for_each io_bind fst].
  rewrite (convert_pair_raises_clean _ _ _ _ _ _ He). cbn. now rewrite app_nil_r.
Qed.








End ConvertProperties.

Lemma convert_data_items_witness :
  let args := {| Args.input := Some "in"; Args.target := "target"; Args.data_dir := "out";
                 Args.max_size := 0; Args.split_image := false;
                 Args.split_step := Py.lit_0_5; Args.pad_x := 0; Args.pad_y := 0;
                 Args.zero_pad_x := false; Args.zero_pad_y := false;
                 Args.grayscale_x := false; Args.grayscale_y := false |} in
  let loader := fun f : string =>
    ({| im_name := f; im_h := 4; im_w := 4 |}, {| filename := f; alpha := false |}) in
  let data :=
    [("b.png", {| sample_x := Some {| src := "in/b.png"; options := [] |};
                  sample_y := {| src := "target/b.png"; options := [] |} |});
     ("a.png", {| sample_x := Some {| src := "in/a.png"; options := [] |};
                  sample_y := {| src := "target/a.png"; options := [] |} |})] in
  exists items,
    List.length items = 2%nat /\
    snd (convert_data (fun s _ => s) false loader (fun _ => false) data true args)
    = snd (convert_loop (fun s _ => s) false args "out/x" "out/y" items).
Proof.
  intros args loader data.
  destruct (convert_data_items (fun s _ => s) false loader (fun _ => false) data true args)
    as (items & HF & Heq).
  - intros _ k s H. unfold data in H. simpl in H.
    destruct (String.eqb k "b.png"); [injection H as <-; discriminate|].
    destruct (String.eqb k "a.png"); [injection H as <-; discriminate|discriminate].
  - exists items. split.
    + apply Forall2_length in HF. symmetry. exact HF.
    + rewrite Heq. reflexivity.
Defined.

Lemma convert_loop_stops_witness :
  let args := {| Args.input := Some "in"; Args.target := "target"; Args.data_dir := "out";
                 Args.max_size := 0; Args.split_image := false;
                 Args.split_step := Py.lit_0_5; Args.pad_x := 0; Args.pad_y := 0;
                 Args.zero_pad_x := false; Args.zero_pad_y := false;
                 Args.grayscale_x := false; Args.grayscale_y := false |} in
  let item := fun (x y : string) =>
    (Some ({| im_name := x; im_h := 4; im_w := 4 |}, {| filename := x; alpha := false |}),
     ({| im_name := y; im_h := 4; im_w := 4 |}, {| filename := y; alpha := false |})) in
  convert_loop (fun s _ => s) false args "out/x" "out/y"
    ([item "a.png" "a.png"] ++ item "b.png" "c.png" :: [item "d.png" "d.png"])
  = ([Submit (Decoded "a.png" 4 4) "out/x/a.png.sz";
      Submit (Decoded "a.png" 4 4) "out/y/a.png.sz"], Raise AssertionError).
Proof.
  intros args item.
  apply (convert_loop_stops (fun s _ => s) false args "out/x" "out/y"
           [item "a.png" "a.png"] [item "d.png" "d.png"]
           (fst (item "b.png" "c.png")) (snd (item "b.png" "c.png")) AssertionError).
  - reflexivity.
  - reflexivity.
Defined.


